(** * Cause-list retrieval: captcha solver, search client and record parser

    A shallow embedding of [causelist/captcha.py], [causelist/client.py] and
    [causelist/parser.py], with the properties the specification states
    about them, followed by further properties of these modules and of
    [causelist/date_utils.py], [bot/formatter.py] and the date menu of
    [bot/handlers.py].

    Conventions of the embedding.
    - A Python [str] is a [string]; a character is a code point below 256.
      The [str] methods used by the code are embedded on that range with
      Python's own tables ([isspace], [isdigit], [lower]).
    - [None] is [option]'s [None]; a raised exception is the [Raise] branch
      of [res].
    - The outside world (HTTP session, recognisers, clock) is an explicit
      state threaded through every call, together with a log of the calls
      that were made.
    - Library functions the code calls ([BeautifulSoup], [html.escape],
      [strftime], [strptime], the speech service and the OCR engine) are
      parameters.  A [datetime.date] is its proleptic Gregorian ordinal. *)

From Stdlib Require Import String Ascii List Bool Arith Lia PeanoNat.
From Stdlib Require Import ZArith Permutation DecimalString.
From Equations Require Import Equations.
Import ListNotations.
Local Open Scope list_scope.
Local Open Scope string_scope.
Local Open Scope nat_scope.

(* ===================================================================== *)
(** ** Python [str] primitives *)
(* ===================================================================== *)

Module PyStr.

Definition code (c : ascii) : nat := nat_of_ascii c.

(** [str.isspace] on one code point: TAB..CR, FS..US, SPACE, NEL, NBSP. *)
Definition isspace (c : ascii) : bool :=
  let n := code c in
  (((9 <=? n) && (n <=? 13)) || ((28 <=? n) && (n <=? 32))
   || (n =? 133) || (n =? 160))%nat.

(** [str.isdigit] on one code point: 0-9 and the superscripts 2, 3, 1. *)
Definition isdigit_char (c : ascii) : bool :=
  let n := code c in
  (((48 <=? n) && (n <=? 57)) || (n =? 178) || (n =? 179) || (n =? 185))%nat.

(** [s.isdigit()]: non-empty and every character a digit. *)
Fixpoint all_digits (s : string) : bool :=
  match s with
  | EmptyString => true
  | String c s' => isdigit_char c && all_digits s'
  end.

Definition isdigit (s : string) : bool :=
  match s with
  | EmptyString => false
  | _ => all_digits s
  end.

(** [str.lower] on one code point: A-Z, and the Latin-1 capitals
    U+00C0..U+00DE without the multiplication sign U+00D7. *)
Definition lower_char (c : ascii) : ascii :=
  let n := code c in
  if (((65 <=? n) && (n <=? 90))
      || ((192 <=? n) && (n <=? 222) && negb (n =? 215)))%nat
  then ascii_of_nat (n + 32) else c.

Fixpoint lower (s : string) : string :=
  match s with
  | EmptyString => EmptyString
  | String c s' => String (lower_char c) (lower s')
  end.

(** [bool(s)]: a string is truthy when it is not empty. *)
Definition truthy (s : string) : bool :=
  match s with EmptyString => false | _ => true end.

Definition len (s : string) : nat := String.length s.

(** [s.startswith(p)]. *)
Definition startswith (p s : string) : bool := String.prefix p s.

(** [sub in s]. *)
Fixpoint contains (sub s : string) : bool :=
  startswith sub s
  || match s with
     | EmptyString => false
     | String _ s' => contains sub s'
     end.

(** [s.lstrip()] and [s.lstrip(chars)] share one loop. *)
Fixpoint lstrip_by (p : ascii -> bool) (s : string) : string :=
  match s with
  | EmptyString => EmptyString
  | String c s' => if p c then lstrip_by p s' else s
  end.

Fixpoint rstrip_by (p : ascii -> bool) (s : string) : string :=
  match s with
  | EmptyString => EmptyString
  | String c s' =>
      match rstrip_by p s' with
      | EmptyString => if p c then EmptyString else String c EmptyString
      | r => String c r
      end
  end.

Definition strip (s : string) : string := rstrip_by isspace (lstrip_by isspace s).

Fixpoint mem_char (c : ascii) (chars : string) : bool :=
  match chars with
  | EmptyString => false
  | String d r => Ascii.eqb c d || mem_char c r
  end.

Definition lstrip_chars (chars s : string) : string :=
  lstrip_by (fun c => mem_char c chars) s.

(** [s.replace(old, new)] for a non-empty [old]: one pass from the left,
    each match is replaced and scanning resumes after it.  [skip] counts
    the characters of the current match still to be dropped. *)
Fixpoint replace_from (old new : string) (skip : nat) (s : string) : string :=
  match s with
  | EmptyString => EmptyString
  | String c s' =>
      match skip with
      | S k => replace_from old new k s'
      | O =>
          if startswith old s
          then new ++ replace_from old new (len old - 1) s'
          else String c (replace_from old new 0 s')
      end
  end.

Definition replace (old new s : string) : string := replace_from old new 0 s.

(** [sep.join(parts)]. *)
Fixpoint join (sep : string) (parts : list string) : string :=
  match parts with
  | [] => EmptyString
  | [p] => p
  | p :: rest => p ++ sep ++ join sep rest
  end.

(** [s[:1]]. *)
Definition first1 (s : string) : string :=
  match s with
  | EmptyString => EmptyString
  | String c _ => String c EmptyString
  end.

End PyStr.

(* ===================================================================== *)
(** ** Exceptions, results and the outside world *)
(* ===================================================================== *)

(** The exceptions the modelled code can raise.  [RequestException] is what
    [requests] raises for a connection failure or a timeout, [HTTPError] is
    what [raise_for_status] raises, [JSONDecodeError] what [resp.json()]
    raises, [AttributeError] what calling [.get] on a decoded body that is
    not an object raises, [IndexError] and [KeyError] what a subscript out
    of range or a missing dict key raises, [ParserRejectedMarkup] is what
    [BeautifulSoup] raises on markup its parser gives up on, and
    [RuntimeError] is raised by the client itself. *)
Inductive exn : Type :=
| RequestException (what : string)
| HTTPError (status : nat)
| JSONDecodeError
| AttributeError
| IndexError
| KeyError (key : string)
| ParserRejectedMarkup
| RuntimeError (msg : string).

Inductive res (A : Type) : Type :=
| Ok (a : A)
| Raise (e : exn).
Arguments Ok {A} a.
Arguments Raise {A} e.

(** A decoded JSON document, as far as the code looks into it: an object
    with its members, or anything else (an array, a string, a number,
    [true], [false], [null]); a member is a string or anything else. *)
Inductive json_member : Type :=
| JsonString (s : string)
| JsonNotString.

Inductive json_value : Type :=
| JsonObject (members : list (string * json_member))
| JsonNotObject.

(** A [requests.Response]: status, body text, and what [resp.json()]
    returns, [None] when it raises because the body is not JSON. *)
Record response : Type := mkResponse {
  status_code : nat;
  text : string;
  json : option json_value
}.

(** The [data=] argument of [session.post]: a ready-made body or a dict. *)
Inductive post_data : Type :=
| RawBody (body : string)
| FormFields (fields : list (string * string)).

(** What the session did, in order, with what came back. *)
Inductive event : Type :=
| EvGet (url : string) (r : res response)
| EvPost (url : string) (data : post_data) (r : res response)
| EvSleep (milliseconds : nat).

(** Everything outside the program.  [http_get] and [http_post] are the
    session's requests (they raise on connection failure or timeout),
    [random_token] is [str(random.random())], and the two recognisers run
    every recognition track of one modality on a base64 blob and return the
    digit strings they produced in order, or [None] when the backend is
    missing or any step raised. *)
Record Portal : Type := mkPortal {
  World : Type;
  http_get : string -> World -> res response * World;
  http_post : string -> post_data -> World -> res response * World;
  random_token : World -> string * World;
  audio_tracks : string -> World -> option (list string) * World;
  image_tracks : string -> World -> option (list string) * World
}.

(** The state threaded through the program: the world and the log. *)
Record state (P : Portal) : Type := mkState {
  world : World P;
  log : list event
}.
Arguments world {P} s.
Arguments log {P} s.

(** State-and-exception monad. *)
Definition M (P : Portal) (A : Type) : Type := state P -> res A * state P.

Definition ret {P : Portal} {A : Type} (a : A) : M P A := fun s => (Ok a, s).

Definition raise {P : Portal} {A : Type} (e : exn) : M P A := fun s => (Raise e, s).

Definition bind {P : Portal} {A B : Type} (m : M P A) (k : A -> M P B) : M P B :=
  fun s =>
    match m s with
    | (Ok a, s') => k a s'
    | (Raise e, s') => (Raise e, s')
    end.

Declare Scope py_scope.
Delimit Scope py_scope with py.
Notation "x <- m ;; k" := (bind m (fun x => k))
  (at level 100, m at next level, right associativity) : py_scope.
Notation "m ;;; k" := (bind m (fun _ => k))
  (at level 100, right associativity) : py_scope.
Local Open Scope py_scope.

(** ** Configuration ([causelist/config.py]) *)

Definition BASE_URL : string := "https://hcraj.nic.in".
Definition CAUSELIST_PAGE : string := BASE_URL ++ "/cishcraj-jp/causelists/".
Definition CAPTCHA_URL : string := BASE_URL ++ "/cishcraj-jp/causelists/setgetcaptcha".
Definition CAPTCHA_VERIFY_URL : string := BASE_URL ++ "/cishcraj-jp/causelists/check-captcha".
Definition CAUSELIST_URL : string := BASE_URL ++ "/cishcraj-jp/get-causelist-in-pdf.php".
Definition MAX_CAPTCHA_RETRIES : nat := 10.
Definition CAPTCHA_RETRY_DELAY : nat := 500.

(** ** Session primitives, logged *)

Section Session.
Variable P : Portal.

Definition session_get (url : string) : M P response :=
  fun s =>
    let (r, w) := http_get P url (world s) in
    (r, mkState P w (log s ++ [EvGet url r])).

Definition session_post (url : string) (data : post_data) : M P response :=
  fun s =>
    let (r, w) := http_post P url data (world s) in
    (r, mkState P w (log s ++ [EvPost url data r])).

Definition random_random : M P string :=
  fun s =>
    let (t, w) := random_token P (world s) in
    (Ok t, mkState P w (log s)).

Definition time_sleep (ms : nat) : M P unit :=
  fun s => (Ok tt, mkState P (world s) (log s ++ [EvSleep ms])).

(** [resp.raise_for_status()]: HTTPError on 4xx and 5xx. *)
Definition raise_for_status (r : response) : M P unit :=
  if ((400 <=? status_code r) && (status_code r <? 600))%nat
  then raise (HTTPError (status_code r))
  else ret tt.

End Session.

(* ===================================================================== *)
(** ** [causelist/captcha.py] *)
(* ===================================================================== *)

(** [dict.get(key, default)] on a decoded JSON object. *)
Fixpoint dict_get (key : string) (default : string) (d : list (string * string)) : string :=
  match d with
  | [] => default
  | (k, v) :: rest => if String.eqb k key then v else dict_get key default rest
  end.

(** [data.get(key, default)] on the members of a decoded JSON object. *)
Fixpoint json_get (key : string) (default : json_member)
         (members : list (string * json_member)) : json_member :=
  match members with
  | [] => default
  | (k, v) :: rest => if String.eqb k key then v else json_get key default rest
  end.

(** The dict returned by [fetch_captcha]. *)
Record captcha_data : Type := mkCaptcha {
  image : json_member;
  audio : json_member
}.

(** A challenge as the portal sends it. *)
Definition challenge : json_value :=
  JsonObject [("image", JsonString "aW1n"); ("audio", JsonString "YXVk")].

(** ** [collections.Counter] and the built-in [max] / [min]

    A [Counter] is a dict: keys in first-insertion order, each with its
    count.  [most_common(1)] is [max] over the items by count, and Python's
    [max] and [min] keep the first of several equal extremes. *)

Fixpoint counter_add (x : string) (d : list (string * nat)) : list (string * nat) :=
  match d with
  | [] => [(x, 1)]
  | (k, n) :: rest =>
      if String.eqb k x then (k, S n) :: rest else (k, n) :: counter_add x rest
  end.

Definition Counter (l : list string) : list (string * nat) :=
  fold_left (fun d x => counter_add x d) l [].

(** [max(it, key=key)] with a running best, replaced only by a strictly
    larger key. *)
Fixpoint max_from {A : Type} (key : A -> nat) (best : A) (l : list A) : A :=
  match l with
  | [] => best
  | x :: rest => max_from key (if key best <? key x then x else best) rest
  end.

Fixpoint min_from {A : Type} (key : A -> nat) (best : A) (l : list A) : A :=
  match l with
  | [] => best
  | x :: rest => min_from key (if key x <? key best then x else best) rest
  end.

(** [counts.most_common(1)]: the empty list for an empty counter. *)
Definition most_common_1 (counts : list (string * nat)) : list (string * nat) :=
  match counts with
  | [] => []
  | it :: rest => [max_from snd it rest]
  end.

(** [abs(len(c) - 6)]. *)
Definition dist6 (c : string) : nat :=
  if PyStr.len c <? 6 then 6 - PyStr.len c else PyStr.len c - 6.

(** The selection both solvers end with (captcha.py lines 172-187 and
    253-267 are the same statements): prefer the most common 6-digit
    candidate, else the candidate closest to 6 digits, else [None]. *)
Definition select_result (all_candidates : list string) : option string :=
  let six_digit := filter (fun c => PyStr.len c =? 6) all_candidates in
  match most_common_1 (Counter six_digit) with
  | (best, _) :: _ => Some best
  | [] =>
      match all_candidates with
      | c :: rest => Some (min_from dist6 c rest)
      | [] => None
      end
  end.

(** Priority-ordered candidates of one attempt (captcha.py lines 298-312):
    pairs of solver tag and solution. *)
Definition six_digit_candidate (tag : string) (r : option string) : list (string * string) :=
  match r with
  | Some s => if PyStr.truthy s && (PyStr.len s =? 6) then [(tag, s)] else []
  | None => []
  end.

Definition both_agree (audio_result image_result : option string) : bool :=
  match audio_result, image_result with
  | Some a, Some i =>
      PyStr.truthy a && PyStr.truthy i
      && (PyStr.len a =? 6) && (PyStr.len i =? 6) && String.eqb a i
  | _, _ => false
  end.

Definition build_candidates (audio_result image_result : option string)
  : list (string * string) :=
  if both_agree audio_result image_result
  then six_digit_candidate "audio+image" audio_result
  else (six_digit_candidate "audio" audio_result
        ++ six_digit_candidate "image" image_result)%list.

Section Captcha.
Variable P : Portal.

(** [fetch_captcha]: GET with a cache-busting token, [raise_for_status],
    decode JSON, read the two blobs with empty defaults.  [resp.json()]
    raises on a body that is not JSON, and [data.get] on a decoded body
    that is not an object. *)
Definition fetch_captcha : M P captcha_data :=
  token <- random_random P ;;
  resp <- session_get P (CAPTCHA_URL ++ "?" ++ token) ;;
  raise_for_status P resp ;;;
  match json resp with
  | None => raise JSONDecodeError
  | Some JsonNotObject => raise AttributeError
  | Some (JsonObject data) =>
      ret (mkCaptcha (json_get "image" (JsonString "") data)
                     (json_get "audio" (JsonString "") data))
  end.

(** [solve_audio_captcha]: a missing backend or an exception in any
    recognition step gives [None]; otherwise the selection runs on the
    collected candidates. *)
Definition solve_audio_captcha (audio_base64 : string) : M P (option string) :=
  fun s =>
    let (tracks, w) := audio_tracks P audio_base64 (world s) in
    (Ok match tracks with
        | None => None
        | Some all_candidates => select_result all_candidates
        end,
     mkState P w (log s)).

Definition solve_image_captcha (image_base64 : string) : M P (option string) :=
  fun s =>
    let (tracks, w) := image_tracks P image_base64 (world s) in
    (Ok match tracks with
        | None => None
        | Some all_candidates => select_result all_candidates
        end,
     mkState P w (log s)).

(** A solver on a member of the challenge.  A member that is not a string
    makes [b64decode], the first statement of the solver's [try], raise
    [TypeError]: the solver returns [None] and nothing is recognised. *)
Definition solve_member (solver : string -> M P (option string)) (blob : json_member)
  : M P (option string) :=
  match blob with
  | JsonString base64 => solver base64
  | JsonNotString => ret None
  end.

(** [verify_captcha]: accepted when neither rejection marker is in the
    response body. *)
Definition accepted_body (body : string) : bool :=
  negb (PyStr.contains "SecCodeError" body) && negb (PyStr.contains "Invalid" body).

Definition verify_captcha (captcha_code : string) : M P bool :=
  resp <- session_post P CAPTCHA_VERIFY_URL (RawBody ("captcha=" ++ captcha_code)) ;;
  ret (accepted_body (text resp)).

(** The inner loop of [solve_and_verify]: [true] stands for the
    [return True] that leaves the function. *)
Fixpoint try_candidates (candidates : list (string * string)) : M P bool :=
  match candidates with
  | [] => ret false
  | (solver, solution) :: rest =>
      ok <- verify_captcha solution ;;
      if ok then ret true else try_candidates rest
  end.

(** The outer loop over [range(1, MAX_CAPTCHA_RETRIES + 1)]. *)
Fixpoint attempt_loop (attempts : list nat) : M P bool :=
  match attempts with
  | [] => ret false
  | attempt :: later =>
      captcha <- fetch_captcha ;;
      audio_result <- solve_member solve_audio_captcha (audio captcha) ;;
      image_result <- solve_member solve_image_captcha (image captcha) ;;
      match build_candidates audio_result image_result with
      | [] => attempt_loop later
      | candidates =>
          ok <- try_candidates candidates ;;
          if ok then ret true
          else (time_sleep P CAPTCHA_RETRY_DELAY ;;; attempt_loop later)
      end
  end.

Definition solve_and_verify_within (budget : nat) : M P bool :=
  attempt_loop (seq 1 budget).

Definition solve_and_verify : M P bool :=
  solve_and_verify_within MAX_CAPTCHA_RETRIES.

End Captcha.

(* ===================================================================== *)
(** ** [causelist/client.py] *)
(* ===================================================================== *)

(** [value.encode("utf-8")] for code points below 256. *)
Fixpoint utf8_encode (s : string) : list nat :=
  match s with
  | EmptyString => []
  | String c s' =>
      let n := PyStr.code c in
      if n <? 128 then n :: utf8_encode s'
      else (192 + n / 64) :: (128 + n mod 64) :: utf8_encode s'
  end.

Definition b64_alphabet : string :=
  "ABCDEFGHIJKLMNOPQRSTUVWXYZabcdefghijklmnopqrstuvwxyz0123456789+/".

Definition b64_char (i : nat) : string :=
  match String.get i b64_alphabet with
  | Some c => String c EmptyString
  | None => EmptyString
  end.

(** [base64.b64encode]: three bytes to four characters, [=] padding. *)
Fixpoint b64encode (bytes : list nat) : string :=
  match bytes with
  | [] => EmptyString
  | [a] => b64_char (a / 4) ++ b64_char (a mod 4 * 16) ++ "=="
  | [a; b] =>
      b64_char (a / 4) ++ b64_char (a mod 4 * 16 + b / 16)
      ++ b64_char (b mod 16 * 4) ++ "="
  | a :: b :: c :: rest =>
      b64_char (a / 4) ++ b64_char (a mod 4 * 16 + b / 16)
      ++ b64_char (b mod 16 * 4 + c / 64) ++ b64_char (c mod 64)
      ++ b64encode rest
  end.

Definition b64 (value : string) : string := b64encode (utf8_encode value).

(** The form fields of the search request (client.py lines 61-75). *)
Definition search_params (lawyer_name date_str cl_type : string) : list (string * string) :=
  [ ("cl", b64 "C");
    ("cldt", b64 date_str);
    ("cltype", b64 cl_type);
    ("courtno", b64 "0");
    ("judgename", b64 "0");
    ("caseno", "");
    ("lawyrname", b64 lawyer_name);
    ("petname", "");
    ("resname", "");
    ("deptname", "");
    ("format", b64 "1");
    ("QueryType", "Causelist");
    ("view", b64 "view") ].

(** [not response_text or response_text in ("No Record Found", "NA")]. *)
Definition no_record (response_text : string) : bool :=
  negb (PyStr.truthy response_text)
  || String.eqb response_text "No Record Found"
  || String.eqb response_text "NA".

(** Where the result document lives (client.py lines 94-99). *)
Definition file_url_of (response_text : string) : string :=
  if PyStr.startswith "http" response_text then response_text
  else BASE_URL ++ "/cishcraj-jp/" ++ PyStr.lstrip_chars "/" response_text.

Definition captcha_failure : exn :=
  RuntimeError "Failed to solve captcha after maximum retries".

Section Client.
Variable P : Portal.

Definition initialize_session : M P unit :=
  resp <- session_get P CAUSELIST_PAGE ;;
  raise_for_status P resp.

Definition search_causelist (lawyer_name date_str cl_type : string)
  : M P (option string) :=
  initialize_session ;;;
  solved <- solve_and_verify P ;;
  if negb solved then raise captcha_failure
  else
    let params := search_params lawyer_name date_str cl_type in
    resp <- session_post P CAUSELIST_URL (FormFields params) ;;
    let response_text := PyStr.strip (text resp) in
    if no_record response_text then ret None
    else
      let file_url := file_url_of response_text in
      content_resp <- session_get P file_url ;;
      raise_for_status P content_resp ;;;
      ret (Some (text content_resp)).

End Client.

(* ===================================================================== *)
(** ** [causelist/parser.py] *)
(* ===================================================================== *)

Set Warnings "-register-all".

(** The classes of string BeautifulSoup keeps apart from ordinary text:
    comments, declarations, doctypes and processing instructions, and the
    strings it finds in [<style>], [<script>], [<template>], [<rt>] and
    [<rp>]. *)
Inductive string_class : Type :=
| Comment
| Declaration
| Doctype
| ProcessingInstruction
| Stylesheet
| Script
| TemplateString
| RubyTextString
| RubyParenthesisString.

Definition string_class_eqb (a b : string_class) : bool :=
  match a, b with
  | Comment, Comment | Declaration, Declaration | Doctype, Doctype
  | ProcessingInstruction, ProcessingInstruction
  | Stylesheet, Stylesheet | Script, Script | TemplateString, TemplateString
  | RubyTextString, RubyTextString
  | RubyParenthesisString, RubyParenthesisString => true
  | _, _ => false
  end.

(** The parse tree BeautifulSoup hands to the code: tags and strings.
    [Text] is ordinary text ([NavigableString], [CData]), [Special] a
    string of one of the other classes.  The document object itself is a
    tag named [[document]]. *)
Inductive node : Type :=
| Text (s : string)
| Special (class : string_class) (s : string)
| Tag (name : string) (children : list node).

(** [tag.descendants]: every node below, in document order. *)
Fixpoint descendants (n : node) : list node :=
  match n with
  | Text _ | Special _ _ => []
  | Tag _ cs => flat_map (fun c => c :: descendants c) cs
  end.

Definition children (n : node) : list node :=
  match n with
  | Text _ | Special _ _ => []
  | Tag _ cs => cs
  end.

Definition is_named (names : list string) (n : node) : bool :=
  match n with
  | Text _ | Special _ _ => false
  | Tag nm _ => existsb (String.eqb nm) names
  end.

(** [builder.string_containers] of the HTML tree builders: the tags whose
    own text is of a special class. *)
Definition string_container (name : string) : option string_class :=
  if String.eqb name "rt" then Some RubyTextString
  else if String.eqb name "rp" then Some RubyParenthesisString
  else if String.eqb name "style" then Some Stylesheet
  else if String.eqb name "script" then Some Script
  else if String.eqb name "template" then Some TemplateString
  else None.

(** The strings [tag.get_text()] takes of what is below a tag called
    [name] ([tag.interesting_string_types]): ordinary text, or, for one of
    the tags above, the strings of its own class only.  The class is
    compared exactly, so a [<td>] leaves out what is inside a [<style>]
    below it, and comments are never taken. *)
Definition interesting (name : string) (d : node) : list string :=
  match d, string_container name with
  | Text s, None => [s]
  | Special class s, Some own => if string_class_eqb class own then [s] else []
  | _, _ => []
  end.

(** [tag.find_all(name)] and [tag.find_all([name, ...])]. *)
Definition find_all (names : list string) (n : node) : list node :=
  filter (is_named names) (descendants n).

(** The strings [get_text] sees: for a tag those of its descendants it
    finds interesting; for a string the string itself when it is ordinary
    text, nothing when it is of a special class. *)
Definition strings_of (n : node) : list string :=
  match n with
  | Text s => [s]
  | Special _ _ => []
  | Tag name _ => flat_map (interesting name) (descendants n)
  end.

(** [node.get_text()]. *)
Definition get_text (n : node) : string := PyStr.join "" (strings_of n).

(** [node.get_text(strip=True)]: each string stripped, empty ones dropped. *)
Definition get_text_strip (n : node) : string :=
  PyStr.join "" (filter PyStr.truthy (map PyStr.strip (strings_of n))).

Record CaseEntry : Type := mkCaseEntry {
  serial_no : string;
  case_type_no : string;
  title : string;
  advocates : string;
  court_no : string;
  judge_name : string;
  category : string
}.

Record CourtSection : Type := mkCourtSection {
  section_court_no : string;
  section_judge_name : string;
  categories : list (string * list CaseEntry)
}.

(** The shared loop of [_br_to_separator] and [_extract_title]: the
    stripped, non-empty pieces of a cell between its [<br>] children. *)
Definition flush_part (current parts : list string) : list string :=
  let text := PyStr.strip (PyStr.join "" current) in
  if PyStr.truthy text then (parts ++ [text])%list else parts.

Fixpoint br_loop (cs : list node) (current parts : list string) : list string :=
  match cs with
  | [] => flush_part current parts
  | child :: rest =>
      if is_named ["br"] child
      then br_loop rest [] (flush_part current parts)
      else br_loop rest (current ++ [get_text child])%list parts
  end.

Definition br_parts (cell : node) : list string := br_loop (children cell) [] [].

Definition _br_to_separator (cell : node) (separator : string) : string :=
  PyStr.join separator (br_parts cell).

Definition _extract_title (cell : node) : string :=
  match br_parts cell with
  | [] => ""
  | [p] => p
  | p0 :: rest => p0 ++ " Vs " ++ PyStr.join " " rest
  end.

(** Subscripts, which raise when out of range. *)
Definition getitem {A : Type} (l : list A) (i : nat) : res A :=
  match nth_error l i with
  | Some x => Ok x
  | None => Raise IndexError
  end.

Definition str_getitem (s : string) (i : nat) : res string :=
  match String.get i s with
  | Some c => Ok (String c EmptyString)
  | None => Raise IndexError
  end.

Definition rbind {A B : Type} (m : res A) (k : A -> res B) : res B :=
  match m with
  | Ok a => k a
  | Raise e => Raise e
  end.

Notation "x <~ m ;; k" := (rbind m (fun x => k))
  (at level 100, m at next level, right associativity) : py_scope.

(** The three pieces of state the row walk carries, and its output. *)
Record walk : Type := mkWalk {
  records : list CaseEntry;
  current_court : string;
  current_judge : string;
  current_category : string
}.

Definition walk_start : walk := mkWalk [] "" "" "".

Definition any_in (keywords : list string) (s : string) : bool :=
  existsb (fun k => PyStr.contains k s) keywords.

(** Advocate cells (parser.py lines 192-197). *)
Definition advocates_of (cells : list node) : string :=
  PyStr.join " | "
    (filter PyStr.truthy (map (fun c => _br_to_separator c ", ") (skipn 3 cells))).

(** One iteration of the row loop (parser.py lines 136-208). *)
Definition process_row (st : walk) (row : node) : res walk :=
  let cells := find_all ["td"; "th"] row in
  let cell_texts := map get_text_strip cells in
  match cell_texts with
  | [] => Ok st
  | _ =>
    let full_text := PyStr.strip (PyStr.join " " cell_texts) in
    let lower_text := PyStr.lower full_text in
    if negb (PyStr.truthy full_text)
       || (PyStr.contains "page" lower_text && PyStr.contains "of" lower_text)
    then Ok st
    else if PyStr.contains "court no" lower_text || PyStr.contains "court room" lower_text
    then Ok (mkWalk (records st) full_text "" "")
    else if PyStr.contains "hon'ble" lower_text || PyStr.contains "justice" lower_text
    then Ok (mkWalk (records st) (current_court st)
                    (PyStr.join " | " (filter PyStr.truthy cell_texts))
                    (current_category st))
    else if any_in ["s.no"; "sr.no"; "case type"; "name of advocate"] lower_text
    then Ok st
    else
      is_header <~ (if (length cell_texts <=? 2) && PyStr.truthy full_text
                    then (c0 <~ getitem cell_texts 0 ;;
                          Ok (negb (PyStr.isdigit (PyStr.first1 c0))))
                    else Ok false) ;;
      if is_header
      then
        if PyStr.contains "high court" lower_text || PyStr.contains "website" lower_text
           || PyStr.contains "causelist" lower_text
        then Ok st
        else if PyStr.contains "webex" lower_text || PyStr.contains "cisco" lower_text
                || PyStr.contains "note:" lower_text
        then Ok st
        else Ok (mkWalk (records st) (current_court st) (current_judge st) full_text)
      else if 3 <=? length cell_texts
      then
        sno <~ getitem cell_texts 0 ;;
        not_case <~ (if negb (PyStr.truthy sno) then Ok true
                     else (s0 <~ str_getitem sno 0 ;;
                           Ok (negb (PyStr.isdigit s0)
                               && negb (PyStr.contains "with" (PyStr.lower sno))))) ;;
        if not_case
        then
          if PyStr.truthy full_text
             && negb (any_in ["high court"; "website"; "="; "---"] lower_text)
          then Ok (mkWalk (records st) (current_court st) (current_judge st) full_text)
          else Ok st
        else
          title_cell <~ getitem cells 2 ;;
          let title := _extract_title title_cell in
          let advocates := advocates_of cells in
          case_type <~ getitem cell_texts 1 ;;
          let entry :=
            mkCaseEntry (PyStr.strip (PyStr.replace "With" "" sno))
                        case_type title advocates
                        (current_court st) (current_judge st) (current_category st) in
          Ok (mkWalk (records st ++ [entry])%list
                     (current_court st) (current_judge st) (current_category st))
      else Ok st
  end.

Fixpoint process_rows (st : walk) (rows : list node) : res walk :=
  match rows with
  | [] => Ok st
  | row :: rest => st' <~ process_row st row ;; process_rows st' rest
  end.

Fixpoint process_tables (st : walk) (tables : list node) : res walk :=
  match tables with
  | [] => Ok st
  | table :: rest =>
      st' <~ process_rows st (find_all ["tr"] table) ;; process_tables st' rest
  end.

(** [parse_to_records] on the tree BeautifulSoup built. *)
Definition parse_soup (soup : node) : res (list CaseEntry) :=
  st <~ process_tables walk_start (find_all ["table"] soup) ;;
  Ok (records st).

Section Parser.
(** [BeautifulSoup(html_content, "html.parser")], taken as given: the tree
    it builds, or the exception it raises on markup its parser rejects
    ([ParserRejectedMarkup] on [<![foo]>], for one). *)
Variable BeautifulSoup : string -> res node.

(** The call is not guarded: what [BeautifulSoup] raises leaves
    [parse_to_records]. *)
Definition parse_to_records (html_content : string) : res (list CaseEntry) :=
  soup <~ BeautifulSoup html_content ;;
  parse_soup soup.

End Parser.

(** ** [group_by_court]

    An [OrderedDict] and a [dict] both keep their keys in first-insertion
    order; assigning to a present key keeps its place. *)

Section Dict.
Context {V : Type}.

(** [key in d]. *)
Fixpoint dict_mem (key : string) (d : list (string * V)) : bool :=
  match d with
  | [] => false
  | (k, _) :: rest => String.eqb k key || dict_mem key rest
  end.

(** [d[key]]. *)
Fixpoint dict_getitem (key : string) (d : list (string * V)) : res V :=
  match d with
  | [] => Raise (KeyError key)
  | (k, v) :: rest => if String.eqb k key then Ok v else dict_getitem key rest
  end.

(** [d[key] = v]. *)
Fixpoint dict_setitem (key : string) (v : V) (d : list (string * V)) : list (string * V) :=
  match d with
  | [] => [(key, v)]
  | (k, v0) :: rest =>
      if String.eqb k key then (k, v) :: rest else (k, v0) :: dict_setitem key v rest
  end.

End Dict.

(** [x or default] on strings. *)
Definition or_else (x default : string) : string :=
  if PyStr.truthy x then x else default.

Definition court_key (entry : CaseEntry) : string := or_else (court_no entry) "Unknown".
Definition category_key (entry : CaseEntry) : string := or_else (category entry) "General".

(** One iteration of the loop of [group_by_court].  The section object and
    its category lists are mutated in place in the source; here every
    mutation is written back under the key the object is stored at. *)
Definition group_step (sections : list (string * CourtSection)) (entry : CaseEntry)
  : res (list (string * CourtSection)) :=
  let key := court_key entry in
  let sections :=
    if negb (dict_mem key sections)
    then dict_setitem key (mkCourtSection (court_no entry) (judge_name entry) []) sections
    else sections in
  section <~ dict_getitem key sections ;;
  let cat := category_key entry in
  let cats :=
    if negb (dict_mem cat (categories section))
    then dict_setitem cat [] (categories section)
    else categories section in
  cases <~ dict_getitem cat cats ;;
  let cats := dict_setitem cat (cases ++ [entry])%list cats in
  Ok (dict_setitem key
        (mkCourtSection (section_court_no section) (section_judge_name section) cats)
        sections).

Fixpoint group_loop (sections : list (string * CourtSection)) (entries : list CaseEntry)
  : res (list (string * CourtSection)) :=
  match entries with
  | [] => Ok sections
  | entry :: rest => sections' <~ group_step sections entry ;; group_loop sections' rest
  end.

(** The [OrderedDict] the loop builds. *)
Definition group_sections (entries : list CaseEntry) : res (list (string * CourtSection)) :=
  group_loop [] entries.

(** [list(sections.values())]. *)
Definition group_by_court (entries : list CaseEntry) : res (list CourtSection) :=
  sections <~ group_sections entries ;;
  Ok (map snd sections).

(* ===================================================================== *)
(** ** Vocabulary of the statements *)
(* ===================================================================== *)

(** How often [c] occurs in [l]. *)
Definition count (c : string) (l : list string) : nat := count_occ string_dec l c.

(** The distinct elements of [l] in the order they are first seen. *)
Fixpoint first_seen (l : list string) : list string :=
  match l with
  | [] => []
  | x :: rest => x :: filter (fun y => negb (String.eqb y x)) (first_seen rest)
  end.

(** [r] is the first element of [l] that is smallest under [key]:
    everything before it is strictly larger, nothing is smaller. *)
Definition first_smallest {A : Type} (key : A -> nat) (r : A) (l : list A) : Prop :=
  exists before after,
    l = (before ++ r :: after)%list
    /\ (forall c, In c before -> key r < key c)
    /\ (forall c, In c l -> key r <= key c).

Definition first_largest {A : Type} (key : A -> nat) (r : A) (l : list A) : Prop :=
  exists before after,
    l = (before ++ r :: after)%list
    /\ (forall c, In c before -> key c < key r)
    /\ (forall c, In c l -> key c <= key r).

(** A [Counter] lists the distinct elements in first-seen order, each with
    its number of occurrences. *)
Definition counter_items (l : list string) : list (string * nat) :=
  map (fun k => (k, count k l)) (first_seen l).

(** The length-6 result of a modality, if it has one. *)
Definition length6 (r : option string) : list string :=
  match r with
  | Some s => if PyStr.len s =? 6 then [s] else []
  | None => []
  end.

(** The log entry of one verification request. *)
Definition verify_post (code : string) (r : res response) : event :=
  EvPost CAPTCHA_VERIFY_URL (RawBody ("captcha=" ++ code)) r.

(** A verification request the portal answered without a rejection marker. *)
Definition accepted (r : res response) : bool :=
  match r with
  | Ok resp => accepted_body (text resp)
  | Raise _ => false
  end.

(** A verification request the portal answered with a rejection marker. *)
Definition rejected (r : res response) : bool :=
  match r with
  | Ok resp => negb (accepted_body (text resp))
  | Raise _ => false
  end.

Definition is_fetch (e : event) : bool :=
  match e with
  | EvGet url _ => PyStr.startswith CAPTCHA_URL url
  | _ => false
  end.

Definition is_accepted_submission (e : event) : bool :=
  match e with
  | EvPost url _ r => String.eqb url CAPTCHA_VERIFY_URL && accepted r
  | _ => false
  end.

(** No verification request in a stretch of the log went unrejected:
    each one was answered, with a rejection marker. *)
Definition submission_rejected (e : event) : bool :=
  match e with
  | EvPost url _ r => if String.eqb url CAPTCHA_VERIFY_URL then rejected r else true
  | _ => true
  end.

Definition all_submissions_rejected (evs : list event) : bool :=
  forallb submission_rejected evs.

(** Number of challenge fetches in a stretch of the log. *)
Definition fetches (evs : list event) : nat := length (filter is_fetch evs).

(** The codes submitted for verification in a stretch of the log. *)
Definition submitted (evs : list event) : list post_data :=
  flat_map (fun e => match e with
                     | EvPost url data _ =>
                         if String.eqb url CAPTCHA_VERIFY_URL then [data] else []
                     | _ => []
                     end) evs.

(** The log entries of a run of verification requests, each code with
    what came back. *)
Definition posts (tried : list (string * res response)) : list event :=
  map (fun cr => verify_post (fst cr) (snd cr)) tried.

(** Fetch and recognition of one attempt (captcha.py lines 292-296). *)
Definition recognise (P : Portal) : M P (option string * option string) :=
  captcha <- fetch_captcha P ;;
  audio_result <- solve_member P (solve_audio_captcha P) (audio captcha) ;;
  image_result <- solve_member P (solve_image_captcha P) (image captcha) ;;
  ret (audio_result, image_result).

(** Steps 1 and 2 of [search_causelist]: session, then captcha. *)
Definition session_and_captcha (P : Portal) : M P bool :=
  initialize_session P ;;; solve_and_verify P.

(** The errors of the transport layer: what [requests] raises. *)
Definition is_transport_error (e : exn) : bool :=
  match e with
  | RequestException _ | HTTPError _ | JSONDecodeError => true
  | _ => false
  end.

(** [raise_for_status] lets a response through. *)
Definition status_ok (r : response) : bool :=
  negb ((400 <=? status_code r) && (status_code r <? 600)).

(** [n] slashes. *)
Fixpoint slashes (n : nat) : string :=
  match n with
  | 0 => EmptyString
  | S k => String "/" (slashes k)
  end.

(** ** Rows as the parser sees them *)

Definition cells_of (row : node) : list node := find_all ["td"; "th"] row.
Definition cell_texts_of (row : node) : list string := map get_text_strip (cells_of row).
Definition full_text_of (row : node) : string :=
  PyStr.strip (PyStr.join " " (cell_texts_of row)).
Definition lower_text_of (row : node) : string := PyStr.lower (full_text_of row).
Definition first_cell (row : node) : string := hd "" (cell_texts_of row).

(** Rule 1: no cells, blank, or a "page ... of ..." footer. *)
Definition is_blank_or_pagination (row : node) : bool :=
  match cell_texts_of row with
  | [] => true
  | _ => negb (PyStr.truthy (full_text_of row))
         || (PyStr.contains "page" (lower_text_of row)
             && PyStr.contains "of" (lower_text_of row))
  end.

(** Rule 2. *)
Definition is_court_header (row : node) : bool :=
  PyStr.contains "court no" (lower_text_of row)
  || PyStr.contains "court room" (lower_text_of row).

(** Rule 3. *)
Definition is_judge_row (row : node) : bool :=
  PyStr.contains "hon'ble" (lower_text_of row)
  || PyStr.contains "justice" (lower_text_of row).

(** Rule 4. *)
Definition is_column_header (row : node) : bool :=
  any_in ["s.no"; "sr.no"; "case type"; "name of advocate"] (lower_text_of row).

(** Rule 5: at most two cells and the first not starting with a digit
    ([has_header_shape]), and no boilerplate in the text. *)
Definition has_header_shape (row : node) : bool :=
  (length (cell_texts_of row) <=? 2)
  && negb (PyStr.isdigit (PyStr.first1 (first_cell row))).

Definition is_boilerplate (row : node) : bool :=
  any_in ["high court"; "website"; "causelist"; "webex"; "cisco"; "note:"]
         (lower_text_of row).

Definition is_category_header (row : node) : bool :=
  has_header_shape row && negb (is_boilerplate row).

(** Rule 6: at least three cells, the first starting with a digit or
    containing "with" in any letter case. *)
Definition is_case_row (row : node) : bool :=
  (3 <=? length (cell_texts_of row))
  && PyStr.truthy (first_cell row)
  && (PyStr.isdigit (PyStr.first1 (first_cell row))
      || PyStr.contains "with" (PyStr.lower (first_cell row))).

(** The skip keywords of rule 7. *)
Definition has_skip_keyword (row : node) : bool :=
  any_in ["high court"; "website"; "="; "---"] (lower_text_of row).

(** A row none of rules 1 to 6 applies to. *)
Definition unclassified (row : node) : bool :=
  negb (is_blank_or_pagination row) && negb (is_court_header row)
  && negb (is_judge_row row) && negb (is_column_header row)
  && negb (is_category_header row) && negb (is_case_row row).

(** The entry a case row yields, as the specification words it. *)
Definition title_of (parts : list string) : string :=
  match parts with
  | [] => ""
  | [p] => p
  | p0 :: rest => p0 ++ " Vs " ++ PyStr.join " " rest
  end.

Definition case_entry_of (st : walk) (row : node) : CaseEntry :=
  mkCaseEntry
    (PyStr.strip (PyStr.replace "With" "" (first_cell row)))
    (nth 1 (cell_texts_of row) "")
    (title_of (br_parts (nth 2 (cells_of row) (Text ""))))
    (PyStr.join " | "
       (filter PyStr.truthy
          (map (fun c => PyStr.join ", " (br_parts c)) (skipn 3 (cells_of row)))))
    (current_court st) (current_judge st) (current_category st).

Definition with_category (st : walk) (c : string) : walk :=
  mkWalk (records st) (current_court st) (current_judge st) c.

(** The effect of one row, rule by rule in priority order. *)
Definition row_step (st : walk) (row : node) : walk :=
  if is_blank_or_pagination row then st
  else if is_court_header row then mkWalk (records st) (full_text_of row) "" ""
  else if is_judge_row row
  then mkWalk (records st) (current_court st)
              (PyStr.join " | " (filter PyStr.truthy (cell_texts_of row)))
              (current_category st)
  else if is_column_header row then st
  else if has_header_shape row
  then (if is_boilerplate row then st else with_category st (full_text_of row))
  else if is_case_row row
  then mkWalk (records st ++ [case_entry_of st row])%list
              (current_court st) (current_judge st) (current_category st)
  else if (3 <=? length (cell_texts_of row)) && negb (has_skip_keyword row)
  then with_category st (full_text_of row)
  else st.

(** [s[n:]]. *)
Fixpoint drop (n : nat) (s : string) : string :=
  match n, s with
  | S k, String _ s' => drop k s'
  | _, _ => s
  end.

(** Every [W] in [s] begins an occurrence of "With". *)
Fixpoint every_W_starts_With (s : string) : bool :=
  match s with
  | EmptyString => true
  | String c s' =>
      (negb (Ascii.eqb c "W") || PyStr.startswith "With" s) && every_W_starts_With s'
  end.

(** Rows and documents for the examples: cells holding one text each. *)
Definition td (s : string) : node := Tag "td" [Text s].
Definition tr (cells : list string) : node := Tag "tr" (map td cells).
Definition document (rows : list node) : node := Tag "[document]" [Tag "table" rows].

(** ** Groups as the specification words them *)

(** The entries of one court key, and of one category key, in input order. *)
Definition in_court (k : string) (entries : list CaseEntry) : list CaseEntry :=
  filter (fun e => String.eqb (court_key e) k) entries.

Definition in_category (c : string) (entries : list CaseEntry) : list CaseEntry :=
  filter (fun e => String.eqb (category_key e) c) entries.

Definition categories_spec (es : list CaseEntry) : list (string * list CaseEntry) :=
  map (fun c => (c, in_category c es)) (first_seen (map category_key es)).

Definition section_spec (k : string) (entries : list CaseEntry) : CourtSection :=
  let es := in_court k entries in
  mkCourtSection (match es with e :: _ => court_no e | [] => "" end)
                 (match es with e :: _ => judge_name e | [] => "" end)
                 (categories_spec es).

Definition group_spec (entries : list CaseEntry) : list (string * CourtSection) :=
  map (fun k => (k, section_spec k entries)) (first_seen (map court_key entries)).

(** All entries of a grouping, section by section, category by category. *)
Definition grouped_entries (sections : list (string * CourtSection)) : list CaseEntry :=
  concat (map (fun ks => concat (map snd (categories (snd ks)))) sections).

(** ** A parser for the examples

    It rejects the one input [<![foo]>] and hands every other input back
    as a document of one text node. *)
Definition rejecting_parser (html_content : string) : res node :=
  if String.eqb html_content "<![foo]>" then Raise ParserRejectedMarkup
  else Ok (Tag "[document]" [Text html_content]).

(** ** Scripted portals for the examples

    The world is a request counter.  Every GET answers 200 with a challenge
    and the page [page]; the search request is answered with [search_body];
    verification requests are rejected while fewer than [accept_after]
    requests were made; the recognisers return fixed candidates. *)
Definition scripted_portal (accept_after : nat) (search_body page : string)
           (audio_cands image_cands : option (list string)) : Portal :=
  mkPortal nat
    (fun url w =>
       (Ok (mkResponse 200 page (Some challenge)), S w))
    (fun url data w =>
       (Ok (mkResponse 200
              (if String.eqb url CAUSELIST_URL then search_body
               else if w <? accept_after then "SecCodeError" else "OK")
              None),
        S w))
    (fun w => ("0.42", w))
    (fun blob w => (audio_cands, w))
    (fun blob w => (image_cands, w)).

Definition fresh (P : Portal) (w : World P) : state P := mkState P w [].

(* ===================================================================== *)
(** ** More of [causelist/captcha.py]: transcripts to digit strings *)
(* ===================================================================== *)

(** [str.split()] with no argument: the maximal runs of non-whitespace
    characters.  [cur] is the run being read. *)
Fixpoint split_from (cur : string) (s : string) : list string :=
  match s with
  | EmptyString => if PyStr.truthy cur then [cur] else []
  | String c s' =>
      if PyStr.isspace c
      then (if PyStr.truthy cur then cur :: split_from EmptyString s'
            else split_from EmptyString s')
      else split_from (cur ++ String c EmptyString) s'
  end.

Definition split (s : string) : list string := split_from EmptyString s.

(** [word_map] of [_words_to_digits], in the order the dict literal lists
    its items. *)
Definition word_map : list (string * string) :=
  [ ("zero", "0"); ("oh", "0");
    ("one", "1"); ("won", "1");
    ("two", "2"); ("to", "2"); ("too", "2");
    ("three", "3"); ("tree", "3");
    ("four", "4"); ("for", "4");
    ("five", "5");
    ("six", "6"); ("sex", "6");
    ("seven", "7");
    ("eight", "8"); ("ate", "8");
    ("nine", "9") ].

(** [d.get(key)] as an option: [key in d] and [d[key]] in one. *)
Fixpoint dict_find (key : string) (d : list (string * string)) : option string :=
  match d with
  | [] => None
  | (k, v) :: rest => if String.eqb k key then Some v else dict_find key rest
  end.

(** [sorted(items, key=...)]: stable, ascending in the key.  An item goes
    before the first sorted item whose key is not smaller. *)
Fixpoint sorted_insert {A : Type} (key : A -> Z) (x : A) (l : list A) : list A :=
  match l with
  | [] => [x]
  | y :: rest =>
      if (key x <=? key y)%Z then x :: y :: rest else y :: sorted_insert key x rest
  end.

Definition sorted_by {A : Type} (key : A -> Z) (l : list A) : list A :=
  fold_right (sorted_insert key) [] l.

(** [sorted(word_map.items(), key=lambda x: -len(x[0]))]. *)
Definition words_longest_first : list (string * string) :=
  sorted_by (fun item => (- Z.of_nat (PyStr.len (fst item)))%Z) word_map.

(** The [for word, digit in ...] loop with its [break]: the first word, in
    that order, that the rest of the part starts with. *)
Fixpoint first_word_match (words : list (string * string)) (rest : string)
  : option (string * string) :=
  match words with
  | [] => None
  | (word, digit) :: more =>
      if PyStr.startswith word rest then Some (word, digit)
      else first_word_match more rest
  end.

(** The [while i < len(part)] loop.  [skip] counts the characters of the
    word just matched that [i += len(word)] still steps over. *)
Fixpoint scan_part (skip : nat) (part : string) : string :=
  match part with
  | EmptyString => EmptyString
  | String c rest =>
      match skip with
      | S k => scan_part k rest
      | O =>
          match first_word_match words_longest_first part with
          | Some (word, digit) => digit ++ scan_part (PyStr.len word - 1) rest
          | None =>
              if PyStr.isdigit_char c then String c (scan_part 0 rest)
              else scan_part 0 rest
          end
      end
  end.

(** One iteration of [for part in parts]. *)
Definition convert_part (part : string) : string :=
  match dict_find part word_map with
  | Some digit => digit
  | None => if PyStr.isdigit part then part else scan_part 0 part
  end.

Definition _words_to_digits (text : string) : string :=
  PyStr.join "" (map convert_part (split (PyStr.strip (PyStr.lower text)))).

(** What [recognize_google(..., show_all=True)] returns, as far as
    [_extract_digits_from_result] looks at it: [None] for a falsy result or
    one without the key "alternative", else the alternatives, each with its
    transcript if it has one. *)
Definition speech_result : Type := option (list (option string)).

(** One iteration of [for alt in result["alternative"]]. *)
Definition alternative_candidates (alt : option string) : list string :=
  let transcript := match alt with Some t => t | None => EmptyString end in
  if negb (PyStr.truthy transcript) then []
  else
    let cleaned := PyStr.replace " " "" (PyStr.strip transcript) in
    let converted := _words_to_digits transcript in
    ((if PyStr.isdigit cleaned then [cleaned] else [])
     ++ (if PyStr.truthy converted && PyStr.isdigit converted then [converted] else []))%list.

Definition _extract_digits_from_result (result : speech_result) : list string :=
  match result with
  | None => []
  | Some alternatives => flat_map alternative_candidates alternatives
  end.

(** [s.replace(" ", "")], seen as dropping every space. *)
Fixpoint without_spaces (s : string) : string :=
  match s with
  | EmptyString => EmptyString
  | String c s' => if Ascii.eqb c " " then without_spaces s' else String c (without_spaces s')
  end.

(** Every character of [s] is a digit or a space. *)
Fixpoint digits_or_spaces (s : string) : bool :=
  match s with
  | EmptyString => true
  | String c s' => (PyStr.isdigit_char c || Ascii.eqb c " ") && digits_or_spaces s'
  end.

(** No character of [s] is whitespace. *)
Fixpoint no_space (s : string) : bool :=
  match s with
  | EmptyString => true
  | String c s' => negb (PyStr.isspace c) && no_space s'
  end.

(** A token [_words_to_digits] converts as a whole: a key of [word_map] or
    a digit string; and the digits it stands for. *)
Definition is_token (t : string) : bool :=
  match dict_find t word_map with
  | Some _ => true
  | None => PyStr.isdigit t
  end.

Definition token_digits (t : string) : string :=
  match dict_find t word_map with
  | Some digit => digit
  | None => t
  end.

(** ** Vocabulary for the traffic of a call *)

(** A verification request for a code of six characters. *)
Definition is_code_submission (e : event) : bool :=
  match e with
  | EvPost url (RawBody body) _ =>
      String.eqb url CAPTCHA_VERIFY_URL
      && PyStr.startswith "captcha=" body && (PyStr.len body =? 14)
  | _ => false
  end.

Definition is_sleep (e : event) : bool :=
  match e with
  | EvSleep ms => ms =? CAPTCHA_RETRY_DELAY
  | _ => false
  end.

(** What [solve_and_verify] may do: fetch a challenge, submit a six-character
    code, sleep the retry delay. *)
Definition captcha_event (e : event) : bool :=
  is_fetch e || is_code_submission e || is_sleep e.

Definition sleeps (evs : list event) : nat := length (filter is_sleep evs).

(** A search request. *)
Definition is_search_post (e : event) : bool :=
  match e with
  | EvPost url _ _ => String.eqb url CAUSELIST_URL
  | _ => false
  end.

(** The request whose outcome makes the code raise [e]: the request itself
    raised [e], or it was a GET answered with a 4xx/5xx status or, for a
    challenge, with a body that is not JSON ([resp.json()] raises) or that
    is JSON but not an object ([data.get] raises). *)
Definition caused_by (ev : event) (e : exn) : Prop :=
  match ev with
  | EvGet url r =>
      r = Raise e
      \/ exists resp,
           r = Ok resp
           /\ ((status_ok resp = false /\ e = HTTPError (status_code resp))
               \/ (status_ok resp = true /\ PyStr.startswith CAPTCHA_URL url = true
                   /\ json resp = None /\ e = JSONDecodeError)
               \/ (status_ok resp = true /\ PyStr.startswith CAPTCHA_URL url = true
                   /\ json resp = Some JsonNotObject /\ e = AttributeError))
  | EvPost _ _ r => r = Raise e
  | EvSleep _ => False
  end.

(** A portal whose verification endpoint is down: every GET answers 200
    with a challenge, every POST answers 500 with an empty body. *)
Definition portal_with_failing_posts (audio_cands image_cands : option (list string))
  : Portal :=
  mkPortal nat
    (fun url w =>
       (Ok (mkResponse 200 EmptyString (Some challenge)), S w))
    (fun url data w => (Ok (mkResponse 500 EmptyString None), S w))
    (fun w => ("0.42", w))
    (fun blob w => (audio_cands, w))
    (fun blob w => (image_cands, w)).

(** ** Vocabulary for the parser's output *)

(** A string without leading whitespace, without trailing whitespace. *)
Definition first_ok (s : string) : bool :=
  match s with
  | EmptyString => true
  | String c _ => negb (PyStr.isspace c)
  end.

Fixpoint last_ok (s : string) : bool :=
  match s with
  | EmptyString => true
  | String c EmptyString => negb (PyStr.isspace c)
  | String _ rest => last_ok rest
  end.

Definition trimmed (s : string) : bool := first_ok s && last_ok s.

(** The rows the parser walks, in the order it walks them: for each table
    of the document, in document order, each row below it. *)
Definition all_rows (soup : node) : list node :=
  flat_map (find_all ["tr"]) (find_all ["table"] soup).

(** A row that yields an entry: rules 1 to 4 do not apply and it is a case
    row. *)
Definition yields_case (row : node) : bool :=
  negb (is_blank_or_pagination row) && negb (is_court_header row)
  && negb (is_judge_row row) && negb (is_column_header row)
  && is_case_row row.

(** What an entry takes from its own row. *)
Definition case_content (e : CaseEntry) : string * string * string * string :=
  (serial_no e, case_type_no e, title e, advocates e).

(** A text that rule 2 takes for a court header; one that none of rules 1
    to 4 takes. *)
Definition court_text (c : string) : bool :=
  PyStr.contains "court no" (PyStr.lower c) || PyStr.contains "court room" (PyStr.lower c).

Definition plain_text (c : string) : bool :=
  negb (PyStr.contains "page" (PyStr.lower c) && PyStr.contains "of" (PyStr.lower c))
  && negb (court_text c)
  && negb (PyStr.contains "hon'ble" (PyStr.lower c) || PyStr.contains "justice" (PyStr.lower c))
  && negb (any_in ["s.no"; "sr.no"; "case type"; "name of advocate"] (PyStr.lower c)).

(** Every text field of an entry is trimmed. *)
Definition entry_trimmed (e : CaseEntry) : bool :=
  trimmed (serial_no e) && trimmed (case_type_no e) && trimmed (title e)
  && trimmed (advocates e) && trimmed (court_no e) && trimmed (judge_name e)
  && trimmed (category e).

(** The court of an entry is empty or a court header; its category is empty
    or a text none of rules 1 to 4 takes. *)
Definition entry_stamps_ok (e : CaseEntry) : bool :=
  (negb (PyStr.truthy (court_no e)) || court_text (court_no e))
  && (negb (PyStr.truthy (category e)) || plain_text (category e)).

(* ===================================================================== *)
(** ** [parse_and_display] of [causelist/parser.py] *)
(* ===================================================================== *)

(** Built-in errors of the code below, and a result that carries them. *)
Module Builtin.

Inductive error : Type := ValueError | IndexError | OverflowError.

Inductive outcome (A : Type) : Type :=
| Returns (a : A)
| Raises (e : error).

Arguments Returns {A} a.
Arguments Raises {A} e.

Definition and_then {A B : Type} (m : outcome A) (k : A -> outcome B) : outcome B :=
  match m with
  | Returns a => k a
  | Raises e => Raises e
  end.

End Builtin.

Import Builtin(Returns, Raises, and_then).

(** The line feed. *)
Definition LF : string := String (ascii_of_nat 10) "".

(** [node.get_text(separator=sep, strip=True)]. *)
Definition get_text_sep_strip (sep : string) (n : node) : string :=
  PyStr.join sep (filter PyStr.truthy (map PyStr.strip (strings_of n))).

(** [s[:n]]. *)
Fixpoint str_take (n : nat) (s : string) : string :=
  match n, s with
  | S m, String c rest => String c (str_take m rest)
  | _, _ => ""
  end.

(** [c * n] for a one-character string [c]. *)
Fixpoint str_repeat (c : ascii) (n : nat) : string :=
  match n with
  | 0 => ""
  | S m => String c (str_repeat c m)
  end.

(** [s.ljust(width)]. *)
Definition ljust (width : nat) (s : string) : string :=
  if width <=? PyStr.len s then s else s ++ str_repeat " "%char (width - PyStr.len s).

(** [max(xs)]: [ValueError] on an empty sequence. *)
Definition py_max (xs : list nat) : Builtin.outcome nat :=
  match xs with
  | [] => Raises Builtin.ValueError
  | x :: rest => Returns (fold_left Nat.max rest x)
  end.

(** [l[i]] and [l[i] = v]: [IndexError] out of range. *)
Definition list_get (l : list nat) (i : nat) : Builtin.outcome nat :=
  match nth_error l i with
  | Some v => Returns v
  | None => Raises Builtin.IndexError
  end.

Fixpoint list_set (l : list nat) (i v : nat) : Builtin.outcome (list nat) :=
  match l, i with
  | [], _ => Raises Builtin.IndexError
  | _ :: rest, 0 => Returns (v :: rest)
  | x :: rest, S j => and_then (list_set rest j v) (fun r => Returns (x :: r))
  end.

(** [enumerate(l)], counting from [start]. *)
Definition enumerate_from {A : Type} (start : nat) (l : list A) : list (nat * A) :=
  combine (seq start (length l)) l.

Definition enumerate {A : Type} (l : list A) : list (nat * A) := enumerate_from 0 l.

(** [col_widths[i] = max(col_widths[i], min(len(cell), 50))]. *)
Definition widen (col_widths : list nat) (i : nat) (cell : string) : Builtin.outcome (list nat) :=
  and_then (list_get col_widths i) (fun old =>
  list_set col_widths i (Nat.max old (Nat.min (PyStr.len cell) 50))).

(** The inner loop over [enumerate(row)], and the loop over the rows. *)
Fixpoint widen_cells (col_widths : list nat) (cells : list (nat * string))
  : Builtin.outcome (list nat) :=
  match cells with
  | [] => Returns col_widths
  | (i, cell) :: rest => and_then (widen col_widths i cell) (fun w => widen_cells w rest)
  end.

Fixpoint widen_rows (col_widths : list nat) (all_cells : list (list string))
  : Builtin.outcome (list nat) :=
  match all_cells with
  | [] => Returns col_widths
  | row :: rest =>
      and_then (widen_cells col_widths (enumerate row)) (fun w => widen_rows w rest)
  end.

(** Lines 60 to 64: the width of every column. *)
Definition col_widths_of (all_cells : list (list string)) : Builtin.outcome (list nat) :=
  and_then (py_max (map (@length string) all_cells)) (fun max_cols =>
  widen_rows (repeat 0 max_cols) all_cells).

(** Lines 70 to 73: what is shown for one cell. *)
Definition display_of (cell : string) : string :=
  if 50 <? PyStr.len cell then str_take 50 cell ++ "..." else cell.

Definition width_at (col_widths : list nat) (i : nat) : nat :=
  if i <? length col_widths then nth i col_widths 0 else 20.

Definition format_cell (col_widths : list nat) (ic : nat * string) : string :=
  ljust (width_at col_widths (fst ic)) (display_of (snd ic)).

Definition formatted (col_widths : list nat) (row : list string) : list string :=
  map (format_cell col_widths) (enumerate row).

Definition format_row (col_widths : list nat) (row : list string) : string :=
  PyStr.join " | " (formatted col_widths row).

(** One pass of the loop over the tables: the lines it prints. *)
Definition display_table (table : node) : Builtin.outcome (list string) :=
  let rows := find_all ["tr"] table in
  match rows with
  | [] => Returns []
  | _ :: _ =>
      let all_cells := map cell_texts_of rows in
      match all_cells with
      | [] => Returns []
      | _ :: _ =>
          and_then (col_widths_of all_cells) (fun col_widths =>
          Returns (map (format_row col_widths) all_cells ++ [str_repeat "-"%char 80])%list)
      end
  end.

(** The loop over the tables: what was printed, one string per [print],
    and the error that ended it, if any. *)
Fixpoint display_tables (tables : list node) (printed : list string)
  : list string * option Builtin.error :=
  match tables with
  | [] => (printed, None)
  | table :: rest =>
      match display_table table with
      | Raises e => (printed, Some e)
      | Returns lines => display_tables rest (printed ++ lines)%list
      end
  end.

Definition parse_and_display_soup (soup : node) : list string * option Builtin.error :=
  let tables := find_all ["table"] soup in
  match tables with
  | [] =>
      let text := get_text_sep_strip LF soup in
      if PyStr.truthy text then ([text], None)
      else (["No displayable content found in response."], None)
  | _ :: _ => display_tables tables []
  end.

(** How [parse_and_display] can end early: with what [BeautifulSoup]
    raised, or with an error of its own statements. *)
Inductive display_error : Type :=
| FromParser (e : exn)
| FromDisplay (e : Builtin.error).

(** [BeautifulSoup(html_content, "html.parser")] is a parameter, as for
    [parse_to_records]; the call is the first statement and is not
    guarded. *)
Definition parse_and_display (BeautifulSoup : string -> res node) (html_content : string)
  : list string * option display_error :=
  match BeautifulSoup html_content with
  | Raise e => ([], Some (FromParser e))
  | Ok soup =>
      (fst (parse_and_display_soup soup),
       option_map FromDisplay (snd (parse_and_display_soup soup)))
  end.

(** The rows a table prints: one line each, and the rule below them. *)
Definition lines_of_table (table : node) : nat :=
  match find_all ["tr"] table with
  | [] => 0
  | rows => S (length rows)
  end.

(** The widest text of column [i], capped at 50. *)
Definition widest (all_cells : list (list string)) (i : nat) : nat :=
  list_max (map (fun row => Nat.min (PyStr.len (nth i row "")) 50) all_cells).

(* ===================================================================== *)
(** ** [causelist/date_utils.py] *)
(* ===================================================================== *)

(** A [datetime.date] is kept as its proleptic Gregorian ordinal, which is
    what its arithmetic works on: day 1 is Monday 0001-01-01 and
    [date.max], 9999-12-31, is day 3652059. *)
Definition date : Type := Z.

Definition MAXORDINAL : Z := 3652059.

Definition valid_date (d : date) : Prop := (1 <= d <= MAXORDINAL)%Z.

(** [d.weekday()]: Monday is 0, Sunday is 6. *)
Definition weekday (d : date) : Z := ((d + 6) mod 7)%Z.

(** [d + timedelta(days=n)]: [OverflowError] outside the range of dates. *)
Definition add_days (d : date) (n : Z) : Builtin.outcome date :=
  let o := (d + n)%Z in
  if ((0 <? o) && (o <=? MAXORDINAL))%Z then Returns o
  else Raises Builtin.OverflowError.

(** The number of steps the loop below has left. *)
Definition days_to_monday (d : date) : nat := Z.to_nat ((7 - weekday d) mod 7)%Z.

Definition inspect {A : Type} (a : A) : {b : A | a = b} := exist _ a eq_refl.

(** [while d.weekday() >= 5: d += timedelta(days=1)]. *)
Equations skip_weekend (d : date) : Builtin.outcome date by wf (days_to_monday d) lt :=
  skip_weekend d with inspect (5 <=? weekday d)%Z := {
    | exist _ true Hweekend with inspect (add_days d 1) := {
        | exist _ (Returns next) Hnext => skip_weekend next
        | exist _ (Raises e) Hend => Raises e }
    | exist _ false Hworkday => Returns d }.
Next Obligation.
  unfold add_days, days_to_monday, weekday in *.
  destruct (((0 <? d + 1) && (d + 1 <=? MAXORDINAL))%Z); [|discriminate].
  injection Hnext as <-. apply Z.leb_le in Hweekend.
  apply Z2Nat.inj_lt; try (apply Z.mod_pos_bound; lia).
  assert (Hm := Z.mod_pos_bound (d + 6) 7 ltac:(lia)).
  replace (d + 1 + 6)%Z with ((d + 6) + 1)%Z by lia.
  rewrite (Z.add_mod (d + 6) 1 7) by lia.
  assert (C : ((d + 6) mod 7 = 5 \/ (d + 6) mod 7 = 6)%Z) by lia.
  destruct C as [-> | ->]; reflexivity.
Qed.

(** [next_working_day(from_date)]; [today] is what [date.today()] returns.
    A date is never falsy, so [from_date or date.today()] is [from_date]
    whenever one is given. *)
Definition next_working_day (today : date) (from_date : option date)
  : Builtin.outcome date :=
  let d := match from_date with Some given => given | None => today end in
  and_then (add_days d 1) skip_weekend.

(* ===================================================================== *)
(** ** [bot/formatter.py] *)
(* ===================================================================== *)

(** [TELEGRAM_MAX_MESSAGE_LENGTH] of [bot/config.py] and
    [CAUSELIST_TYPE_NAMES] of [causelist/config.py]. *)
Definition TELEGRAM_MAX_MESSAGE_LENGTH : nat := 4096.

Definition CAUSELIST_TYPE_NAMES : list (string * string) :=
  [("D", "Daily"); ("S", "Supplementary"); ("W", "Weekly"); ("L", "Regular")].

(** [str(n)] for a length. *)
Definition str_of_nat (n : nat) : string := NilEmpty.string_of_uint (Nat.to_uint n).

(** A string with a character that is not white space. *)
Fixpoint has_ink (s : string) : bool :=
  match s with
  | EmptyString => false
  | String c rest => negb (PyStr.isspace c) || has_ink rest
  end.

Section Formatter.

(** [html.escape] of the standard library. *)
Variable escape : string -> string.

Definition _esc (text : string) : string := escape text.

Definition _format_case (entry : CaseEntry) : string :=
  let lines := ["<b>" ++ _esc (serial_no entry) ++ ".</b> " ++ _esc (case_type_no entry)] in
  let lines :=
    if PyStr.truthy (title entry) then
      let shown :=
        if 300 <? PyStr.len (title entry) then str_take 300 (title entry) ++ "..."
        else title entry in
      (lines ++ [("  " ++ _esc shown)%string])%list
    else lines in
  let lines :=
    if PyStr.truthy (advocates entry)
    then (lines ++ [("  <i>" ++ _esc (advocates entry) ++ "</i>")%string])%list
    else lines in
  PyStr.join LF lines.

Definition rule30 : string := str_repeat "="%char 30.

(** One pass of the loop over [section.categories.items()]. *)
Definition category_parts (parts : list string) (item : string * list CaseEntry)
  : list string :=
  let parts :=
    if PyStr.truthy (fst item) && negb (String.eqb (fst item) "General")
    then (parts ++ [(LF ++ "<b>" ++ _esc (fst item) ++ "</b>")%string])%list
    else parts in
  let parts := (parts ++ [""])%list in
  fold_left (fun parts case => (parts ++ [_format_case case; ""])%list) (snd item) parts.

Definition _format_court_section (section : CourtSection) : string :=
  let parts := [LF ++ rule30; "<b>" ++ _esc (section_court_no section) ++ "</b>"] in
  let parts :=
    if PyStr.truthy (section_judge_name section)
    then (parts ++ [("<i>" ++ _esc (section_judge_name section) ++ "</i>")%string])%list
    else parts in
  let parts := (parts ++ [rule30])%list in
  let parts := fold_left category_parts (categories section) parts in
  PyStr.join LF parts.

(** [if current.strip(): messages.append(current)]. *)
Definition flush (messages : list string) (current : string) : list string :=
  if PyStr.truthy (PyStr.strip current) then (messages ++ [current])%list else messages.

(** The header every message of [_split_large_section] starts with. *)
Definition section_header (section : CourtSection) : string :=
  let section_header := "<b>" ++ _esc (section_court_no section) ++ "</b>" ++ LF in
  if PyStr.truthy (section_judge_name section)
  then section_header ++ "<i>" ++ _esc (section_judge_name section) ++ "</i>" ++ LF
  else section_header.

Definition contd_header (section : CourtSection) (type_name : string) : string :=
  "<b>" ++ _esc type_name ++ " (contd.)</b>" ++ LF ++ section_header section.

Definition case_text (case : CaseEntry) : string := _format_case case ++ LF ++ LF.

(** One pass of the inner loop of [_split_large_section]; [start] is the
    header a new message starts with. *)
Definition split_step (start : string) (acc : list string * string) (case : CaseEntry)
  : list string * string :=
  let messages := fst acc in
  let current := snd acc in
  if TELEGRAM_MAX_MESSAGE_LENGTH <? PyStr.len current + PyStr.len (case_text case)
  then ((messages ++ [current])%list, start ++ case_text case)
  else (messages, current ++ case_text case).

Definition split_loop (start : string) (groups : list (list CaseEntry))
           (acc : list string * string) : list string * string :=
  fold_left (fun acc cases => fold_left (split_step start) cases acc) groups acc.

Definition _split_large_section (section : CourtSection) (type_name : string)
  : list string :=
  let start := contd_header section type_name in
  let acc := split_loop start (map snd (categories section)) ([], start) in
  flush (fst acc) (snd acc).

Definition list_contd (type_name : string) : string :=
  "<b>" ++ _esc type_name ++ " Cause List (contd.)</b>" ++ LF.

(** One pass of the loop over the sections. *)
Definition format_step (type_name : string) (acc : list string * string)
           (section : CourtSection) : list string * string :=
  let messages := fst acc in
  let current := snd acc in
  let section_text := _format_court_section section in
  if TELEGRAM_MAX_MESSAGE_LENGTH <? PyStr.len current + PyStr.len section_text + 2 then
    let messages := flush messages current in
    if TELEGRAM_MAX_MESSAGE_LENGTH <? PyStr.len section_text
    then ((messages ++ _split_large_section section type_name)%list, "")
    else (messages, list_contd type_name ++ section_text)
  else (messages, current ++ LF ++ section_text).

Definition no_cases_message (type_name target_date lawyer_name : string) : string :=
  "No cases found in <b>" ++ _esc type_name ++ "</b> cause list "
  ++ "for <b>" ++ _esc target_date ++ "</b> "
  ++ "(Advocate: <b>" ++ _esc lawyer_name ++ "</b>).".

Definition message_header (type_name target_date lawyer_name : string) (found : nat)
  : string :=
  "<b>Rajasthan HC - " ++ _esc type_name ++ " Cause List</b>" ++ LF
  ++ "Date: <b>" ++ _esc target_date ++ "</b>" ++ LF
  ++ "Advocate: <b>" ++ _esc lawyer_name ++ "</b>" ++ LF
  ++ "Cases found: <b>" ++ str_of_nat found ++ "</b>".

Definition format_sections (type_name header : string) (sections : list CourtSection)
  : list string :=
  let acc := fold_left (format_step type_name) sections ([], header) in
  flush (fst acc) (snd acc).

Definition format_causelist_message
           (entries : list CaseEntry) (cl_type target_date lawyer_name : string)
  : res (list string) :=
  let type_name := dict_get cl_type cl_type CAUSELIST_TYPE_NAMES in
  match entries with
  | [] => Ok [no_cases_message type_name target_date lawyer_name]
  | _ :: _ =>
      sections <~ group_by_court entries ;;
      Ok (format_sections type_name
            (message_header type_name target_date lawyer_name (length entries))
            sections)
  end.

(** How long a message may get.  It stays below the limit, or it is the
    bare header, or a continuation line with one section that fits the
    limit by itself, or one of the messages a section that does not fit is
    split into. *)
Definition size_accounted (type_name header : string) (sections : list CourtSection)
           (m : string) : Prop :=
  PyStr.len m < TELEGRAM_MAX_MESSAGE_LENGTH
  \/ m = header
  \/ (exists section,
        In section sections
        /\ PyStr.len (_format_court_section section) <= TELEGRAM_MAX_MESSAGE_LENGTH
        /\ m = list_contd type_name ++ _format_court_section section)
  \/ (exists section,
        In section sections
        /\ TELEGRAM_MAX_MESSAGE_LENGTH < PyStr.len (_format_court_section section)
        /\ In m (_split_large_section section type_name)).

(** The texts of a run of cases, one after the other, and the message
    of [_split_large_section] that holds them. *)
Definition cases_text (cases : list CaseEntry) : string :=
  PyStr.join "" (map case_text cases).

Definition split_message (start : string) (cases : list CaseEntry) : string :=
  start ++ cases_text cases.

(** The cases one message of [_split_large_section] may hold: at most
    one, or several when the message is within the limit. *)
Definition group_accounted (start : string) (group : list CaseEntry) : Prop :=
  length group <= 1
  \/ PyStr.len (split_message start group) <= TELEGRAM_MAX_MESSAGE_LENGTH.

(** What the loop over the sections keeps true of the messages so far
    and of the message in progress. *)
Definition loop_invariant (type_name header : string) (all : list CourtSection)
           (acc : list string * string) : Prop :=
  (forall m, In m (fst acc) ->
     has_ink m = true /\ size_accounted type_name header all m)
  /\ (snd acc = ""
      \/ (has_ink (snd acc) = true
          /\ size_accounted type_name header all (snd acc)))
  /\ ((fst acc = [] /\ exists t, snd acc = header ++ t)
      \/ exists first rest t, fst acc = first :: rest /\ first = header ++ t).

End Formatter.


(* ===================================================================== *)
(** ** [_get_date_options] of [bot/handlers.py] *)
(* ===================================================================== *)

Section DateOptions.

(** [d.strftime(format)] of the standard library. *)
Variable strftime : date -> string -> string.

(** [format_date_for_api] of [causelist/date_utils.py]. *)
Definition format_date_for_api (d : date) : string := strftime d "%d/%m/%Y".

Definition today_option (today : date) : string * string :=
  ("Today (" ++ strftime today "%d/%m/%Y" ++ ")", format_date_for_api today).

Definition date_option (d : date) : string * string :=
  (strftime d "%A" ++ " (" ++ strftime d "%d/%m/%Y" ++ ")", format_date_for_api d).

(** The loop [for _ in range(n)]; [today] is what [date.today()] returns. *)
Fixpoint following_options (n : nat) (today d : date) (options : list (string * string))
  : Builtin.outcome (list (string * string)) :=
  match n with
  | 0 => Returns options
  | S k =>
      and_then (next_working_day today (Some d)) (fun d =>
      following_options k today d (options ++ [date_option d])%list)
  end.

Definition _get_date_options (today : date) : Builtin.outcome (list (string * string)) :=
  following_options 2 today today [today_option today].

End DateOptions.

(** Entries of two courts, for the examples. *)
Definition sample_entries : list CaseEntry :=
  [mkCaseEntry "1" "CW 1/24" "A Vs B" "X, Y" "Court No : 1" "HON J" "FOR ADMISSION";
   mkCaseEntry "2" "CW 2/24" "" "" "Court No : 1" "HON K" "";
   mkCaseEntry "3" "CW 3/24" "C Vs D" "Z" "" "" "General"].

(* ===================================================================== *)
(** ** [parse_date_input] and [resolve_date] of [causelist/date_utils.py] *)
(* ===================================================================== *)

Section DateArguments.

(** [d.strftime(format)], and [datetime.strptime(s, format).date()] with
    [None] for its [ValueError]. *)
Variable strftime : date -> string -> string.
Variable strptime : string -> string -> option date.

(** The loop over the three formats: the first that parses wins. *)
Fixpoint parse_with (formats : list string) (date_str : string) : Builtin.outcome date :=
  match formats with
  | [] => Raises Builtin.ValueError
  | fmt :: rest =>
      match strptime date_str fmt with
      | Some d => Returns d
      | None => parse_with rest date_str
      end
  end.

Definition parse_date_input (date_str : string) : Builtin.outcome date :=
  parse_with ["%d/%m/%Y"; "%d-%m-%Y"; "%Y-%m-%d"] date_str.

(** [resolve_date(date_arg)]; [today] is what [date.today()] returns. *)
Definition resolve_date (today : date) (date_arg : option string) : Builtin.outcome string :=
  match date_arg with
  | None =>
      and_then (next_working_day today None) (fun d =>
      Returns (format_date_for_api strftime d))
  | Some date_arg =>
      let lower := PyStr.lower date_arg in
      if String.eqb lower "today" then Returns (format_date_for_api strftime today)
      else if String.eqb lower "tomorrow" then
        and_then (add_days today 1) (fun d => Returns (format_date_for_api strftime d))
      else
        and_then (parse_date_input date_arg) (fun d =>
        Returns (format_date_for_api strftime d))
  end.

End DateArguments.

(* ===================================================================== *)
(** ** The recognition passes of [causelist/captcha.py] *)
(* ===================================================================== *)

(** What one [recognize_google] call does: it returns a result, raises one
    of the two errors the loop skips, or raises anything else. *)
Inductive heard : Type :=
| Heard (result : speech_result)
| UnknownValueError
| RequestError
| OtherError.

Section Recognition.

(** The audio backend: the recording of each variant, [None] when
    anything in preparing it raises, and the speech service. *)
Variable Audio : Type.
Variable recorded : string -> option Audio.
Variable recognize_google : Audio -> string -> heard.

(** The loop over the languages (captcha.py lines 158-170); [None] when
    an exception leaves it. *)
Fixpoint languages_loop (audio_data : Audio) (langs : list string)
         (all_candidates : list string) : option (list string) :=
  match langs with
  | [] => Some all_candidates
  | lang :: rest =>
      match recognize_google audio_data lang with
      | Heard result =>
          languages_loop audio_data rest
                         (all_candidates ++ _extract_digits_from_result result)%list
      | UnknownValueError | RequestError => languages_loop audio_data rest all_candidates
      | OtherError => None
      end
  end.

(** The loop over the variants (lines 153-170). *)
Fixpoint variants_loop (variants : list string) (all_candidates : list string)
  : option (list string) :=
  match variants with
  | [] => Some all_candidates
  | variant_name :: rest =>
      match recorded variant_name with
      | None => None
      | Some audio_data =>
          match languages_loop audio_data ["en-IN"; "en-US"] all_candidates with
          | None => None
          | Some all_candidates => variants_loop rest all_candidates
          end
      end
  end.

Definition audio_candidates : option (list string) :=
  variants_loop ["padded"; "slowed"] [].

(** [solve_audio_captcha] once its imports succeeded: the outer [except]
    turns every exception into [None]. *)
Definition audio_result : option string :=
  match audio_candidates with
  | Some all_candidates => select_result all_candidates
  | None => None
  end.

(** The candidates one call contributes. *)
Definition call_candidates (h : heard) : list string :=
  match h with
  | Heard result => _extract_digits_from_result result
  | _ => []
  end.

(** The image backend: the preprocessed images, [None] when decoding or a
    filter raises, and the OCR call, [None] when it raises. *)
Variable Image : Type.
Variable preprocessed : option (list (string * Image)).
Variable image_to_string : Image -> string -> option string.

Definition configs : list string :=
  ["--psm 7 -c tessedit_char_whitelist=0123456789";
   "--psm 8 -c tessedit_char_whitelist=0123456789";
   "--psm 13 -c tessedit_char_whitelist=0123456789"].

(** [text.strip().replace(" ", "").replace("\n", "")]. *)
Definition cleaned_text (text : string) : string :=
  PyStr.replace LF "" (PyStr.replace " " "" (PyStr.strip text)).

(** The loop over the configurations (lines 246-251). *)
Fixpoint configs_loop (processed_img : Image) (cfgs : list string)
         (all_candidates : list string) : option (list string) :=
  match cfgs with
  | [] => Some all_candidates
  | config :: rest =>
      match image_to_string processed_img config with
      | None => None
      | Some text =>
          let cleaned := cleaned_text text in
          configs_loop processed_img rest
            (if PyStr.truthy cleaned && PyStr.isdigit cleaned
             then (all_candidates ++ [cleaned])%list else all_candidates)
      end
  end.

(** The loop over the pipelines (lines 245-251). *)
Fixpoint pipelines_loop (pipelines : list (string * Image)) (all_candidates : list string)
  : option (list string) :=
  match pipelines with
  | [] => Some all_candidates
  | (pipe_name, processed_img) :: rest =>
      match configs_loop processed_img configs all_candidates with
      | None => None
      | Some all_candidates => pipelines_loop rest all_candidates
      end
  end.

Definition image_candidates : option (list string) :=
  match preprocessed with
  | None => None
  | Some pipelines => pipelines_loop pipelines []
  end.

Definition image_result : option string :=
  match image_candidates with
  | Some all_candidates => select_result all_candidates
  | None => None
  end.

End Recognition.

(** A verification body that carries six digits. *)
Definition six_digit_body (data : post_data) : Prop :=
  exists code,
    data = RawBody ("captcha=" ++ code)
    /\ PyStr.isdigit code = true /\ PyStr.len code = 6.

(** A recogniser that only proposes digit strings. *)
Definition digit_tracks (tracks : option (list string)) : Prop :=
  match tracks with
  | Some all_candidates => forallb PyStr.isdigit all_candidates = true
  | None => True
  end.

(** ** Vocabulary for the revised statements *)

(** A challenge fetch that succeeded: the request returned, with a status
    that [raise_for_status] lets through and a JSON object as body.  Any
    other event counts as fine. *)
Definition fetch_succeeded (ev : event) : bool :=
  match ev with
  | EvGet url r =>
      negb (PyStr.startswith CAPTCHA_URL url)
      || match r with
         | Ok resp =>
             status_ok resp
             && match json resp with
                | Some (JsonObject _) => true
                | _ => false
                end
         | Raise _ => false
         end
  | _ => true
  end.

(** A portal whose verification endpoint times out: every GET answers 200
    with a challenge, every POST raises. *)
Definition portal_with_raising_posts : Portal :=
  mkPortal nat
    (fun url w => (Ok (mkResponse 200 EmptyString (Some challenge)), S w))
    (fun url data w => (Raise (RequestException "timeout"), S w))
    (fun w => ("0.42", w))
    (fun blob w => (Some ["123456"], w))
    (fun blob w => (None, w)).

(** A portal that accepts the first code and answers the search with
    [search_body], but has no document: a GET below the cause-list page
    answers 200 with a challenge, any other GET answers 404. *)
Definition portal_with_missing_document (search_body : string) : Portal :=
  mkPortal nat
    (fun url w =>
       (Ok (if PyStr.startswith CAUSELIST_PAGE url
            then mkResponse 200 EmptyString (Some challenge)
            else mkResponse 404 "Not Found" None),
        S w))
    (fun url data w =>
       (Ok (mkResponse 200
              (if String.eqb url CAUSELIST_URL then search_body else "OK") None),
        S w))
    (fun w => ("0.42", w))
    (fun blob w => (Some ["123456"], w))
    (fun blob w => (None, w)).

(** A portal whose challenge has the decoded body [body]: every GET
    answers 200 with it. *)
Definition portal_with_challenge (body : option json_value) : Portal :=
  mkPortal nat
    (fun url w => (Ok (mkResponse 200 EmptyString body), S w))
    (fun url data w => (Ok (mkResponse 200 "OK" None), S w))
    (fun w => ("0.42", w))
    (fun blob w => (Some ["123456"], w))
    (fun blob w => (None, w)).

(* ===================================================================== *)
(** * Properties *)
(* ===================================================================== *)

(** ** Lists, [max], [min] and [Counter] *)

Lemma min_from_first_smallest {A : Type} (key : A -> nat) (l : list A) :
  forall (done1 done2 : list A) (best : A),
    (forall c, In c done1 -> key best < key c) ->
    (forall c, In c done2 -> key best <= key c) ->
    first_smallest key (min_from key best l) (done1 ++ best :: done2 ++ l).
Proof.
  induction l as [|x rest IH]; intros done1 done2 best H1 H2; simpl.
  - exists done1, done2. rewrite app_nil_r. split; [reflexivity|]. split; [exact H1|].
    intros c Hc. apply in_app_or in Hc as [Hc|[Hc|Hc]].
    + apply Nat.lt_le_incl, H1, Hc.
    + subst; lia.
    + apply H2, Hc.
  - destruct (key x <? key best) eqn:E.
    + apply Nat.ltb_lt in E.
      specialize (IH (done1 ++ best :: done2)%list [] x).
      replace (done1 ++ best :: done2 ++ x :: rest)%list
        with ((done1 ++ best :: done2) ++ x :: [] ++ rest)%list
        by (rewrite <- app_assoc; reflexivity).
      apply IH.
      * intros c Hc. apply in_app_or in Hc as [Hc|[Hc|Hc]].
        -- specialize (H1 c Hc); lia.
        -- subst; lia.
        -- specialize (H2 c Hc); lia.
      * intros c [].
    + apply Nat.ltb_ge in E.
      specialize (IH done1 (done2 ++ [x])%list best).
      replace (done1 ++ best :: done2 ++ x :: rest)%list
        with (done1 ++ best :: (done2 ++ [x]) ++ rest)%list
        by (rewrite <- (app_assoc done2); reflexivity).
      apply IH; [exact H1|].
      intros c Hc. apply in_app_or in Hc as [Hc|[Hc|[]]].
      * apply H2, Hc.
      * subst; exact E.
Qed.

Lemma max_from_first_largest {A : Type} (key : A -> nat) (l : list A) :
  forall (done1 done2 : list A) (best : A),
    (forall c, In c done1 -> key c < key best) ->
    (forall c, In c done2 -> key c <= key best) ->
    first_largest key (max_from key best l) (done1 ++ best :: done2 ++ l).
Proof.
  induction l as [|x rest IH]; intros done1 done2 best H1 H2; simpl.
  - exists done1, done2. rewrite app_nil_r. split; [reflexivity|]. split; [exact H1|].
    intros c Hc. apply in_app_or in Hc as [Hc|[Hc|Hc]].
    + apply Nat.lt_le_incl, H1, Hc.
    + subst; lia.
    + apply H2, Hc.
  - destruct (key best <? key x) eqn:E.
    + apply Nat.ltb_lt in E.
      specialize (IH (done1 ++ best :: done2)%list [] x).
      replace (done1 ++ best :: done2 ++ x :: rest)%list
        with ((done1 ++ best :: done2) ++ x :: [] ++ rest)%list
        by (rewrite <- app_assoc; reflexivity).
      apply IH.
      * intros c Hc. apply in_app_or in Hc as [Hc|[Hc|Hc]].
        -- specialize (H1 c Hc); lia.
        -- subst; lia.
        -- specialize (H2 c Hc); lia.
      * intros c [].
    + apply Nat.ltb_ge in E.
      specialize (IH done1 (done2 ++ [x])%list best).
      replace (done1 ++ best :: done2 ++ x :: rest)%list
        with (done1 ++ best :: (done2 ++ [x]) ++ rest)%list
        by (rewrite <- (app_assoc done2); reflexivity).
      apply IH; [exact H1|].
      intros c Hc. apply in_app_or in Hc as [Hc|[Hc|[]]].
      * apply H2, Hc.
      * subst; exact E.
Qed.

Lemma first_seen_In (l : list string) (x : string) : In x (first_seen l) <-> In x l.
Proof.
  induction l as [|a l IH]; simpl; [tauto|].
  rewrite filter_In, IH.
  destruct (String.eqb_spec x a) as [->|Hne]; simpl; split; intros H.
  - now left.
  - now left.
  - destruct H as [H|[H _]]; [now left | now right].
  - destruct H as [H|H]; [now left | right; split; [exact H | reflexivity]].
Qed.

Lemma first_seen_NoDup (l : list string) : NoDup (first_seen l).
Proof.
  induction l as [|a l IH]; simpl; constructor.
  - rewrite filter_In. intros [_ H]. now rewrite String.eqb_refl in H.
  - now apply NoDup_filter.
Qed.

Lemma first_seen_snoc (l : list string) (x : string) :
  first_seen (l ++ [x]) =
  if existsb (String.eqb x) l then first_seen l else (first_seen l ++ [x])%list.
Proof.
  induction l as [|a l IH]; simpl; [reflexivity|].
  rewrite IH. destruct (String.eqb_spec x a) as [->|Hne]; simpl.
  - destruct (existsb (String.eqb a) l); [reflexivity|].
    rewrite filter_app. simpl. rewrite String.eqb_refl. simpl.
    now rewrite app_nil_r.
  - destruct (existsb (String.eqb x) l); [reflexivity|].
    rewrite filter_app. simpl.
    destruct (String.eqb_spec x a); [contradiction|reflexivity].
Qed.

Lemma first_seen_before (b a : list string) (k : string) :
  ~ In k b ->
  exists tail, first_seen (b ++ k :: a) = (first_seen b ++ k :: tail)%list.
Proof.
  induction b as [|x b IH]; intros Hk; simpl.
  - eexists; reflexivity.
  - destruct IH as [tail Ht]; [intros H; apply Hk; now right|].
    rewrite Ht, filter_app. simpl.
    destruct (String.eqb_spec k x) as [->|Hne]; [exfalso; apply Hk; now left|].
    simpl. eexists; reflexivity.
Qed.

Lemma split_first (l : list string) (x : string) :
  In x l -> exists b a, l = (b ++ x :: a)%list /\ ~ In x b.
Proof.
  induction l as [|y l IH]; intros H; [destruct H|].
  destruct (string_dec y x) as [->|Hne].
  - exists [], l. split; [reflexivity | intros []].
  - destruct H as [H|H]; [contradiction|].
    destruct (IH H) as (b & a & -> & Hb).
    exists (y :: b), a. split; [reflexivity|].
    intros [E|E]; [contradiction | exact (Hb E)].
Qed.

Lemma NoDup_split_unique {A : Type} (b b' a a' : list A) (k : A) :
  NoDup (b ++ k :: a) -> (b ++ k :: a = b' ++ k :: a')%list -> b = b'.
Proof.
  revert b'. induction b as [|x b IH]; intros b' Hnd E.
  - destruct b' as [|y b']; [reflexivity|].
    simpl in E. injection E as <- E. simpl in Hnd.
    inversion Hnd as [|? ? Hni _]. exfalso. apply Hni.
    rewrite E. apply in_or_app. right. now left.
  - destruct b' as [|y b'].
    + simpl in E. injection E as -> E. inversion Hnd as [|? ? Hni _].
      exfalso. apply Hni. apply in_or_app. right. now left.
    + simpl in E. injection E as <- E. f_equal.
      apply IH; [now inversion Hnd | exact E].
Qed.

Lemma filter_split {A : Type} (f : A -> bool) (l b a : list A) (r : A) :
  filter f l = (b ++ r :: a)%list ->
  exists b' a', l = (b' ++ r :: a')%list /\ filter f b' = b /\ filter f a' = a.
Proof.
  revert b. induction l as [|x l IH]; intros b E; simpl in E.
  - destruct b; discriminate.
  - destruct (f x) eqn:Fx.
    + destruct b as [|y b]; simpl in E; injection E as -> E.
      * exists [], l. repeat split. exact E.
      * destruct (IH _ E) as (b' & a' & -> & Hb & Ha).
        exists (y :: b'), a'. simpl. rewrite Fx, Hb. repeat split. exact Ha.
    + destruct (IH _ E) as (b' & a' & -> & Hb & Ha).
      exists (x :: b'), a'. simpl. rewrite Fx. repeat split; assumption.
Qed.

Lemma count_filter (f : string -> bool) (l : list string) (c : string) :
  f c = true -> count c (filter f l) = count c l.
Proof.
  intros Hc. unfold count. induction l as [|x l IH]; simpl; [reflexivity|].
  destruct (f x) eqn:Fx; simpl.
  - destruct (string_dec x c); now rewrite IH.
  - destruct (string_dec x c) as [->|]; [congruence | exact IH].
Qed.

Lemma count_snoc (l : list string) (x k : string) :
  count k (l ++ [x]) = if String.eqb k x then S (count k l) else count k l.
Proof.
  unfold count. rewrite count_occ_app. simpl.
  destruct (string_dec x k) as [->|Hne].
  - rewrite String.eqb_refl. lia.
  - destruct (String.eqb_spec k x); [congruence | lia].
Qed.

Lemma count_not_in (l : list string) (x : string) :
  existsb (String.eqb x) l = false -> count x l = 0.
Proof.
  intros H. unfold count. apply count_occ_not_In.
  intros Hin. assert (existsb (String.eqb x) l = true); [|congruence].
  apply existsb_exists. exists x. split; [exact Hin | apply String.eqb_refl].
Qed.

Lemma counter_add_items (ks : list string) (f : string -> nat) (x : string) :
  NoDup ks ->
  counter_add x (map (fun k => (k, f k)) ks) =
  if existsb (String.eqb x) ks
  then map (fun k => (k, if String.eqb k x then S (f k) else f k)) ks
  else (map (fun k => (k, f k)) ks ++ [(x, 1)])%list.
Proof.
  induction ks as [|k ks IH]; intros Hnd; simpl; [reflexivity|].
  inversion Hnd as [|? ? Hni Hnd']; subst.
  rewrite (String.eqb_sym x k).
  destruct (String.eqb_spec k x) as [->|Hne]; simpl.
  - f_equal. apply map_ext_in. intros k' Hk'.
    destruct (String.eqb_spec k' x) as [->|]; [contradiction | reflexivity].
  - rewrite (IH Hnd'). destruct (existsb (String.eqb x) ks); reflexivity.
Qed.

Lemma Counter_from (l l0 : list string) :
  fold_left (fun d x => counter_add x d) l (counter_items l0) = counter_items (l0 ++ l).
Proof.
  revert l0. induction l as [|x l IH]; intros l0; simpl.
  - now rewrite app_nil_r.
  - replace (l0 ++ x :: l)%list with ((l0 ++ [x]) ++ l)%list
      by (rewrite <- app_assoc; reflexivity).
    rewrite <- IH. f_equal.
    unfold counter_items.
    rewrite counter_add_items by apply first_seen_NoDup.
    rewrite first_seen_snoc.
    assert (Hmem : existsb (String.eqb x) (first_seen l0) = existsb (String.eqb x) l0).
    { apply eq_true_iff_eq. rewrite !existsb_exists.
      split; intros (y & Hy & E); exists y; (split; [|exact E]);
        now apply first_seen_In. }
    rewrite Hmem. destruct (existsb (String.eqb x) l0) eqn:Hx.
    + apply map_ext. intros k. now rewrite count_snoc.
    + rewrite map_app. simpl. f_equal.
      * apply map_ext_in. intros k Hk. rewrite count_snoc.
        destruct (String.eqb_spec k x) as [->|]; [|reflexivity].
        apply (proj1 (first_seen_In _ _)) in Hk.
        assert (existsb (String.eqb x) l0 = true); [|congruence].
        apply existsb_exists. exists x. split; [exact Hk | apply String.eqb_refl].
      * rewrite count_snoc, String.eqb_refl, (count_not_in _ _ Hx). reflexivity.
Qed.

Lemma Counter_items (l : list string) : Counter l = counter_items l.
Proof. exact (Counter_from l []). Qed.

(** The most common of a non-empty list: what [most_common(1)] returns on
    its [Counter], placed in the list itself. *)
Lemma most_common_first (l : list string) (c0 : string) :
  In c0 l ->
  exists best n before after,
    most_common_1 (Counter l) = [(best, n)]
    /\ l = (before ++ best :: after)%list
    /\ (forall c, In c before -> count c l < count best l)
    /\ (forall c, In c l -> count c l <= count best l).
Proof.
  intros Hc0. rewrite Counter_items. unfold counter_items.
  set (g := fun k => (k, count k l)).
  destruct (first_seen l) as [|k0 ks] eqn:Efs.
  { apply first_seen_In in Hc0. rewrite Efs in Hc0. destruct Hc0. }
  simpl.
  assert (FL : first_largest snd (max_from snd (g k0) (map g ks)) (map g (k0 :: ks))).
  { apply (max_from_first_largest snd (map g ks) [] [] (g k0)); intros ? []. }
  destruct FL as (before & after & E & Hlt & Hle).
  rewrite <- Efs in E, Hle.
  apply map_eq_app in E as (B & rest & Efs' & HB & Hrest).
  symmetry in Hrest.
  destruct rest as [|best A]; [discriminate|]. simpl in Hrest.
  injection Hrest as Hbest HA.
  assert (Hin : In best l).
  { apply first_seen_In. rewrite Efs'. apply in_or_app. right. now left. }
  destruct (split_first l best Hin) as (b & a & El & Hnb).
  destruct (first_seen_before b a best Hnb) as (tail & Et).
  assert (HBb : B = first_seen b).
  { apply (NoDup_split_unique B (first_seen b) A tail best).
    - rewrite <- Efs'. apply first_seen_NoDup.
    - rewrite <- Efs', <- Et, <- El. reflexivity. }
  exists best, (count best l), b, a.
  split; [rewrite Hbest; reflexivity|].
  split; [exact El|].
  split.
  - intros c Hc.
    assert (Hg : In (g c) before).
    { rewrite <- HB. apply in_map. rewrite HBb. apply first_seen_In, Hc. }
    specialize (Hlt _ Hg). rewrite Hbest in Hlt. exact Hlt.
  - intros c Hc.
    assert (Hg : In (g c) (map g (first_seen l))).
    { apply in_map. apply first_seen_In, Hc. }
    specialize (Hle _ Hg). rewrite Hbest in Hle. exact Hle.
Qed.

Lemma most_common_empty : most_common_1 (Counter []) = [].
Proof. reflexivity. Qed.



(** ** The verification loop *)

Lemma startswith_append (p q : string) : PyStr.startswith p (p ++ q) = true.
Proof.
  unfold PyStr.startswith. induction p as [|c p IH]; simpl.
  - destruct q; reflexivity.
  - destruct (ascii_dec c c) as [_|H]; [exact IH | contradiction].
Qed.

Lemma session_get_run (P : Portal) (url : string) (s : state P) :
  exists r w, session_get P url s = (r, mkState P w (log s ++ [EvGet url r])%list).
Proof.
  unfold session_get. destruct (http_get P url (world s)) as [r w]. eauto.
Qed.

Lemma session_post_run (P : Portal) (url : string) (data : post_data) (s : state P) :
  exists r w, session_post P url data s = (r, mkState P w (log s ++ [EvPost url data r])%list).
Proof.
  unfold session_post. destruct (http_post P url data (world s)) as [r w]. eauto.
Qed.

Lemma fetch_captcha_log (P : Portal) (s : state P) :
  exists url r,
    log (snd (fetch_captcha P s)) = (log s ++ [EvGet url r])%list
    /\ is_fetch (EvGet url r) = true.
Proof.
  unfold fetch_captcha, bind at 1, random_random.
  destruct (random_token P (world s)) as [token w1].
  unfold bind at 1.
  destruct (session_get_run P (CAPTCHA_URL ++ "?" ++ token) (mkState P w1 (log s)))
    as (r & w2 & ->).
  exists (CAPTCHA_URL ++ "?" ++ token), r.
  split; [| apply startswith_append].
  destruct r as [resp|e]; [|reflexivity].
  unfold bind, raise_for_status, raise, ret.
  destruct ((400 <=? status_code resp) && (status_code resp <? 600)); [reflexivity|].
  destruct (json resp) as [[data|]|]; reflexivity.
Qed.

Lemma solve_audio_log (P : Portal) (blob : string) (s : state P) :
  log (snd (solve_audio_captcha P blob s)) = log s
  /\ exists r, fst (solve_audio_captcha P blob s) = Ok r.
Proof.
  unfold solve_audio_captcha.
  destruct (audio_tracks P blob (world s)) as [t w]. cbn [fst snd log]. eauto.
Qed.

Lemma solve_image_log (P : Portal) (blob : string) (s : state P) :
  log (snd (solve_image_captcha P blob s)) = log s
  /\ exists r, fst (solve_image_captcha P blob s) = Ok r.
Proof.
  unfold solve_image_captcha.
  destruct (image_tracks P blob (world s)) as [t w]. cbn [fst snd log]. eauto.
Qed.

Lemma solve_member_audio_log (P : Portal) (blob : json_member) (s : state P) :
  log (snd (solve_member P (solve_audio_captcha P) blob s)) = log s
  /\ exists r, fst (solve_member P (solve_audio_captcha P) blob s) = Ok r.
Proof.
  destruct blob as [base64|]; [apply solve_audio_log|].
  split; [reflexivity | now exists None].
Qed.

Lemma solve_member_image_log (P : Portal) (blob : json_member) (s : state P) :
  log (snd (solve_member P (solve_image_captcha P) blob s)) = log s
  /\ exists r, fst (solve_member P (solve_image_captcha P) blob s) = Ok r.
Proof.
  destruct blob as [base64|]; [apply solve_image_log|].
  split; [reflexivity | now exists None].
Qed.

(** One attempt's fetch and recognition logs exactly one challenge fetch,
    and fails only when the fetch does. *)
Lemma recognise_log (P : Portal) (s : state P) :
  exists url r,
    log (snd (recognise P s)) = (log s ++ [EvGet url r])%list
    /\ is_fetch (EvGet url r) = true
    /\ (forall c, fst (fetch_captcha P s) = Ok c ->
        exists results, fst (recognise P s) = Ok results).
Proof.
  destruct (fetch_captcha_log P s) as (url & r & Hlog & Hf).
  exists url, r. unfold recognise, bind, ret.
  destruct (fetch_captcha P s) as [[c|e] s1]; cbn [fst snd] in *.
  - destruct (solve_member_audio_log P (audio c) s1) as (La & ra & Ea).
    destruct (solve_member P (solve_audio_captcha P) (audio c) s1) as [oa s2]; cbn [fst snd] in *. subst oa.
    destruct (solve_member_image_log P (image c) s2) as (Li & ri & Ei).
    destruct (solve_member P (solve_image_captcha P) (image c) s2) as [oi s3]; cbn [fst snd] in *. subst oi.
    cbn [fst snd]. split; [congruence|]. split; [exact Hf|]. eauto.
  - split; [exact Hlog|]. split; [exact Hf|]. intros c Hc. discriminate.
Qed.

(** The outer loop, one attempt unfolded. *)
Lemma attempt_loop_step (P : Portal) (attempt : nat) (later : list nat) (s : state P) :
  attempt_loop P (attempt :: later) s =
  match recognise P s with
  | (Ok (audio_result, image_result), s1) =>
      match build_candidates audio_result image_result with
      | [] => attempt_loop P later s1
      | candidates =>
          match try_candidates P candidates s1 with
          | (Ok true, s2) => (Ok true, s2)
          | (Ok false, s2) =>
              attempt_loop P later (mkState P (world s2) (log s2 ++ [EvSleep CAPTCHA_RETRY_DELAY]))
          | (Raise e, s2) => (Raise e, s2)
          end
      end
  | (Raise e, s1) => (Raise e, s1)
  end.
Proof.
  cbn [attempt_loop]. unfold recognise, bind, ret, time_sleep.
  destruct (fetch_captcha P s) as [[c|e] s1]; [|reflexivity].
  destruct (solve_member P (solve_audio_captcha P) (audio c) s1) as [[oa|e] s2]; [|reflexivity].
  destruct (solve_member P (solve_image_captcha P) (image c) s2) as [[oi|e] s3]; [|reflexivity].
  destruct (build_candidates oa oi) as [|c0 cs]; [reflexivity|].
  destruct (try_candidates P (c0 :: cs) s3) as [[[|]|e] s4]; reflexivity.
Qed.

Lemma try_candidates_step (P : Portal) (solver code : string)
      (rest : list (string * string)) (s : state P) :
  try_candidates P ((solver, code) :: rest) s =
  match session_post P CAPTCHA_VERIFY_URL (RawBody ("captcha=" ++ code)) s with
  | (Ok resp, s1) =>
      if accepted_body (text resp) then (Ok true, s1) else try_candidates P rest s1
  | (Raise e, s1) => (Raise e, s1)
  end.
Proof.
  cbn [try_candidates]. unfold verify_captcha, bind, ret.
  destruct (session_post P CAPTCHA_VERIFY_URL (RawBody ("captcha=" ++ code)) s)
    as [[resp|e] s1]; [destruct (accepted_body (text resp))|]; reflexivity.
Qed.

(** What the inner loop logs: the verification requests of a prefix of the
    candidates, in order; every request but the last was rejected, and the
    last one decides the outcome. *)
Lemma try_candidates_trace (P : Portal) (candidates : list (string * string)) :
  forall s : state P,
  exists (tried : list (string * res response)) (rest : list string),
    log (snd (try_candidates P candidates s)) = (log s ++ posts tried)%list
    /\ map snd candidates = (map fst tried ++ rest)%list
    /\ match fst (try_candidates P candidates s) with
       | Ok true =>
           exists init code resp,
             tried = (init ++ [(code, Ok resp)])%list
             /\ accepted_body (text resp) = true
             /\ forallb rejected (map snd init) = true
       | Ok false => rest = [] /\ forallb rejected (map snd tried) = true
       | Raise e =>
           exists init code,
             tried = (init ++ [(code, Raise e)])%list
             /\ forallb rejected (map snd init) = true
       end.
Proof.
  induction candidates as [|[solver code] cands IH]; intros s.
  - exists [], []. cbn. rewrite app_nil_r. auto.
  - rewrite try_candidates_step.
    destruct (session_post_run P CAPTCHA_VERIFY_URL (RawBody ("captcha=" ++ code)) s)
      as (r & w & ->).
    destruct r as [resp|e].
    + destruct (accepted_body (text resp)) eqn:Ea.
      * exists [(code, Ok resp)], (map snd cands). cbn [fst snd log].
        repeat split. exists [], code, resp. auto.
      * destruct (IH (mkState P w (log s ++ [EvPost CAPTCHA_VERIFY_URL
                                             (RawBody ("captcha=" ++ code)) (Ok resp)])%list))
          as (tried & rest & Hlog & Hmap & Hres).
        exists ((code, Ok resp) :: tried), rest.
        split; [rewrite Hlog; cbn [log]; rewrite <- app_assoc; reflexivity|].
        split; [cbn [map fst snd]; rewrite Hmap; reflexivity|].
        destruct (fst (try_candidates P cands _)) as [[|]|e].
        -- destruct Hres as (init & c & resp' & -> & Hacc & Hrej).
           exists ((code, Ok resp) :: init), c, resp'.
           repeat split; [exact Hacc|].
           cbn [map snd forallb rejected]. rewrite Ea, Hrej. reflexivity.
        -- destruct Hres as (-> & Hrej). split; [reflexivity|].
           cbn [map snd forallb rejected]. rewrite Ea, Hrej. reflexivity.
        -- destruct Hres as (init & c & -> & Hrej).
           exists ((code, Ok resp) :: init), c.
           split; [reflexivity|].
           cbn [map snd forallb rejected]. rewrite Ea, Hrej. reflexivity.
    + exists [(code, Raise e)], (map snd cands). cbn [fst snd log].
      repeat split. exists [], code. auto.
Qed.

(** ** Candidate list of one attempt *)

Lemma len6_truthy (s : string) : PyStr.len s = 6 -> PyStr.truthy s = true.
Proof. destruct s; [discriminate | reflexivity]. Qed.

Lemma six_digit_candidate_length6 (tag : string) (r : option string) :
  six_digit_candidate tag r = map (pair tag) (length6 r).
Proof.
  destruct r as [v|]; [|reflexivity]. unfold six_digit_candidate, length6.
  destruct (PyStr.len v =? 6) eqn:E.
  - apply Nat.eqb_eq in E. rewrite (len6_truthy v E). reflexivity.
  - rewrite andb_false_r. reflexivity.
Qed.

Lemma both_agree_iff (a i : option string) :
  both_agree a i = true <-> exists v, a = Some v /\ i = Some v /\ PyStr.len v = 6.
Proof.
  unfold both_agree. split.
  - destruct a as [x|], i as [y|]; try discriminate.
    intros H. repeat (apply andb_prop in H as [H ?]).
    apply String.eqb_eq in H0. apply Nat.eqb_eq in H2. subst y.
    exists x. auto.
  - intros (v & -> & -> & H6).
    rewrite (len6_truthy v H6), H6, String.eqb_refl. reflexivity.
Qed.

Lemma length6_len (r : option string) (c : string) : In c (length6 r) -> PyStr.len c = 6.
Proof.
  destruct r as [v|]; [|intros []]. unfold length6.
  destruct (PyStr.len v =? 6) eqn:E; [|intros []].
  intros [<-|[]]. now apply Nat.eqb_eq.
Qed.

Lemma build_candidates_agree (a i : option string) (v : string) :
  a = Some v -> i = Some v -> PyStr.len v = 6 ->
  build_candidates a i = [("audio+image", v)].
Proof.
  intros -> -> H6. unfold build_candidates.
  replace (both_agree (Some v) (Some v)) with true
    by (symmetry; apply both_agree_iff; eauto).
  rewrite six_digit_candidate_length6. unfold length6.
  rewrite H6. reflexivity.
Qed.

Lemma build_candidates_otherwise (a i : option string) :
  (forall v, ~ (a = Some v /\ i = Some v /\ PyStr.len v = 6)) ->
  build_candidates a i
  = (map (pair "audio") (length6 a) ++ map (pair "image") (length6 i))%list.
Proof.
  intros H. unfold build_candidates.
  destruct (both_agree a i) eqn:E.
  - apply both_agree_iff in E as (v & Hv). exfalso. exact (H v Hv).
  - now rewrite !six_digit_candidate_length6.
Qed.

Lemma build_candidates_len (a i : option string) (c : string) :
  In c (map snd (build_candidates a i)) -> PyStr.len c = 6.
Proof.
  unfold build_candidates. rewrite !six_digit_candidate_length6.
  destruct (both_agree a i); [|rewrite map_app]; rewrite ?map_map; cbn [snd];
    rewrite ?map_id; intros H.
  - exact (length6_len a c H).
  - apply in_app_or in H as [H|H]; [exact (length6_len a c H) | exact (length6_len i c H)].
Qed.

Lemma build_candidates_none (a i : option string) :
  length6 a = [] -> length6 i = [] -> build_candidates a i = [].
Proof.
  intros Ha Hi. unfold build_candidates. rewrite !six_digit_candidate_length6, Ha, Hi.
  destruct (both_agree a i); reflexivity.
Qed.

(** C1. Submission priority of one attempt of [solve_and_verify].  Let the
    recognition of the attempt return [audio_result] and [image_result].
    When both are the same length-6 value the candidate list is that value
    alone and the attempt makes exactly one verification request, for it.
    Otherwise the list is the acoustic result if it has length 6, then the
    visual result if it has length 6; nothing of another length is ever on
    the list.  The attempt posts the list in this order, from the front,
    and nothing else: it returns [True] at the first request that is
    accepted, raises at the first request that raises, and when every
    request was rejected it sleeps and goes on to the next attempt.  With
    no length-6 result the list is empty: nothing is posted, the attempt
    does not sleep, and the loop goes on to the next attempt.
    [solve_and_verify] is this loop over the attempts 1 to
    [MAX_CAPTCHA_RETRIES]. *)
Theorem C1_submission_priority
        (P : Portal) (attempt : nat) (later : list nat) (s s1 : state P)
        (audio_result image_result : option string) :
  recognise P s = (Ok (audio_result, image_result), s1) ->
  let candidates := build_candidates audio_result image_result in
  let run := attempt_loop P (attempt :: later) s in
  (exists tried rest s2,
      map snd candidates = (map fst tried ++ rest)%list
      /\ log s2 = (log s1 ++ posts tried)%list
      /\ ((exists init code resp,
             tried = (init ++ [(code, Ok resp)])%list
             /\ accepted_body (text resp) = true
             /\ forallb rejected (map snd init) = true
             /\ run = (Ok true, s2))
          \/ (exists init code e,
                tried = (init ++ [(code, Raise e)])%list
                /\ forallb rejected (map snd init) = true
                /\ run = (Raise e, s2))
          \/ (candidates <> [] /\ rest = []
              /\ forallb rejected (map snd tried) = true
              /\ run = attempt_loop P later
                         (mkState P (world s2)
                                  (log s2 ++ [EvSleep CAPTCHA_RETRY_DELAY])%list))
          \/ (candidates = [] /\ tried = [] /\ s2 = s1
              /\ run = attempt_loop P later s1))
      /\ (forall v, audio_result = Some v -> image_result = Some v -> PyStr.len v = 6 ->
            exists r, tried = [(v, r)]))
  /\ (forall v, audio_result = Some v -> image_result = Some v -> PyStr.len v = 6 ->
        candidates = [("audio+image", v)])
  /\ ((forall v, ~ (audio_result = Some v /\ image_result = Some v /\ PyStr.len v = 6)) ->
      candidates = (map (pair "audio") (length6 audio_result)
                    ++ map (pair "image") (length6 image_result))%list)
  /\ (forall c, In c (map snd candidates) -> PyStr.len c = 6)
  /\ (length6 audio_result = [] -> length6 image_result = [] -> candidates = [])
  /\ solve_and_verify P = attempt_loop P (seq 1 MAX_CAPTCHA_RETRIES).
Proof.
  intros Hrec candidates run.
  split; [|split; [|split; [|split; [|split; [|reflexivity]]]]].
  - assert (Hrun : run = match candidates with
                         | [] => attempt_loop P later s1
                         | _ :: _ =>
                             match try_candidates P candidates s1 with
                             | (Ok true, s2) => (Ok true, s2)
                             | (Ok false, s2) =>
                                 attempt_loop P later
                                   (mkState P (world s2)
                                            (log s2 ++ [EvSleep CAPTCHA_RETRY_DELAY])%list)
                             | (Raise e, s2) => (Raise e, s2)
                             end
                         end).
    { unfold run. rewrite attempt_loop_step, Hrec. fold candidates.
      destruct candidates; reflexivity. }
    assert (Hone : forall (tried : list (string * res response)) rest v,
               map snd candidates = (map fst tried ++ rest)%list ->
               tried <> [] ->
               audio_result = Some v -> image_result = Some v -> PyStr.len v = 6 ->
               exists r, tried = [(v, r)]).
    { intros tried rest v Hmap Hne Ha Hi H6.
      unfold candidates in Hmap.
      rewrite (build_candidates_agree _ _ v Ha Hi H6) in Hmap. cbn [map snd] in Hmap.
      destruct tried as [|[c r] tried]; [contradiction|].
      cbn [map fst app] in Hmap. injection Hmap as <- Hmap.
      destruct tried; [|discriminate]. now exists r. }
    destruct candidates as [|c0 cs] eqn:Ecs.
    + exists [], [], s1. split; [reflexivity|].
      split; [cbn; now rewrite app_nil_r|]. split.
      * right. right. right. auto.
      * intros v Ha Hi H6. unfold candidates in Ecs.
        rewrite (build_candidates_agree _ _ v Ha Hi H6) in Ecs. discriminate.
    + destruct (try_candidates_trace P (c0 :: cs) s1) as (tried & rest & Hlog & Hmap & Hres).
      destruct (try_candidates P (c0 :: cs) s1) as [[[|]|e] s2]; cbn [fst snd] in Hlog, Hres.
      * destruct Hres as (init & code & resp & Et & Hacc & Hrej).
        exists tried, rest, s2. split; [exact Hmap|]. split; [exact Hlog|]. split.
        -- left. exists init, code, resp. auto.
        -- intros v. apply (Hone tried rest v Hmap). rewrite Et. now destruct init.
      * destruct Hres as (Hrest & Hrej).
        exists tried, rest, s2. split; [exact Hmap|]. split; [exact Hlog|]. split.
        -- right. right. left. split; [discriminate|]. auto.
        -- intros v. apply (Hone tried rest v Hmap).
           intros ->. rewrite Hrest in Hmap. discriminate.
      * destruct Hres as (init & code & Et & Hrej).
        exists tried, rest, s2. split; [exact Hmap|]. split; [exact Hlog|]. split.
        -- right. left. exists init, code, e. auto.
        -- intros v. apply (Hone tried rest v Hmap). rewrite Et. now destruct init.
  - intros v Ha Hi H6. now apply build_candidates_agree.
  - apply build_candidates_otherwise.
  - apply build_candidates_len.
  - intros Ha Hi. now apply build_candidates_none.
Qed.

Lemma C1_submission_priority_witness :
  let P := scripted_portal 0 "" "" (Some ["123456"]) (Some ["123456"]) in
  exists r s2,
    attempt_loop P [1] (fresh P 0) = (Ok true, s2)
    /\ log s2
       = [EvGet (CAPTCHA_URL ++ "?0.42") (Ok (mkResponse 200 "" (Some challenge)));
          verify_post "123456" r].
Proof.
  intros P.
  assert (Hrec : recognise P (fresh P 0)
                 = (Ok (Some "123456", Some "123456"),
                    mkState P 1 [EvGet (CAPTCHA_URL ++ "?0.42")
                                       (Ok (mkResponse 200 "" (Some challenge)))]))
    by reflexivity.
  destruct (C1_submission_priority P 1 [] _ _ _ _ Hrec)
    as ((tried & rest & s2 & _ & Hlog & Hout & Hone) & _).
  destruct (Hone "123456" eq_refl eq_refl eq_refl) as (r & ->).
  exists r, s2.
  destruct Hout as [(init & code & resp & _ & _ & _ & Hrun)
                   | [(init & code & e & _ & _ & Hrun)
                     | [(_ & _ & _ & Hrun) | (Hnil & _)]]].
  - split; [exact Hrun | exact Hlog].
  - vm_compute in Hrun. discriminate Hrun.
  - vm_compute in Hrun. discriminate Hrun.
  - discriminate Hnil.
Defined.

(** ** The attempt budget *)

Lemma fetches_app (a b : list event) : fetches (a ++ b) = fetches a + fetches b.
Proof. unfold fetches. now rewrite filter_app, length_app. Qed.

Lemma fetches_posts (tried : list (string * res response)) : fetches (posts tried) = 0.
Proof. induction tried as [|cr t IH]; [reflexivity | exact IH]. Qed.

Lemma verify_post_accepted (code : string) (r : res response) :
  is_accepted_submission (verify_post code r) = accepted r.
Proof. unfold verify_post, is_accepted_submission. now rewrite String.eqb_refl. Qed.

Lemma rejected_not_accepted (r : res response) : rejected r = true -> accepted r = false.
Proof.
  destruct r as [resp|e]; cbn; [|reflexivity].
  destruct (accepted_body (text resp)); [discriminate | reflexivity].
Qed.

Lemma posts_none_accepted (tried : list (string * res response)) :
  forallb rejected (map snd tried) = true ->
  existsb is_accepted_submission (posts tried) = false.
Proof.
  induction tried as [|[c r] t IH]; [reflexivity|].
  cbn [map snd forallb posts existsb fst]. intros H.
  apply andb_prop in H as [Hr Ht].
  rewrite verify_post_accepted, (rejected_not_accepted r Hr). exact (IH Ht).
Qed.

Lemma fetch_captcha_run (P : Portal) (s : state P) :
  exists token w1 r w2,
    random_token P (world s) = (token, w1)
    /\ http_get P (CAPTCHA_URL ++ "?" ++ token) w1 = (r, w2)
    /\ fetch_captcha P s
       = (match r with
          | Ok resp =>
              if status_ok resp
              then match json resp with
                   | Some (JsonObject data) =>
                       Ok (mkCaptcha (json_get "image" (JsonString "") data)
                                     (json_get "audio" (JsonString "") data))
                   | Some JsonNotObject => Raise AttributeError
                   | None => Raise JSONDecodeError
                   end
              else Raise (HTTPError (status_code resp))
          | Raise e => Raise e
          end,
          mkState P w2 (log s ++ [EvGet (CAPTCHA_URL ++ "?" ++ token) r])%list).
Proof.
  unfold fetch_captcha, bind, random_random, session_get, raise_for_status, raise, ret,
    status_ok.
  destruct (random_token P (world s)) as [token w1] eqn:Et. cbn [world log].
  destruct (http_get P (CAPTCHA_URL ++ "?" ++ token) w1) as [r w2] eqn:Eg.
  exists token, w1, r, w2. split; [reflexivity|]. split; [exact Eg|].
  destruct r as [resp|e]; [|reflexivity].
  destruct ((400 <=? status_code resp) && (status_code resp <? 600)); [reflexivity|].
  cbn [negb]. destruct (json resp) as [[data|]|]; reflexivity.
Qed.

Lemma fetch_captcha_cases (P : Portal) (s : state P) :
  exists url r,
    log (snd (fetch_captcha P s)) = (log s ++ [EvGet url r])%list
    /\ is_fetch (EvGet url r) = true
    /\ fetch_succeeded (EvGet url r)
       = match fst (fetch_captcha P s) with Ok _ => true | Raise _ => false end.
Proof.
  destruct (fetch_captcha_run P s) as (token & w1 & r & w2 & _ & _ & ->).
  exists (CAPTCHA_URL ++ "?" ++ token), r. cbn [fst snd log].
  split; [reflexivity|]. split; [apply startswith_append|].
  unfold fetch_succeeded. rewrite startswith_append. cbn [negb orb].
  destruct r as [resp|e]; [|reflexivity].
  destruct (status_ok resp); [|reflexivity].
  destruct (json resp) as [[data|]|]; reflexivity.
Qed.

(** One attempt's fetch and recognition: it returns exactly when the
    challenge fetch succeeded. *)
Lemma recognise_cases (P : Portal) (s : state P) :
  exists url r,
    log (snd (recognise P s)) = (log s ++ [EvGet url r])%list
    /\ is_fetch (EvGet url r) = true
    /\ fetch_succeeded (EvGet url r)
       = match fst (recognise P s) with Ok _ => true | Raise _ => false end.
Proof.
  destruct (fetch_captcha_cases P s) as (url & r & Hlog & Hf & Hs).
  exists url, r. unfold recognise, bind, ret.
  destruct (fetch_captcha P s) as [[c|e] s1]; cbn [fst snd] in *.
  - destruct (solve_member_audio_log P (audio c) s1) as (La & ra & Ea).
    destruct (solve_member P (solve_audio_captcha P) (audio c) s1) as [oa s2];
      cbn [fst snd] in *. subst oa.
    destruct (solve_member_image_log P (image c) s2) as (Li & ri & Ei).
    destruct (solve_member P (solve_image_captcha P) (image c) s2) as [oi s3];
      cbn [fst snd] in *. subst oi.
    cbn [fst snd]. split; [congruence|]. split; [exact Hf | exact Hs].
  - split; [exact Hlog|]. split; [exact Hf | exact Hs].
Qed.

(** What a run of the outer loop logs and returns.  It raises at a
    verification request that raised, or at a challenge fetch that did not
    succeed. *)
Lemma attempt_loop_trace (P : Portal) :
  forall (attempts : list nat) (s : state P),
  exists evs,
    log (snd (attempt_loop P attempts s)) = (log s ++ evs)%list
    /\ fetches evs <= length attempts
    /\ match fst (attempt_loop P attempts s) with
       | Ok true =>
           exists before code resp,
             evs = (before ++ [verify_post code (Ok resp)])%list
             /\ accepted_body (text resp) = true
             /\ existsb is_accepted_submission before = false
       | Ok false =>
           fetches evs = length attempts
           /\ existsb is_accepted_submission evs = false
       | Raise e =>
           (exists before code,
              evs = (before ++ [verify_post code (Raise e)])%list
              /\ existsb is_accepted_submission before = false)
           \/ (exists before url r,
                 evs = (before ++ [EvGet url r])%list
                 /\ fetch_succeeded (EvGet url r) = false
                 /\ existsb is_accepted_submission before = false)
       end.
Proof.
  intros attempts.
  induction attempts as [|attempt later IH]; intros s.
  - exists []. cbn. rewrite app_nil_r. auto.
  - rewrite attempt_loop_step.
    destruct (recognise_cases P s) as (url & r & Hlog1 & Hf & Hcase).
    assert (Hf1 : fetches [EvGet url r] = 1) by (unfold fetches; cbn [filter]; now rewrite Hf).
    destruct (recognise P s) as [[[a i]|e0] s1]; cbn [fst snd] in Hcase, Hlog1.
    2:{ exists [EvGet url r]. cbn [fst snd]. split; [exact Hlog1|].
        rewrite Hf1. cbn [length]. split; [lia|].
        right. exists [], url, r. auto. }
    clear Hcase.
    destruct (build_candidates a i) as [|c0 cs] eqn:Ecs.
    + destruct (IH s1) as (evs & Hlog & Hle & Hres).
      exists (EvGet url r :: evs).
      split; [rewrite Hlog, Hlog1, <- app_assoc; reflexivity|].
      change (EvGet url r :: evs) with ([EvGet url r] ++ evs)%list.
      rewrite fetches_app, Hf1. cbn [length].
      split; [lia|].
      destruct (fst (attempt_loop P later s1)) as [[|]|e].
      * destruct Hres as (before & code & resp & -> & Hacc & Hnone).
        exists (EvGet url r :: before), code, resp. auto.
      * destruct Hres as (Hn & Hnone). split; [lia | exact Hnone].
      * destruct Hres as [(before & code & -> & Hnone) | (before & u & r' & -> & Hfs & Hnone)].
        -- left. exists (EvGet url r :: before), code. auto.
        -- right. exists (EvGet url r :: before), u, r'. auto.
    + destruct (try_candidates_trace P (c0 :: cs) s1) as (tried & rest & Hlog2 & _ & Hres2).
      destruct (try_candidates P (c0 :: cs) s1) as [[[|]|e] s2]; cbn [fst snd] in Hlog2, Hres2.
      * destruct Hres2 as (init & code & resp & -> & Hacc & Hrej).
        exists ([EvGet url r] ++ posts init ++ [verify_post code (Ok resp)])%list.
        cbn [fst snd].
        split; [rewrite Hlog2, Hlog1; unfold posts; rewrite map_app, <- !app_assoc; reflexivity|].
        split.
        { rewrite !fetches_app, Hf1, fetches_posts. cbn. lia. }
        exists ([EvGet url r] ++ posts init)%list, code, resp.
        split; [now rewrite <- app_assoc|]. split; [exact Hacc|].
        cbn. now apply posts_none_accepted.
      * destruct Hres2 as (_ & Hrej).
        destruct (IH (mkState P (world s2) (log s2 ++ [EvSleep CAPTCHA_RETRY_DELAY])%list))
          as (evs & Hlog & Hle & Hres).
        exists ([EvGet url r] ++ posts tried ++ [EvSleep CAPTCHA_RETRY_DELAY] ++ evs)%list.
        split; [rewrite Hlog; cbn [log]; rewrite Hlog2, Hlog1, <- !app_assoc; reflexivity|].
        rewrite !fetches_app, Hf1, fetches_posts.
        change (fetches [EvSleep CAPTCHA_RETRY_DELAY]) with 0. cbn [length].
        split; [lia|].
        destruct (fst (attempt_loop P later _)) as [[|]|e].
        -- destruct Hres as (before & code & resp & -> & Hacc & Hnone).
           exists ([EvGet url r] ++ posts tried ++ [EvSleep CAPTCHA_RETRY_DELAY] ++ before)%list,
             code, resp.
           split; [now rewrite <- !app_assoc|]. split; [exact Hacc|].
           rewrite !existsb_app, (posts_none_accepted tried Hrej), Hnone. reflexivity.
        -- destruct Hres as (Hn & Hnone). split; [lia|].
           rewrite !existsb_app, (posts_none_accepted tried Hrej), Hnone. reflexivity.
        -- destruct Hres as [(before & code & -> & Hnone)
                            | (before & u & r' & -> & Hfs & Hnone)].
           ++ left.
              exists ([EvGet url r] ++ posts tried ++ [EvSleep CAPTCHA_RETRY_DELAY] ++ before)%list,
                code.
              split; [now rewrite <- !app_assoc|].
              rewrite !existsb_app, (posts_none_accepted tried Hrej), Hnone. reflexivity.
           ++ right.
              exists ([EvGet url r] ++ posts tried ++ [EvSleep CAPTCHA_RETRY_DELAY] ++ before)%list,
                u, r'.
              split; [now rewrite <- !app_assoc|]. split; [exact Hfs|].
              rewrite !existsb_app, (posts_none_accepted tried Hrej), Hnone. reflexivity.
      * destruct Hres2 as (init & code & -> & Hrej).
        exists ([EvGet url r] ++ posts init ++ [verify_post code (Raise e)])%list.
        cbn [fst snd].
        split; [rewrite Hlog2, Hlog1; unfold posts; rewrite map_app, <- !app_assoc; reflexivity|].
        split.
        { rewrite !fetches_app, Hf1, fetches_posts. cbn. lia. }
        left. exists ([EvGet url r] ++ posts init)%list, code.
        split; [now rewrite <- app_assoc|].
        cbn. now apply posts_none_accepted.
Qed.

Lemma unrejected_last (before : list event) (code : string) (r : res response) :
  rejected r = false ->
  all_submissions_rejected (before ++ [verify_post code r]) = false.
Proof.
  intros Hr. unfold all_submissions_rejected. rewrite forallb_app.
  cbn [forallb submission_rejected verify_post]. rewrite String.eqb_refl, Hr.
  now rewrite andb_false_r.
Qed.

Lemma accepted_last (before : list event) (code : string) (r : res response) :
  accepted r = true ->
  existsb is_accepted_submission (before ++ [verify_post code r]) = true.
Proof.
  intros Hr. rewrite existsb_app. cbn [existsb].
  rewrite verify_post_accepted, Hr. now rewrite orb_true_r.
Qed.





(** ** The search client *)

Lemma search_causelist_run (P : Portal) (lawyer_name date_str cl_type : string)
      (s : state P) :
  search_causelist P lawyer_name date_str cl_type s =
  match session_and_captcha P s with
  | (Ok true, s1) =>
      match session_post P CAUSELIST_URL
                         (FormFields (search_params lawyer_name date_str cl_type)) s1 with
      | (Ok resp, s2) =>
          if no_record (PyStr.strip (text resp)) then (Ok None, s2)
          else
            match session_get P (file_url_of (PyStr.strip (text resp))) s2 with
            | (Ok content_resp, s3) =>
                if status_ok content_resp then (Ok (Some (text content_resp)), s3)
                else (Raise (HTTPError (status_code content_resp)), s3)
            | (Raise e, s3) => (Raise e, s3)
            end
      | (Raise e, s2) => (Raise e, s2)
      end
  | (Ok false, s1) => (Raise captcha_failure, s1)
  | (Raise e, s1) => (Raise e, s1)
  end.
Proof.
  unfold search_causelist, session_and_captcha, bind, ret, raise.
  destruct (initialize_session P s) as [[[]|e] s0]; [|reflexivity].
  destruct (solve_and_verify P s0) as [[[|]|e] s1]; try reflexivity.
  cbn [negb].
  destruct (session_post P CAUSELIST_URL _ s1) as [[resp|e] s2]; [|reflexivity].
  destruct (no_record (PyStr.strip (text resp))); [reflexivity|].
  destruct (session_get P _ s2) as [[c|e] s3]; [|reflexivity].
  unfold raise_for_status, status_ok, raise, ret.
  destruct ((400 <=? status_code c) && (status_code c <? 600)); reflexivity.
Qed.

Lemma no_record_iff (body : string) :
  no_record body = true <-> body = "" \/ body = "No Record Found" \/ body = "NA".
Proof.
  unfold no_record. rewrite !orb_true_iff, !String.eqb_eq.
  destruct body; cbn [PyStr.truthy negb]; intuition congruence.
Qed.

Lemma lstrip_slashes (body : string) :
  exists n, body = slashes n ++ PyStr.lstrip_chars "/" body
            /\ PyStr.startswith "/" (PyStr.lstrip_chars "/" body) = false.
Proof.
  unfold PyStr.lstrip_chars.
  induction body as [|c body (n & E & H)].
  - exists 0. split; reflexivity.
  - cbn [PyStr.lstrip_by PyStr.mem_char].
    destruct (Ascii.eqb_spec c "/"%char) as [->|Hne]; cbn [orb].
    + exists (S n). cbn [slashes]. split; [cbn; f_equal; exact E | exact H].
    + exists 0. split; [reflexivity|].
      unfold PyStr.startswith. cbn [String.prefix].
      destruct (ascii_dec "/" c) as [<-|]; [contradiction | reflexivity].
Qed.

(** C4. Outcomes of [search_causelist].  It returns [None] exactly when
    session and captcha succeeded and the stripped body of the search
    response is empty, "No Record Found" or "NA".  For any other body it
    requests one document: the body itself when it starts with the four
    characters "http" (whatever follows, and in this letter case only),
    else [BASE_URL/cishcraj-jp/] followed by the body without its leading
    slashes.  When that request is answered with a status outside 400 to
    599 its text is returned unchanged; a 4xx or 5xx answer raises
    [HTTPError] and a request that raises lets its exception through.
    When the captcha budget is exhausted it raises a [RuntimeError], which
    is not a transport error. *)
Theorem C4_search_outcomes (P : Portal) (lawyer_name date_str cl_type : string)
        (s : state P) :
  let run := search_causelist P lawyer_name date_str cl_type s in
  let query := FormFields (search_params lawyer_name date_str cl_type) in
  (fst run = Ok None <->
   exists s1 resp w2,
     session_and_captcha P s = (Ok true, s1)
     /\ http_post P CAUSELIST_URL query (world s1) = (Ok resp, w2)
     /\ (PyStr.strip (text resp) = ""
         \/ PyStr.strip (text resp) = "No Record Found"
         \/ PyStr.strip (text resp) = "NA"))
  /\ (forall s1 resp w2,
        session_and_captcha P s = (Ok true, s1) ->
        http_post P CAUSELIST_URL query (world s1) = (Ok resp, w2) ->
        ~ (PyStr.strip (text resp) = ""
           \/ PyStr.strip (text resp) = "No Record Found"
           \/ PyStr.strip (text resp) = "NA") ->
        let body := PyStr.strip (text resp) in
        let url := if PyStr.startswith "http" body then body
                   else BASE_URL ++ "/cishcraj-jp/" ++ PyStr.lstrip_chars "/" body in
        exists r w3,
          http_get P url w2 = (r, w3)
          /\ log (snd run)
             = (log s1 ++ [EvPost CAUSELIST_URL query (Ok resp); EvGet url r])%list
          /\ (forall content,
                r = Ok content -> status_ok content = true ->
                fst run = Ok (Some (text content)))
          /\ (forall content,
                r = Ok content -> status_ok content = false ->
                fst run = Raise (HTTPError (status_code content)))
          /\ (forall e, r = Raise e -> fst run = Raise e))
  /\ (forall s1, session_and_captcha P s = (Ok false, s1) ->
                 run = (Raise captcha_failure, s1))
  /\ is_transport_error captcha_failure = false
  /\ (forall body,
        exists n, body = slashes n ++ PyStr.lstrip_chars "/" body
                  /\ PyStr.startswith "/" (PyStr.lstrip_chars "/" body) = false)
  /\ file_url_of "/causelist/output/123.html"
     = BASE_URL ++ "/cishcraj-jp/causelist/output/123.html".
Proof.
  intros run query.
  assert (Hrun := search_causelist_run P lawyer_name date_str cl_type s).
  fold run query in Hrun.
  split; [|split; [|split; [|split; [reflexivity|split; [apply lstrip_slashes|reflexivity]]]]].
  - split.
    + intros Hnone. rewrite Hrun in Hnone.
      destruct (session_and_captcha P s) as [[[|]|e] s1]; try discriminate.
      unfold session_post in Hnone.
      destruct (http_post P CAUSELIST_URL query (world s1)) as [[resp|e] w2] eqn:Ep;
        try discriminate.
      exists s1, resp, w2. split; [reflexivity|]. split; [exact Ep|].
      apply no_record_iff. revert Hnone.
      destruct (no_record (PyStr.strip (text resp))); [reflexivity|].
      unfold session_get.
      destruct (http_get P _ _) as [[c|e] w3]; try discriminate.
      destruct (status_ok c); discriminate.
    + intros (s1 & resp & w2 & Hs & Hp & Hb).
      rewrite Hrun, Hs. unfold session_post. rewrite Hp.
      apply no_record_iff in Hb. rewrite Hb. reflexivity.
  - intros s1 resp w2 Hs Hp Hb body url.
    assert (Hnr : no_record body = false).
    { destruct (no_record body) eqn:E; [|reflexivity].
      exfalso. apply Hb. now apply no_record_iff. }
    rewrite Hrun, Hs. unfold session_post. rewrite Hp. fold body. rewrite Hnr.
    change (file_url_of body) with url. unfold session_get. cbn [world log].
    destruct (http_get P url w2) as [r w3].
    exists r, w3. split; [reflexivity|].
    split.
    + destruct r as [c|e]; [destruct (status_ok c)|]; cbn [snd log];
        rewrite <- app_assoc; reflexivity.
    + split; [|split].
      * intros content -> Hok. rewrite Hok. reflexivity.
      * intros content -> Hok. rewrite Hok. reflexivity.
      * intros e ->. reflexivity.
  - intros s1 Hs. rewrite Hrun, Hs. reflexivity.
Qed.

Lemma C4_search_outcomes_witness :
  let P := scripted_portal 0 " /causelist/output/123.html " "<table></table>"
                           (Some ["123456"]) (Some ["123456"]) in
  let Q := scripted_portal 1000 "NA" "" (Some ["123456"]) (Some ["123456"]) in
  fst (search_causelist P "sharma" "01/02/2024" "D" (fresh P 0)) = Ok (Some "<table></table>")
  /\ fst (search_causelist Q "sharma" "01/02/2024" "D" (fresh Q 0)) = Raise captcha_failure.
Proof.
  intros P Q. split.
  - destruct (C4_search_outcomes P "sharma" "01/02/2024" "D" (fresh P 0))
      as (_ & H & _).
    edestruct H as (r & w3 & Hget & _ & Hres & _).
    + vm_compute. reflexivity.
    + vm_compute. reflexivity.
    + vm_compute. intros [E|[E|E]]; discriminate E.
    + vm_compute in Hget. injection Hget as <- _.
      apply (Hres _ eq_refl). reflexivity.
  - destruct (C4_search_outcomes Q "sharma" "01/02/2024" "D" (fresh Q 0))
      as (_ & _ & H & _).
    erewrite H; [reflexivity|]. vm_compute. reflexivity.
Defined.

(** C4, as stated, fails.  A body that begins with a URL scheme other than
    "http" is not requested as it is but below [BASE_URL/cishcraj-jp/]; a
    body that begins with "http" without being a URL is requested as it
    is; and when the document request is answered with a 404 the call
    raises instead of returning the content. *)
Lemma C4_counterexample :
  let P := scripted_portal 0 "ftp://host/x.html" "" (Some ["123456"]) None in
  let Q := scripted_portal 0 "httpdocs/x.html" "" (Some ["123456"]) None in
  let R := portal_with_missing_document "/out/7.html" in
  (exists before r,
      log (snd (search_causelist P "sharma" "01/02/2024" "D" (fresh P 0)))
      = (before ++ [EvGet (BASE_URL ++ "/cishcraj-jp/ftp://host/x.html") r])%list)
  /\ (exists before r,
        log (snd (search_causelist Q "sharma" "01/02/2024" "D" (fresh Q 0)))
        = (before ++ [EvGet "httpdocs/x.html" r])%list)
  /\ (exists before,
        log (snd (search_causelist R "sharma" "01/02/2024" "D" (fresh R 0)))
        = (before ++ [EvGet (BASE_URL ++ "/cishcraj-jp/out/7.html")
                            (Ok (mkResponse 404 "Not Found" None))])%list)
  /\ fst (search_causelist R "sharma" "01/02/2024" "D" (fresh R 0))
     = Raise (HTTPError 404).
Proof.
  intros P Q R. split; [|split; [|split]].
  - eexists [_; _; _; _], _. vm_compute. reflexivity.
  - eexists [_; _; _; _], _. vm_compute. reflexivity.
  - eexists [_; _; _; _]. vm_compute. reflexivity.
  - vm_compute. reflexivity.
Qed.

(** ** The row walk *)

Lemma str_getitem_first (s : string) :
  PyStr.truthy s = true -> str_getitem s 0 = Ok (PyStr.first1 s).
Proof. destruct s; [discriminate | reflexivity]. Qed.

Lemma getitem_nth {A : Type} (l : list A) (i : nat) (d : A) :
  i < length l -> getitem l i = Ok (nth i l d).
Proof.
  intros H. unfold getitem. rewrite (nth_error_nth' l d H). reflexivity.
Qed.

(** One iteration of the row loop never raises, and does what the rules
    say. *)
Lemma process_row_step (st : walk) (row : node) :
  process_row st row = Ok (row_step st row).
Proof.
  unfold process_row, row_step, is_blank_or_pagination, is_court_header, is_judge_row,
    is_column_header, has_header_shape, is_boilerplate, is_case_row, has_skip_keyword,
    with_category, case_entry_of, first_cell, lower_text_of, full_text_of.
  fold (cells_of row). fold (cell_texts_of row).
  assert (Hlen : length (cell_texts_of row) = length (cells_of row))
    by (unfold cell_texts_of; apply length_map).
  destruct (cell_texts_of row) as [|c0 rest] eqn:Ect; [reflexivity|].
  set (full := PyStr.strip (PyStr.join " " (c0 :: rest))).
  set (low := PyStr.lower full).
  destruct (PyStr.truthy full) eqn:Hfull; [|reflexivity]. cbn [negb orb].
  destruct (PyStr.contains "page" low && PyStr.contains "of" low); [reflexivity|].
  destruct (PyStr.contains "court no" low || PyStr.contains "court room" low); [reflexivity|].
  destruct (PyStr.contains "hon'ble" low || PyStr.contains "justice" low); [reflexivity|].
  destruct (any_in ["s.no"; "sr.no"; "case type"; "name of advocate"] low); [reflexivity|].
  cbn [hd getitem nth_error rbind andb].
  destruct (length (c0 :: rest) <=? 2) eqn:Hle2; cbn [andb rbind].
  - destruct (PyStr.isdigit (PyStr.first1 c0)) eqn:Hdig; cbn [negb].
    + apply Nat.leb_le in Hle2.
      destruct (3 <=? length (c0 :: rest)) eqn:H3; [apply Nat.leb_le in H3; lia|].
      reflexivity.
    + unfold any_in. cbn [existsb].
      destruct (PyStr.contains "high court" low); [reflexivity|].
      destruct (PyStr.contains "website" low); [reflexivity|].
      destruct (PyStr.contains "causelist" low); [reflexivity|].
      destruct (PyStr.contains "webex" low); [reflexivity|].
      destruct (PyStr.contains "cisco" low); [reflexivity|].
      destruct (PyStr.contains "note:" low); reflexivity.
  - destruct (3 <=? length (c0 :: rest)) eqn:H3; [|reflexivity].
    apply Nat.leb_le in H3. cbn [andb].
    destruct (PyStr.truthy c0) eqn:Hsno; cbn [negb rbind andb].
    + rewrite (str_getitem_first c0 Hsno). cbn [rbind].
      destruct (PyStr.isdigit (PyStr.first1 c0)
                || PyStr.contains "with" (PyStr.lower c0)) eqn:Hcase.
      * rewrite <- negb_orb, Hcase. cbn [negb].
        rewrite (getitem_nth (cells_of row) 2 (Text "")) by lia.
        rewrite (getitem_nth (c0 :: rest) 1 "") by lia.
        reflexivity.
      * rewrite <- negb_orb, Hcase. cbn [negb].
        destruct (any_in ["high court"; "website"; "="; "---"] low); reflexivity.
    + destruct (any_in ["high court"; "website"; "="; "---"] low); reflexivity.
Qed.

Lemma process_rows_fold (rows : list node) :
  forall st, process_rows st rows = Ok (fold_left row_step rows st).
Proof.
  induction rows as [|row rows IH]; intros st; [reflexivity|].
  cbn [process_rows fold_left]. rewrite process_row_step. cbn [rbind]. apply IH.
Qed.

Lemma process_tables_total (tables : list node) :
  forall st, exists st', process_tables st tables = Ok st'.
Proof.
  induction tables as [|t tables IH]; intros st; [eexists; reflexivity|].
  cbn [process_tables]. rewrite process_rows_fold. cbn [rbind]. apply IH.
Qed.

(** A row either leaves the records alone or, as a case row, appends its
    entry. *)
Lemma row_step_records (st : walk) (row : node) :
  records (row_step st row) = records st
  \/ (is_case_row row = true
      /\ records (row_step st row) = (records st ++ [case_entry_of st row])%list).
Proof.
  unfold row_step, with_category.
  destruct (is_blank_or_pagination row); [now left|].
  destruct (is_court_header row); [now left|].
  destruct (is_judge_row row); [now left|].
  destruct (is_column_header row); [now left|].
  destruct (has_header_shape row); [destruct (is_boilerplate row); now left|].
  destruct (is_case_row row); [right; split; reflexivity|].
  destruct ((3 <=? length (cell_texts_of row)) && negb (has_skip_keyword row)); now left.
Qed.




(** ** Removing "With" *)

Lemma contains_With_has_W (t : string) :
  PyStr.contains "With" t = true -> PyStr.mem_char "W" t = true.
Proof.
  induction t as [|c t IH]; [discriminate|].
  cbn [PyStr.contains PyStr.mem_char]. intros H.
  apply orb_prop in H as [H|H].
  - unfold PyStr.startswith in H. cbn [String.prefix] in H.
    destruct (ascii_dec "W" c) as [<-|]; [reflexivity | discriminate].
  - rewrite (IH H). apply orb_true_r.
Qed.

Lemma lstrip_has_char (p : ascii -> bool) (c : ascii) (s : string) :
  PyStr.mem_char c (PyStr.lstrip_by p s) = true -> PyStr.mem_char c s = true.
Proof.
  induction s as [|a s IH]; [discriminate|]. cbn [PyStr.lstrip_by].
  destruct (p a); [|trivial].
  intros H. cbn [PyStr.mem_char]. rewrite (IH H). apply orb_true_r.
Qed.

Lemma rstrip_has_char (p : ascii -> bool) (c : ascii) (s : string) :
  PyStr.mem_char c (PyStr.rstrip_by p s) = true -> PyStr.mem_char c s = true.
Proof.
  induction s as [|a s IH]; [discriminate|]. cbn [PyStr.rstrip_by].
  destruct (PyStr.rstrip_by p s) as [|b r].
  - destruct (p a); [discriminate|]. cbn [PyStr.mem_char].
    rewrite orb_false_r. intros ->. reflexivity.
  - cbn [PyStr.mem_char] in *. intros H. apply orb_prop in H as [H|H].
    + rewrite H. reflexivity.
    + rewrite (IH H). apply orb_true_r.
Qed.

Lemma every_W_drop (n : nat) (s : string) :
  every_W_starts_With s = true -> every_W_starts_With (drop n s) = true.
Proof.
  revert s. induction n as [|n IH]; intros s H; [destruct s; exact H|].
  destruct s as [|c s]; [exact H|]. cbn [drop]. apply IH.
  cbn [every_W_starts_With] in H. apply andb_prop in H. apply H.
Qed.

Lemma replace_With_no_W (s : string) :
  forall skip,
    every_W_starts_With (drop skip s) = true ->
    PyStr.mem_char "W" (PyStr.replace_from "With" "" skip s) = false.
Proof.
  induction s as [|c s IH]; intros skip H; [reflexivity|].
  destruct skip as [|k].
  - cbn [drop every_W_starts_With] in H. apply andb_prop in H as [Hc Hs].
    cbn [PyStr.replace_from].
    destruct (PyStr.startswith "With" (String c s)) eqn:Est.
    + change (PyStr.len "With" - 1) with 3. cbn [append].
      apply IH. now apply every_W_drop.
    + rewrite orb_false_r in Hc. cbn [PyStr.mem_char].
      rewrite (IH 0) by (destruct s; exact Hs).
      rewrite orb_false_r. rewrite Ascii.eqb_sym.
      now apply negb_true_iff in Hc.
  - cbn [PyStr.replace_from]. apply IH. exact H.
Qed.

Lemma serial_without_With (cell : string) :
  every_W_starts_With cell = true ->
  PyStr.contains "With" (PyStr.strip (PyStr.replace "With" "" cell)) = false.
Proof.
  intros H.
  destruct (PyStr.contains "With" (PyStr.strip (PyStr.replace "With" "" cell))) eqn:E;
    [|reflexivity].
  apply contains_With_has_W in E. unfold PyStr.strip in E.
  apply rstrip_has_char, lstrip_has_char in E.
  unfold PyStr.replace in E.
  rewrite (replace_With_no_W cell 0) in E by (destruct cell; exact H).
  discriminate.
Qed.

(** ** Case rows *)

Lemma case_row_cells (row : node) :
  is_case_row row = true ->
  exists c0 c1 c2 more, cells_of row = c0 :: c1 :: c2 :: more.
Proof.
  unfold is_case_row, cell_texts_of. rewrite length_map. intros H.
  apply andb_prop in H as [H _]. apply andb_prop in H as [H _].
  apply Nat.leb_le in H.
  destruct (cells_of row) as [|c0 [|c1 [|c2 more]]]; cbn in H; try lia.
  eauto.
Qed.

Lemma case_row_step (st : walk) (row : node) :
  is_blank_or_pagination row = false ->
  is_court_header row = false ->
  is_judge_row row = false ->
  is_column_header row = false ->
  is_case_row row = true ->
  row_step st row
  = mkWalk (records st ++ [case_entry_of st row])%list
           (current_court st) (current_judge st) (current_category st).
Proof.
  intros H1 H2 H3 H4 H6. unfold row_step. rewrite H1, H2, H3, H4, H6.
  assert (H5 : has_header_shape row = false).
  { unfold has_header_shape. unfold is_case_row in H6.
    apply andb_prop in H6 as [H6 _]. apply andb_prop in H6 as [H6 _].
    apply Nat.leb_le in H6.
    destruct (length (cell_texts_of row) <=? 2) eqn:E; [|reflexivity].
    apply Nat.leb_le in E. lia. }
  rewrite H5. reflexivity.
Qed.

(** C5 (amended). A row that reaches the data-row rule as a case row
    yields one entry: [serial_no] is the first cell after one left-to-right
    pass deleting each "With", then trimmed, and holds no "With" when every
    [W] of the cell begins a "With"; [case_type_no] is the second cell;
    [title] is the single line-break part of the third cell, or the first
    part, " Vs ", and the other parts joined by spaces; [advocates] joins
    the line-break parts of each further cell by ", " and the non-empty
    cells by " | "; court, judge and category are the current ones.  Cell
    "With 1a" gives serial number "1a". *)
Theorem C5_case_entry_fields (st : walk) (row : node) :
  is_blank_or_pagination row = false ->
  is_court_header row = false ->
  is_judge_row row = false ->
  is_column_header row = false ->
  is_case_row row = true ->
  exists entry c0 c1 c2 more,
    process_row st row
    = Ok (mkWalk (records st ++ [entry])%list
                 (current_court st) (current_judge st) (current_category st))
    /\ cells_of row = c0 :: c1 :: c2 :: more
    /\ serial_no entry = PyStr.strip (PyStr.replace "With" "" (get_text_strip c0))
    /\ (every_W_starts_With (get_text_strip c0) = true ->
        PyStr.contains "With" (serial_no entry) = false)
    /\ case_type_no entry = get_text_strip c1
    /\ (forall p, br_parts c2 = [p] -> title entry = p)
    /\ (forall p0 p1 rest,
          br_parts c2 = p0 :: p1 :: rest ->
          title entry = p0 ++ " Vs " ++ PyStr.join " " (p1 :: rest))
    /\ advocates entry
       = PyStr.join " | "
           (filter PyStr.truthy (map (fun c => PyStr.join ", " (br_parts c)) more))
    /\ court_no entry = current_court st
    /\ judge_name entry = current_judge st
    /\ category entry = current_category st
    /\ PyStr.strip (PyStr.replace "With" "" "With 1a") = "1a".
Proof.
  intros H1 H2 H3 H4 H6.
  destruct (case_row_cells row H6) as (c0 & c1 & c2 & more & Hcells).
  exists (case_entry_of st row), c0, c1, c2, more.
  split; [rewrite process_row_step, case_row_step by assumption; reflexivity|].
  split; [exact Hcells|].
  unfold case_entry_of, first_cell, cell_texts_of. rewrite Hcells.
  cbn [map hd nth skipn serial_no case_type_no title advocates court_no judge_name category].
  repeat split.
  - apply serial_without_With.
  - intros p ->. reflexivity.
  - intros p0 p1 rest ->. reflexivity.
Qed.

Lemma C5_case_entry_fields_witness :
  let row := Tag "tr" [td "With 1a"; td " CW/12 ";
                       Tag "td" [Text "Pet"; Tag "br" []; Text "Resp"; Tag "br" []; Text "Ors"];
                       Tag "td" [Text "A1"; Tag "br" []; Text "A2"]; td ""; td "A3"] in
  exists entry,
    process_row walk_start row = Ok (mkWalk ([] ++ [entry]) "" "" "")
    /\ serial_no entry = "1a"
    /\ PyStr.contains "With" (serial_no entry) = false
    /\ case_type_no entry = "CW/12"
    /\ title entry = "Pet Vs Resp Ors"
    /\ advocates entry = "A1, A2 | A3".
Proof.
  intros row.
  destruct (C5_case_entry_fields walk_start row eq_refl eq_refl eq_refl eq_refl eq_refl)
    as (entry & c0 & c1 & c2 & more & Hrow & Hcells & Hs & Hw & Hc & _ & Ht & Ha & _).
  vm_compute in Hcells. injection Hcells as <- <- <- <-.
  exists entry. split; [exact Hrow|].
  split; [rewrite Hs; reflexivity|].
  split; [apply Hw; reflexivity|].
  split; [rewrite Hc; reflexivity|].
  split; [rewrite (Ht "Pet" "Resp" ["Ors"] eq_refl); reflexivity|].
  rewrite Ha. reflexivity.
Defined.

(** C5, as stated, fails: deleting "With" can leave a "With" behind. *)
Lemma C5_counterexample :
  let row := tr ["1WiWithth"; "CW/7"; "A Vs B"] in
  is_blank_or_pagination row = false
  /\ is_court_header row = false
  /\ is_judge_row row = false
  /\ is_column_header row = false
  /\ is_case_row row = true
  /\ exists entry,
       process_row walk_start row = Ok (mkWalk [entry] "" "" "")
       /\ serial_no entry = "1With"
       /\ PyStr.contains "With" (serial_no entry) = true.
Proof.
  intros row. repeat split; try reflexivity.
  eexists. split; [vm_compute; reflexivity|]. split; reflexivity.
Qed.

(** ** Rows left over by rules 1 to 6 *)

(** C8 (amended). A row none of rules 1 to 6 applies to becomes the
    current category exactly when it has at least three cells and its
    lower-cased text holds none of "high court", "website", "=" and "---";
    with a skip keyword, or with fewer than three cells, the row changes
    nothing. *)
Theorem C8_leftover_rows (st : walk) (row : node) :
  unclassified row = true ->
  PyStr.truthy (full_text_of row) = true
  /\ (3 <= length (cell_texts_of row) -> has_skip_keyword row = false ->
      process_row st row = Ok (with_category st (full_text_of row)))
  /\ (3 <= length (cell_texts_of row) -> has_skip_keyword row = true ->
      process_row st row = Ok st)
  /\ (length (cell_texts_of row) < 3 -> process_row st row = Ok st).
Proof.
  unfold unclassified. intros H.
  repeat (apply andb_prop in H as [H ?]).
  repeat match goal with Hn : negb _ = true |- _ => apply negb_true_iff in Hn end.
  rename H into H1, H4 into H2, H3 into H3', H2 into H4', H1 into H5, H0 into H6.
  assert (Hstep : process_row st row = Ok
            (if has_header_shape row then st
             else if (3 <=? length (cell_texts_of row)) && negb (has_skip_keyword row)
                  then with_category st (full_text_of row) else st)).
  { rewrite process_row_step. unfold row_step. rewrite H1, H2, H3', H4', H6.
    unfold is_category_header in H5.
    destruct (has_header_shape row); [|reflexivity].
    cbn [andb] in H5. apply negb_false_iff in H5. rewrite H5. reflexivity. }
  assert (Hshape : 3 <= length (cell_texts_of row) -> has_header_shape row = false).
  { intros H3. unfold has_header_shape.
    destruct (length (cell_texts_of row) <=? 2) eqn:E; [|reflexivity].
    apply Nat.leb_le in E. lia. }
  split; [|split; [|split]].
  - unfold is_blank_or_pagination in H1.
    destruct (cell_texts_of row); [discriminate|].
    apply orb_false_iff in H1 as [H1 _]. now apply negb_false_iff in H1.
  - intros H3 Hskip. rewrite Hstep, (Hshape H3), Hskip.
    apply Nat.leb_le in H3. rewrite H3. reflexivity.
  - intros H3 Hskip. rewrite Hstep, (Hshape H3), Hskip.
    rewrite andb_false_r. reflexivity.
  - intros Hlt. rewrite Hstep.
    destruct (has_header_shape row); [reflexivity|].
    destruct (3 <=? length (cell_texts_of row)) eqn:E; [|reflexivity].
    apply Nat.leb_le in E. lia.
Qed.

Lemma C8_leftover_rows_witness :
  process_row (mkWalk [] "Court No : 1" "" "FOR ADMISSION") (tr ["abc"; "def"; "ghi"])
  = Ok (mkWalk [] "Court No : 1" "" "abc def ghi")
  /\ process_row walk_start (tr ["abc"; "x = y"; "ghi"]) = Ok walk_start
  /\ process_row walk_start (tr ["1"; "misc"]) = Ok walk_start.
Proof.
  split; [|split].
  - destruct (C8_leftover_rows (mkWalk [] "Court No : 1" "" "FOR ADMISSION")
                (tr ["abc"; "def"; "ghi"]) eq_refl) as (_ & H & _).
    apply H; [vm_compute; lia | reflexivity].
  - destruct (C8_leftover_rows walk_start (tr ["abc"; "x = y"; "ghi"]) eq_refl)
      as (_ & _ & H & _).
    apply H; [vm_compute; lia | reflexivity].
  - destruct (C8_leftover_rows walk_start (tr ["1"; "misc"]) eq_refl) as (_ & _ & _ & H).
    apply H. vm_compute. lia.
Defined.

(** C8, as stated, fails: a two-cell row starting with a digit matches
    none of rules 1 to 6, is not blank and holds no skip keyword, and the
    current category stays what it was. *)
Lemma C8_counterexample :
  let row := tr ["1"; "misc"] in
  let st := mkWalk [] "Court No : 1" "" "FOR ADMISSION" in
  unclassified row = true
  /\ full_text_of row = "1 misc"
  /\ PyStr.truthy (full_text_of row) = true
  /\ has_skip_keyword row = false
  /\ process_row st row = Ok st
  /\ current_category st <> full_text_of row.
Proof.
  intros row st. repeat split; try reflexivity. discriminate.
Qed.

(** ** Dicts that list a function over their keys *)

Lemma existsb_eqb_In (x : string) (l : list string) :
  existsb (String.eqb x) l = true <-> In x l.
Proof.
  rewrite existsb_exists. split.
  - intros (y & Hy & E). apply String.eqb_eq in E. now subst.
  - intros H. exists x. split; [exact H | apply String.eqb_refl].
Qed.

Lemma existsb_eqb_not_In (x : string) (l : list string) :
  existsb (String.eqb x) l = false <-> ~ In x l.
Proof.
  rewrite <- existsb_eqb_In. destruct (existsb (String.eqb x) l); split; congruence.
Qed.

Section DictFacts.
Context {V : Type}.
Variable f : string -> V.

Lemma dict_mem_map (k : string) (ks : list string) :
  dict_mem k (map (fun k' => (k', f k')) ks) = existsb (String.eqb k) ks.
Proof.
  induction ks as [|a ks IH]; [reflexivity|]. cbn [map dict_mem existsb].
  rewrite IH, (String.eqb_sym a k). reflexivity.
Qed.

Lemma dict_getitem_map (k : string) (ks : list string) :
  In k ks -> dict_getitem k (map (fun k' => (k', f k')) ks) = Ok (f k).
Proof.
  induction ks as [|a ks IH]; [intros []|]. cbn [map dict_getitem].
  destruct (String.eqb_spec a k) as [->|Hne]; [reflexivity|].
  intros [E|H]; [contradiction | exact (IH H)].
Qed.

Lemma dict_setitem_present (k : string) (v : V) (ks : list string) :
  NoDup ks -> In k ks ->
  dict_setitem k v (map (fun k' => (k', f k')) ks)
  = map (fun k' => (k', if String.eqb k' k then v else f k')) ks.
Proof.
  induction ks as [|a ks IH]; [intros _ []|]. intros Hnd Hin.
  inversion Hnd as [|? ? Hni Hnd']; subst. cbn [map dict_setitem].
  destruct (String.eqb_spec a k) as [->|Hne].
  - f_equal. apply map_ext_in. intros k' Hk'.
    destruct (String.eqb_spec k' k) as [->|]; [contradiction | reflexivity].
  - f_equal. destruct Hin as [E|Hin]; [contradiction|]. exact (IH Hnd' Hin).
Qed.

Lemma dict_getitem_last (k : string) (v : V) (d : list (string * V)) :
  dict_mem k d = false -> dict_getitem k (d ++ [(k, v)]) = Ok v.
Proof.
  induction d as [|[a x] d IH]; cbn [app dict_mem dict_getitem].
  - now rewrite String.eqb_refl.
  - intros H. apply orb_false_iff in H as [Ha Hd]. rewrite Ha. exact (IH Hd).
Qed.

Lemma dict_setitem_last (k : string) (v v0 : V) (d : list (string * V)) :
  dict_mem k d = false -> dict_setitem k v (d ++ [(k, v0)]) = (d ++ [(k, v)])%list.
Proof.
  induction d as [|[a x] d IH]; cbn [app dict_mem dict_setitem].
  - now rewrite String.eqb_refl.
  - intros H. apply orb_false_iff in H as [Ha Hd]. rewrite Ha, (IH Hd). reflexivity.
Qed.

Lemma dict_setitem_new (k : string) (v : V) (d : list (string * V)) :
  dict_mem k d = false -> dict_setitem k v d = (d ++ [(k, v)])%list.
Proof.
  induction d as [|[a x] d IH]; cbn [app dict_mem dict_setitem]; [reflexivity|].
  intros H. apply orb_false_iff in H as [Ha Hd]. rewrite Ha, (IH Hd). reflexivity.
Qed.

End DictFacts.

(** ** Grouping step by step *)

Lemma in_category_snoc (c : string) (es : list CaseEntry) (e : CaseEntry) :
  in_category c (es ++ [e])
  = (in_category c es ++ if String.eqb (category_key e) c then [e] else [])%list.
Proof. unfold in_category. rewrite filter_app. reflexivity. Qed.

Lemma in_court_snoc (k : string) (l : list CaseEntry) (e : CaseEntry) :
  in_court k (l ++ [e])
  = (in_court k l ++ if String.eqb (court_key e) k then [e] else [])%list.
Proof. unfold in_court. rewrite filter_app. reflexivity. Qed.

Lemma in_category_none (c : string) (es : list CaseEntry) :
  ~ In c (map category_key es) -> in_category c es = [].
Proof.
  intros H. unfold in_category. induction es as [|e es IH]; [reflexivity|].
  cbn [filter]. destruct (String.eqb_spec (category_key e) c) as [E|_].
  - exfalso. apply H. left. exact E.
  - apply IH. intros Hin. apply H. right. exact Hin.
Qed.

Lemma in_court_none (k : string) (l : list CaseEntry) :
  ~ In k (map court_key l) -> in_court k l = [].
Proof.
  intros H. unfold in_court. induction l as [|e l IH]; [reflexivity|].
  cbn [filter]. destruct (String.eqb_spec (court_key e) k) as [E|_].
  - exfalso. apply H. left. exact E.
  - apply IH. intros Hin. apply H. right. exact Hin.
Qed.

Lemma in_court_some (k : string) (l : list CaseEntry) :
  In k (map court_key l) -> exists e rest, in_court k l = e :: rest.
Proof.
  intros H. apply in_map_iff in H as (e & E & He).
  assert (Hin : In e (in_court k l)).
  { apply filter_In. split; [exact He|]. rewrite E. apply String.eqb_refl. }
  destruct (in_court k l) as [|x rest]; [destruct Hin | eauto].
Qed.

Lemma first_seen_map_snoc {A : Type} (key : A -> string) (l : list A) (x : A) :
  first_seen (map key (l ++ [x]))
  = if existsb (String.eqb (key x)) (first_seen (map key l))
    then first_seen (map key l)
    else (first_seen (map key l) ++ [key x])%list.
Proof.
  rewrite map_app. cbn [map]. rewrite first_seen_snoc.
  replace (existsb (String.eqb (key x)) (first_seen (map key l)))
    with (existsb (String.eqb (key x)) (map key l)); [reflexivity|].
  apply eq_true_iff_eq. rewrite !existsb_eqb_In. symmetry. apply first_seen_In.
Qed.

Lemma categories_step (es : list CaseEntry) (e : CaseEntry) :
  let cat := category_key e in
  let cats := categories_spec es in
  let cats1 := if negb (dict_mem cat cats) then dict_setitem cat [] cats else cats in
  dict_getitem cat cats1 = Ok (in_category cat es)
  /\ dict_setitem cat (in_category cat es ++ [e])%list cats1 = categories_spec (es ++ [e]).
Proof.
  intros cat cats cats1. subst cats1 cats. unfold categories_spec.
  rewrite dict_mem_map, (first_seen_map_snoc category_key es e). fold cat.
  set (ks := first_seen (map category_key es)).
  assert (Hnd : NoDup ks) by apply first_seen_NoDup.
  destruct (existsb (String.eqb cat) ks) eqn:Hmem; cbn [negb].
  - apply existsb_eqb_In in Hmem.
    split; [apply (dict_getitem_map (fun c => in_category c es)); exact Hmem|].
    rewrite (dict_setitem_present (fun c => in_category c es)) by assumption.
    apply map_ext. intros c. rewrite in_category_snoc. fold cat.
    rewrite (String.eqb_sym cat c).
    destruct (String.eqb_spec c cat) as [->|]; [reflexivity | now rewrite app_nil_r].
  - assert (Hni : ~ In cat ks) by (now apply existsb_eqb_not_In).
    assert (Hnone : in_category cat es = []).
    { apply in_category_none. intros H. apply Hni. unfold ks. now apply first_seen_In. }
    assert (Hm : dict_mem cat (map (fun c => (c, in_category c es)) ks) = false)
      by (rewrite dict_mem_map; exact Hmem).
    rewrite (dict_setitem_new cat [] _ Hm).
    split; [rewrite (dict_getitem_last cat [] _ Hm), Hnone; reflexivity|].
    rewrite (dict_setitem_last cat _ [] _ Hm), map_app. cbn [map]. f_equal.
    + apply map_ext_in. intros c Hc. rewrite in_category_snoc. fold cat.
      destruct (String.eqb_spec cat c) as [<-|]; [contradiction | now rewrite app_nil_r].
    + rewrite in_category_snoc. fold cat. rewrite String.eqb_refl. reflexivity.
Qed.

Lemma group_step_spec (l : list CaseEntry) (e : CaseEntry) :
  group_step (group_spec l) e = Ok (group_spec (l ++ [e])).
Proof.
  unfold group_step, group_spec.
  rewrite dict_mem_map, (first_seen_map_snoc court_key l e).
  set (k := court_key e). set (ks := first_seen (map court_key l)).
  assert (Hnd : NoDup ks) by apply first_seen_NoDup.
  destruct (categories_step (in_court k l) e) as (Hget & Hset).
  assert (Hother : forall k', k' <> k -> section_spec k' (l ++ [e]) = section_spec k' l).
  { intros k' Hne. unfold section_spec. rewrite in_court_snoc. fold k.
    destruct (String.eqb_spec k k'); [congruence | now rewrite app_nil_r]. }
  destruct (existsb (String.eqb k) ks) eqn:Hmem; cbn [negb].
  - apply existsb_eqb_In in Hmem.
    rewrite (dict_getitem_map (fun k' => section_spec k' l)) by exact Hmem.
    cbn [rbind].
    change (categories (section_spec k l)) with (categories_spec (in_court k l)).
    rewrite Hget. cbn [rbind]. rewrite Hset.
    rewrite (dict_setitem_present (fun k' => section_spec k' l)) by assumption.
    f_equal. apply map_ext. intros k'.
    destruct (String.eqb_spec k' k) as [->|Hne]; [|now rewrite Hother].
    f_equal. unfold section_spec. cbn [section_court_no section_judge_name].
    rewrite in_court_snoc. fold k. rewrite String.eqb_refl.
    destruct (in_court_some k l) as (x & rest & ->);
      [exact (proj1 (first_seen_In _ _) Hmem) | reflexivity].
  - assert (Hni : ~ In k ks) by (now apply existsb_eqb_not_In).
    assert (Hnone : in_court k l = []).
    { apply in_court_none. intros H. apply Hni. unfold ks. now apply first_seen_In. }
    assert (Hm : dict_mem k (map (fun k' => (k', section_spec k' l)) ks) = false)
      by (rewrite dict_mem_map; exact Hmem).
    rewrite (dict_setitem_new k _ _ Hm), (dict_getitem_last k _ _ Hm).
    cbn [rbind categories section_court_no section_judge_name].
    rewrite Hnone in Hget, Hset. change (categories_spec []) with (@nil (string * list CaseEntry)) in Hget, Hset.
    rewrite Hget. cbn [rbind]. rewrite Hset.
    rewrite (dict_setitem_last k _ _ _ Hm), map_app. cbn [map]. f_equal. f_equal.
    + apply map_ext_in. intros k' Hk'. rewrite Hother; [reflexivity|].
      intros ->. contradiction.
    + unfold section_spec. rewrite in_court_snoc, Hnone. fold k.
      rewrite String.eqb_refl. reflexivity.
Qed.

Lemma group_loop_spec (l : list CaseEntry) :
  forall l0, group_loop (group_spec l0) l = Ok (group_spec (l0 ++ l)).
Proof.
  induction l as [|e l IH]; intros l0; cbn [group_loop].
  - now rewrite app_nil_r.
  - rewrite group_step_spec. cbn [rbind]. rewrite IH, <- app_assoc. reflexivity.
Qed.

(** The grouping loop never raises and builds the grouping the
    specification describes. *)
Lemma group_sections_spec (entries : list CaseEntry) :
  group_sections entries = Ok (group_spec entries).
Proof. exact (group_loop_spec entries []). Qed.

(** ** Every entry is grouped once *)

Lemma filter_or_length {A : Type} (p q : A -> bool) (l : list A) :
  (forall e, p e = true -> q e = false) ->
  length (filter (fun e => p e || q e) l) = length (filter p l) + length (filter q l).
Proof.
  intros Hd. induction l as [|e l IH]; [reflexivity|]. cbn [filter].
  destruct (p e) eqn:Hp; cbn [orb].
  - rewrite (Hd e Hp). cbn [length]. now rewrite IH.
  - destruct (q e); cbn [length]; rewrite IH; lia.
Qed.

Lemma filter_all {A : Type} (p : A -> bool) (l : list A) :
  (forall e, In e l -> p e = true) -> filter p l = l.
Proof.
  induction l as [|e l IH]; intros H; [reflexivity|]. cbn [filter].
  rewrite (H e (or_introl eq_refl)). f_equal. apply IH. intros x Hx. apply H. now right.
Qed.

Lemma partition_length_keys {A : Type} (key : A -> string) (l : list A) (ks : list string) :
  NoDup ks ->
  length (concat (map (fun k => filter (fun e => String.eqb (key e) k) l) ks))
  = length (filter (fun e => existsb (String.eqb (key e)) ks) l).
Proof.
  induction ks as [|k ks IH]; intros Hnd; cbn [map concat existsb].
  - induction l as [|e l IHl]; [reflexivity | exact IHl].
  - inversion Hnd as [|? ? Hni Hnd']; subst.
    rewrite length_app, (IH Hnd'), filter_or_length; [reflexivity|].
    intros e He. apply String.eqb_eq in He. subst k.
    now apply existsb_eqb_not_In.
Qed.

Lemma partition_length {A : Type} (key : A -> string) (l : list A) :
  length (concat (map (fun k => filter (fun e => String.eqb (key e) k) l)
                      (first_seen (map key l))))
  = length l.
Proof.
  rewrite partition_length_keys by apply first_seen_NoDup.
  rewrite filter_all; [reflexivity|].
  intros e He. apply existsb_eqb_In, first_seen_In, in_map, He.
Qed.

Lemma length_concat_map {A B : Type} (g h : A -> list B) (l : list A) :
  (forall a, length (g a) = length (h a)) ->
  length (concat (map g l)) = length (concat (map h l)).
Proof.
  intros H. induction l as [|a l IH]; [reflexivity|].
  cbn [map concat]. now rewrite !length_app, H, IH.
Qed.

Lemma grouped_entries_length (entries : list CaseEntry) :
  length (grouped_entries (group_spec entries)) = length entries.
Proof.
  unfold grouped_entries, group_spec. rewrite map_map. cbn [snd].
  rewrite <- (partition_length court_key entries).
  apply length_concat_map. intros k.
  unfold section_spec, categories_spec. cbn [categories].
  rewrite map_map. cbn [snd].
  apply (partition_length category_key (in_court k entries)).
Qed.

Lemma group_spec_In (entries : list CaseEntry) (k : string) (sec : CourtSection) :
  In (k, sec) (group_spec entries) <->
  In k (map court_key entries) /\ sec = section_spec k entries.
Proof.
  unfold group_spec. rewrite in_map_iff. split.
  - intros (k' & E & Hk'). injection E as -> <-.
    split; [exact (proj1 (first_seen_In _ _) Hk') | reflexivity].
  - intros (Hk & ->). exists k. split; [reflexivity|].
    exact (proj2 (first_seen_In _ _) Hk).
Qed.

Lemma categories_spec_In (es : list CaseEntry) (c : string) (cases : list CaseEntry) :
  In (c, cases) (categories_spec es) <->
  In c (map category_key es) /\ cases = in_category c es.
Proof.
  unfold categories_spec. rewrite in_map_iff. split.
  - intros (c' & E & Hc'). injection E as -> <-.
    split; [exact (proj1 (first_seen_In _ _) Hc') | reflexivity].
  - intros (Hc & ->). exists c. split; [reflexivity|].
    exact (proj2 (first_seen_In _ _) Hc).
Qed.

Lemma map_fst_keyed {V : Type} (f : string -> V) (ks : list string) :
  map fst (map (fun k => (k, f k)) ks) = ks.
Proof. rewrite map_map. cbn [fst]. apply map_id. Qed.

Lemma section_spec_first (entries : list CaseEntry) (k : string) :
  In k (map court_key entries) ->
  exists first rest before after,
    in_court k entries = first :: rest
    /\ entries = (before ++ first :: after)%list
    /\ in_court k before = []
    /\ court_key first = k
    /\ section_court_no (section_spec k entries) = court_no first
    /\ section_judge_name (section_spec k entries) = judge_name first.
Proof.
  intros Hk. destruct (in_court_some k entries Hk) as (first & rest & E).
  unfold in_court in E.
  destruct (filter_split _ entries [] rest first E) as (before & after & El & Hb & _).
  exists first, rest, before, after.
  split; [exact E|]. split; [exact El|]. split; [exact Hb|].
  split.
  - assert (Hin : In first (filter (fun e => String.eqb (court_key e) k) entries))
      by (rewrite E; now left).
    apply filter_In in Hin as [_ Hin]. now apply String.eqb_eq.
  - unfold section_spec, in_court. rewrite E. split; reflexivity.
Qed.

Lemma or_else_nonempty (x d : string) : x <> "" -> or_else x d = x.
Proof. destruct x; [congruence | reflexivity]. Qed.

Lemma group_spec_lands (entries : list CaseEntry) (e : CaseEntry) :
  In e entries ->
  exists sec cases,
    In (court_key e, sec) (group_spec entries)
    /\ In (category_key e, cases) (categories sec)
    /\ In e cases.
Proof.
  intros He.
  exists (section_spec (court_key e) entries),
         (in_category (category_key e) (in_court (court_key e) entries)).
  assert (Hec : In e (in_court (court_key e) entries)).
  { apply filter_In. split; [exact He | apply String.eqb_refl]. }
  split; [apply group_spec_In; split; [now apply in_map | reflexivity]|].
  split.
  - apply categories_spec_In. split; [now apply in_map | reflexivity].
  - apply filter_In. split; [exact Hec | apply String.eqb_refl].
Qed.

(** C6. [group_by_court] returns one section per distinct court key (the
    court number, or "Unknown" for an empty one), in the order the keys are
    first seen; within a section the category names are in the order they
    are first seen among its entries, and each category lists its entries
    in input order.  Every input entry is in the category of its own key
    within the section of its own key, and nowhere else. *)
Theorem C6_group_by_court_order (entries : list CaseEntry) :
  exists sections,
    group_sections entries = Ok sections
    /\ group_by_court entries = Ok (map snd sections)
    /\ map fst sections = first_seen (map court_key entries)
    /\ map (fun sec => or_else (section_court_no sec) "Unknown") (map snd sections)
       = first_seen (map court_key entries)
    /\ NoDup (map fst sections)
    /\ (forall k sec, In (k, sec) sections ->
          map fst (categories sec) = first_seen (map category_key (in_court k entries))
          /\ NoDup (map fst (categories sec))
          /\ forall c cases, In (c, cases) (categories sec) ->
               cases = in_category c (in_court k entries))
    /\ (forall e, In e entries ->
          exists sec cases,
            In (court_key e, sec) sections
            /\ In (category_key e, cases) (categories sec)
            /\ In e cases)
    /\ (forall k sec c cases e,
          In (k, sec) sections -> In (c, cases) (categories sec) -> In e cases ->
          court_key e = k /\ category_key e = c)
    /\ length (grouped_entries sections) = length entries
    /\ (forall e, court_no e = "" -> court_key e = "Unknown")
    /\ (forall e, court_no e <> "" -> court_key e = court_no e).
Proof.
  exists (group_spec entries).
  split; [apply group_sections_spec|].
  split; [unfold group_by_court; rewrite group_sections_spec; reflexivity|].
  split; [apply map_fst_keyed|].
  split.
  { unfold group_spec. rewrite !map_map. cbn [snd].
    rewrite <- (map_id (first_seen (map court_key entries))) at 2.
    apply map_ext_in. intros k Hk. apply (proj1 (first_seen_In _ _)) in Hk.
    destruct (section_spec_first entries k Hk) as (first & _ & _ & _ & _ & _ & _ & Hkey & -> & _).
    exact Hkey. }
  split; [unfold group_spec; rewrite map_fst_keyed; apply first_seen_NoDup|].
  split.
  { intros k sec Hin. apply group_spec_In in Hin as (_ & ->).
    unfold section_spec. cbn [categories].
    split; [apply map_fst_keyed|].
    split; [unfold categories_spec; rewrite map_fst_keyed; apply first_seen_NoDup|].
    intros c cases Hc. now apply categories_spec_In in Hc. }
  split.
  { intros e He. now apply group_spec_lands. }
  split.
  { intros k sec c cases e Hs Hc He.
    apply group_spec_In in Hs as (_ & ->).
    apply categories_spec_In in Hc as (_ & ->).
    apply filter_In in He as (He & Hcat). apply filter_In in He as (_ & Hkey).
    split; now apply String.eqb_eq. }
  split; [apply grouped_entries_length|].
  split.
  - intros e He. unfold court_key. rewrite He. reflexivity.
  - intros e He. unfold court_key. now apply or_else_nonempty.
Qed.

Lemma C6_group_by_court_order_witness :
  let e1 := mkCaseEntry "1" "CW/1" "A Vs B" "X" "Court No : 2" "J2" "FOR ORDERS" in
  let e2 := mkCaseEntry "2" "CW/2" "C Vs D" "Y" "" "" "" in
  let e3 := mkCaseEntry "3" "CW/3" "E Vs F" "Z" "Court No : 2" "J9" "FOR ADMISSION" in
  let e4 := mkCaseEntry "4" "CW/4" "G Vs H" "W" "Court No : 2" "J2" "FOR ORDERS" in
  exists s1 s2,
    group_by_court [e1; e2; e3; e4] = Ok [s1; s2]
    /\ categories s1 = [("FOR ORDERS", [e1; e4]); ("FOR ADMISSION", [e3])]
    /\ categories s2 = [("General", [e2])]
    /\ map fst (categories s1)
       = first_seen (map category_key (in_court "Court No : 2" [e1; e2; e3; e4]))
    /\ (forall c cases, In (c, cases) (categories s2) ->
          cases = in_category c (in_court "Unknown" [e1; e2; e3; e4])).
Proof.
  intros e1 e2 e3 e4.
  destruct (C6_group_by_court_order [e1; e2; e3; e4])
    as (sections & Hs & Hg & _ & _ & _ & Hcat & _).
  vm_compute in Hs. injection Hs as <-.
  eexists. eexists. split; [exact Hg|].
  split; [reflexivity|]. split; [reflexivity|]. split.
  - apply (Hcat "Court No : 2"). left. reflexivity.
  - apply (Hcat "Unknown"). right. left. reflexivity.
Defined.

(** C10. The header of a section is that of the first input entry of its
    group: its [court_no] and [judge_name] are copied from that entry and
    later entries of the group do not change them.  When that entry has an
    empty court number the section sits under the key "Unknown" and still
    carries the empty string. *)
Theorem C10_section_header (entries : list CaseEntry) :
  exists sections,
    group_sections entries = Ok sections
    /\ group_by_court entries = Ok (map snd sections)
    /\ forall k sec, In (k, sec) sections ->
         exists first rest before after,
           in_court k entries = first :: rest
           /\ entries = (before ++ first :: after)%list
           /\ in_court k before = []
           /\ section_court_no sec = court_no first
           /\ section_judge_name sec = judge_name first
           /\ (court_no first = "" -> k = "Unknown" /\ section_court_no sec = "").
Proof.
  exists (group_spec entries).
  split; [apply group_sections_spec|].
  split; [unfold group_by_court; rewrite group_sections_spec; reflexivity|].
  intros k sec Hin. apply group_spec_In in Hin as (Hk & ->).
  destruct (section_spec_first entries k Hk)
    as (first & rest & before & after & E & El & Hb & Hkey & Hc & Hj).
  exists first, rest, before, after.
  repeat (split; [assumption|]).
  intros Hempty. split.
  - rewrite <- Hkey. unfold court_key. rewrite Hempty. reflexivity.
  - rewrite Hc. exact Hempty.
Qed.

Lemma C10_section_header_witness :
  let e1 := mkCaseEntry "1" "CW/1" "A Vs B" "X" "" "JUSTICE P" "" in
  let e2 := mkCaseEntry "2" "CW/2" "C Vs D" "Y" "Unknown" "JUSTICE Q" "" in
  exists sec,
    group_by_court [e1; e2] = Ok [sec]
    /\ section_court_no sec = ""
    /\ section_judge_name sec = "JUSTICE P".
Proof.
  intros e1 e2.
  destruct (C10_section_header [e1; e2]) as (sections & Hs & Hg & H).
  vm_compute in Hs. injection Hs as <-.
  eexists. split; [exact Hg|].
  destruct (H "Unknown" _ (or_introl eq_refl))
    as (first & rest & before & after & E & _ & _ & Hc & Hj & _).
  vm_compute in E. injection E as <- _.
  split; [exact Hc | exact Hj].
Defined.

(** C9 (amended). An entry produced while no category header is active has
    the empty string as its category; [group_by_court] files such an entry
    under the category key "General", and files every entry with an empty
    court number in the section keyed "Unknown". *)
Theorem C9_defaults :
  (forall st row st',
      process_row st row = Ok st' -> current_category st = "" ->
      forall e, In e (records st') -> In e (records st) \/ category e = "")
  /\ (forall entries e,
        In e entries -> category e = "" ->
        exists sections sec cases,
          group_sections entries = Ok sections
          /\ In (court_key e, sec) sections
          /\ In ("General", cases) (categories sec)
          /\ In e cases)
  /\ (forall entries e,
        In e entries -> court_no e = "" ->
        exists sections sec c cases,
          group_sections entries = Ok sections
          /\ In ("Unknown", sec) sections
          /\ In (c, cases) (categories sec)
          /\ In e cases).
Proof.
  split; [|split].
  - intros st row st' Hrow Hcat e He.
    rewrite process_row_step in Hrow. injection Hrow as <-.
    destruct (row_step_records st row) as [Hrec|(_ & Hrec)]; rewrite Hrec in He;
      [now left|].
    apply in_app_or in He as [He|[<-|[]]]; [now left | right; exact Hcat].
  - intros entries e He Hcat.
    destruct (group_spec_lands entries e He) as (sec & cases & H1 & H2 & H3).
    exists (group_spec entries), sec, cases.
    split; [apply group_sections_spec|]. split; [exact H1|].
    split; [|exact H3].
    unfold category_key in H2. rewrite Hcat in H2. exact H2.
  - intros entries e He Hcourt.
    destruct (group_spec_lands entries e He) as (sec & cases & H1 & H2 & H3).
    exists (group_spec entries), sec, (category_key e), cases.
    split; [apply group_sections_spec|].
    split; [|split; assumption].
    unfold court_key in H1. rewrite Hcourt in H1. exact H1.
Qed.

Lemma C9_defaults_witness :
  let row := tr ["1"; "CRLMP/123"; "Foo Vs Bar"; "ADV A, ADV B"] in
  let e := mkCaseEntry "1" "CRLMP/123" "Foo Vs Bar" "ADV A, ADV B" "" "" "" in
  (In e (records walk_start) \/ category e = "")
  /\ (exists sections sec cases,
        group_sections [e] = Ok sections
        /\ In (court_key e, sec) sections
        /\ In ("General", cases) (categories sec)
        /\ In e cases)
  /\ (exists sections sec c cases,
        group_sections [e] = Ok sections
        /\ In ("Unknown", sec) sections
        /\ In (c, cases) (categories sec)
        /\ In e cases).
Proof.
  intros row e. destruct C9_defaults as (H1 & H2 & H3).
  split; [|split].
  - apply (H1 walk_start row (mkWalk [e] "" "" "")); [reflexivity | reflexivity | now left].
  - apply H2; [now left | reflexivity].
  - apply H3; [now left | reflexivity].
Defined.

(** C9, as stated, fails: the parser stores the empty string, not
    "General", as the category of an entry met before any category header. *)
Lemma C9_counterexample :
  exists e,
    parse_soup (document [tr ["1"; "CRLMP/123"; "Foo Vs Bar"; "ADV A, ADV B"]]) = Ok [e]
    /\ category e = ""
    /\ category e <> "General".
Proof.
  eexists. split; [vm_compute; reflexivity|]. split; [reflexivity | discriminate].
Qed.

(** ** Worked examples *)

Example parse_one_row :
  parse_soup (document [tr ["1"; "CRLMP/123"; "Foo Vs Bar"; "ADV A, ADV B"]])
  = Ok [mkCaseEntry "1" "CRLMP/123" "Foo Vs Bar" "ADV A, ADV B" "" "" ""].
Proof. vm_compute. reflexivity. Qed.

Example parse_under_headers :
  parse_soup
    (document [tr ["Court No : 2"]; tr ["HON'BLE MR. JUSTICE A"; "HON'BLE MR. JUSTICE B"];
               tr ["S.No."; "Case Type"; "Title"; "Name of Advocate"];
               tr ["FOR ADMISSION"];
               tr ["With 1a"; "CW/77"; "P Vs R"; "ADV C"];
               tr ["Page 1 of 3"]])
  = Ok [mkCaseEntry "1a" "CW/77" "P Vs R" "ADV C" "Court No : 2"
                    "HON'BLE MR. JUSTICE A | HON'BLE MR. JUSTICE B" "FOR ADMISSION"].
Proof. vm_compute. reflexivity. Qed.

Example search_sentinels :
  map (fun body => no_record (PyStr.strip body)) [""; "No Record Found"; " NA
"; "N/A"]
  = [true; true; true; false].
Proof. reflexivity. Qed.

Example second_attempt_succeeds :
  let P := scripted_portal 4 "" "" (Some ["123456"]) (Some ["654321"]) in
  let run := solve_and_verify P (fresh P 0) in
  fst run = Ok true
  /\ fetches (log (snd run)) = 2
  /\ submitted (log (snd run))
     = [RawBody "captcha=123456"; RawBody "captcha=654321"; RawBody "captcha=123456"].
Proof. vm_compute. repeat split. Qed.

Example budget_exhausted :
  let P := scripted_portal 1000 "" "" (Some ["123456"; "12345"]) None in
  let run := solve_and_verify P (fresh P 0) in
  fst run = Ok false /\ fetches (log (snd run)) = 10.
Proof. vm_compute. split; reflexivity. Qed.

(* ===================================================================== *)
(** * Further properties *)
(* ===================================================================== *)

(** ** Characters *)

Lemma isspace_lower (c : ascii) : PyStr.isspace (PyStr.lower_char c) = PyStr.isspace c.
Proof. destruct c as [[] [] [] [] [] [] [] []]; reflexivity. Qed.

Lemma digit_lower (c : ascii) : PyStr.isdigit_char c = true -> PyStr.lower_char c = c.
Proof. destruct c as [[] [] [] [] [] [] [] []]; intros H; try discriminate H; reflexivity. Qed.

Lemma digit_not_space (c : ascii) : PyStr.isdigit_char c = true -> PyStr.isspace c = false.
Proof. destruct c as [[] [] [] [] [] [] [] []]; intros H; try discriminate H; reflexivity. Qed.

Lemma space_is_space (c : ascii) : Ascii.eqb c " " = true -> PyStr.isspace c = true.
Proof. intros H. apply Ascii.eqb_eq in H. subst c. reflexivity. Qed.

(** ** Strings *)

Lemma append_empty_r (s : string) : s ++ "" = s.
Proof. induction s as [|c s IH]; [reflexivity | cbn; now rewrite IH]. Qed.

Lemma append_assoc (a b c : string) : (a ++ b) ++ c = a ++ (b ++ c).
Proof. induction a as [|x a IH]; [reflexivity | cbn; now rewrite IH]. Qed.

Lemma all_digits_app (a b : string) :
  PyStr.all_digits (a ++ b) = PyStr.all_digits a && PyStr.all_digits b.
Proof.
  induction a as [|c a IH]; [reflexivity|]. cbn [append PyStr.all_digits].
  now rewrite IH, andb_assoc.
Qed.

Lemma isdigit_all_digits (s : string) : PyStr.isdigit s = true -> PyStr.all_digits s = true.
Proof. destruct s; [discriminate | trivial]. Qed.

Lemma isdigit_iff (s : string) :
  PyStr.isdigit s = PyStr.truthy s && PyStr.all_digits s.
Proof. destruct s; reflexivity. Qed.

Lemma join_empty_cons (p : string) (l : list string) :
  PyStr.join "" (p :: l) = p ++ PyStr.join "" l.
Proof.
  destruct l as [|q l]; [cbn; now rewrite append_empty_r | reflexivity].
Qed.

Lemma join_all_digits (l : list string) :
  Forall (fun p => PyStr.all_digits p = true) l -> PyStr.all_digits (PyStr.join "" l) = true.
Proof.
  induction 1 as [|p l Hp _ IH]; [reflexivity|].
  rewrite join_empty_cons, all_digits_app, Hp, IH. reflexivity.
Qed.

Lemma replace_space (s : string) : PyStr.replace " " "" s = without_spaces s.
Proof.
  unfold PyStr.replace. induction s as [|c s IH]; [reflexivity|].
  cbn [PyStr.replace_from without_spaces].
  unfold PyStr.startswith. cbn [String.prefix].
  destruct (ascii_dec " " c) as [<-|Hne].
  - replace (String.prefix "" s) with true by (destruct s; reflexivity).
    cbn. exact IH.
  - destruct (Ascii.eqb_spec c " ") as [->|_]; [contradiction|]. now rewrite IH.
Qed.

(** ** Spoken words to digits *)

Lemma dict_find_In (key v : string) (d : list (string * string)) :
  dict_find key d = Some v -> In (key, v) d.
Proof.
  induction d as [|[k x] d IH]; [discriminate|]. cbn [dict_find].
  destruct (String.eqb_spec k key) as [->|_].
  - intros E. injection E as ->. now left.
  - intros E. right. exact (IH E).
Qed.

Lemma first_word_match_In (words : list (string * string)) (rest word digit : string) :
  first_word_match words rest = Some (word, digit) -> In (word, digit) words.
Proof.
  induction words as [|[w d] words IH]; [discriminate|]. cbn [first_word_match].
  destruct (PyStr.startswith w rest).
  - intros E. injection E as -> ->. now left.
  - intros E. right. exact (IH E).
Qed.

Lemma word_map_digits (word digit : string) :
  In (word, digit) word_map -> PyStr.all_digits digit = true.
Proof.
  assert (H : forallb (fun kv => PyStr.all_digits (snd kv)) word_map = true) by reflexivity.
  intros Hin. exact (proj1 (forallb_forall _ _) H (word, digit) Hin).
Qed.

Lemma sorted_words_digits (word digit : string) :
  In (word, digit) words_longest_first -> PyStr.all_digits digit = true.
Proof.
  assert (H : forallb (fun kv => PyStr.all_digits (snd kv)) words_longest_first = true)
    by reflexivity.
  intros Hin. exact (proj1 (forallb_forall _ _) H (word, digit) Hin).
Qed.

Lemma scan_part_digits (part : string) :
  forall skip, PyStr.all_digits (scan_part skip part) = true.
Proof.
  induction part as [|c rest IH]; intros skip; [reflexivity|].
  destruct skip as [|k]; cbn [scan_part]; [|apply IH].
  destruct (first_word_match words_longest_first (String c rest)) as [[word digit]|] eqn:E.
  - rewrite all_digits_app, IH, andb_true_r.
    eapply sorted_words_digits, first_word_match_In, E.
  - destruct (PyStr.isdigit_char c) eqn:Hc; [|apply IH].
    cbn [PyStr.all_digits]. now rewrite Hc, IH.
Qed.

Lemma convert_part_digits (part : string) : PyStr.all_digits (convert_part part) = true.
Proof.
  unfold convert_part. destruct (dict_find part word_map) as [digit|] eqn:E.
  - eapply word_map_digits, dict_find_In, E.
  - destruct (PyStr.isdigit part) eqn:Hd; [now apply isdigit_all_digits | apply scan_part_digits].
Qed.

(** X1. Whatever the transcript, [_words_to_digits] returns digits only: the
    result is empty or passes [isdigit], so the caller's test
    [converted and converted.isdigit()] only ever rejects the empty result. *)
Theorem words_to_digits_only_digits (text : string) :
  PyStr.all_digits (_words_to_digits text) = true
  /\ PyStr.truthy (_words_to_digits text) && PyStr.isdigit (_words_to_digits text)
     = PyStr.truthy (_words_to_digits text).
Proof.
  assert (H : PyStr.all_digits (_words_to_digits text) = true).
  { unfold _words_to_digits. apply join_all_digits.
    apply Forall_forall. intros p Hp. apply in_map_iff in Hp as (q & <- & _).
    apply convert_part_digits. }
  split; [exact H|].
  rewrite isdigit_iff, H, andb_true_r. now destruct (PyStr.truthy _).
Qed.

Lemma lower_app (a b : string) : PyStr.lower (a ++ b) = PyStr.lower a ++ PyStr.lower b.
Proof. induction a as [|c a IH]; [reflexivity | cbn; now rewrite IH]. Qed.

Lemma lstrip_lower (s : string) :
  PyStr.lstrip_by PyStr.isspace (PyStr.lower s)
  = PyStr.lower (PyStr.lstrip_by PyStr.isspace s).
Proof.
  induction s as [|c s IH]; [reflexivity|].
  cbn [PyStr.lower PyStr.lstrip_by]. rewrite isspace_lower.
  destruct (PyStr.isspace c); [exact IH | reflexivity].
Qed.

Lemma rstrip_lower (s : string) :
  PyStr.rstrip_by PyStr.isspace (PyStr.lower s)
  = PyStr.lower (PyStr.rstrip_by PyStr.isspace s).
Proof.
  induction s as [|c s IH]; [reflexivity|].
  cbn [PyStr.lower PyStr.rstrip_by]. rewrite IH, isspace_lower.
  destruct (PyStr.rstrip_by PyStr.isspace s) as [|a r]; cbn [PyStr.lower].
  - destruct (PyStr.isspace c); reflexivity.
  - reflexivity.
Qed.

(** Lower-casing and stripping commute. *)
Lemma strip_lower (s : string) : PyStr.strip (PyStr.lower s) = PyStr.lower (PyStr.strip s).
Proof. unfold PyStr.strip. now rewrite lstrip_lower, rstrip_lower. Qed.

Lemma truthy_snoc (cur : string) (c : ascii) : PyStr.truthy (cur ++ String c "") = true.
Proof. destruct cur; reflexivity. Qed.

Lemma split_lstrip (s : string) :
  split_from "" (PyStr.lstrip_by PyStr.isspace s) = split_from "" s.
Proof.
  induction s as [|c s IH]; [reflexivity|].
  cbn [PyStr.lstrip_by]. destruct (PyStr.isspace c) eqn:Hc; [|reflexivity].
  cbn [split_from]. rewrite Hc. cbn [PyStr.truthy]. exact IH.
Qed.

Lemma split_from_cons (cur : string) (c : ascii) (s : string) :
  split_from cur (String c s)
  = if PyStr.isspace c
    then (if PyStr.truthy cur then cur :: split_from "" s else split_from "" s)
    else split_from (cur ++ String c "") s.
Proof. reflexivity. Qed.

Lemma split_rstrip (s : string) :
  forall cur, split_from cur (PyStr.rstrip_by PyStr.isspace s) = split_from cur s.
Proof.
  induction s as [|c s IH]; intros cur; [reflexivity|].
  cbn [PyStr.rstrip_by].
  destruct (PyStr.rstrip_by PyStr.isspace s) as [|a r] eqn:Er.
  - rewrite (split_from_cons cur c s).
    destruct (PyStr.isspace c) eqn:Hc.
    + rewrite <- (IH ""). cbn [split_from PyStr.truthy].
      destruct (PyStr.truthy cur); reflexivity.
    + rewrite split_from_cons, Hc, <- (IH (cur ++ String c "")). reflexivity.
  - rewrite (split_from_cons cur c (String a r)), (split_from_cons cur c s), !IH.
    reflexivity.
Qed.

(** [split] does not see leading or trailing whitespace. *)
Lemma split_strip (s : string) : split (PyStr.strip s) = split s.
Proof. unfold split, PyStr.strip. now rewrite split_rstrip, split_lstrip. Qed.

Lemma split_from_word (w : string) :
  no_space w = true ->
  forall cur rest, split_from cur (w ++ rest) = split_from (cur ++ w) rest.
Proof.
  induction w as [|c w IH]; intros Hw cur rest.
  - now rewrite append_empty_r.
  - cbn [no_space] in Hw. apply andb_prop in Hw as [Hc Hw].
    apply negb_true_iff in Hc. cbn [append split_from]. rewrite Hc.
    rewrite (IH Hw). f_equal. rewrite append_assoc. reflexivity.
Qed.

Lemma split_join (tokens : list string) :
  Forall (fun t => PyStr.truthy t = true /\ no_space t = true) tokens ->
  split (PyStr.join " " tokens) = tokens.
Proof.
  unfold split. induction 1 as [|t l [Ht Hs] Hl IH]; [reflexivity|].
  destruct l as [|t2 l].
  - cbn [PyStr.join]. rewrite <- (append_empty_r t) at 1.
    rewrite (split_from_word t Hs). cbn [append split_from]. now rewrite Ht.
  - change (PyStr.join " " (t :: t2 :: l)) with (t ++ " " ++ PyStr.join " " (t2 :: l)).
    rewrite (split_from_word t Hs). cbn [append split_from].
    change (PyStr.isspace " ") with true. cbn iota. rewrite Ht, IH. reflexivity.
Qed.

Lemma lower_join (ws : list string) :
  PyStr.lower (PyStr.join " " ws) = PyStr.join " " (map PyStr.lower ws).
Proof.
  induction ws as [|w ws IH]; [reflexivity|].
  destruct ws as [|w2 ws]; [reflexivity|].
  change (PyStr.join " " (w :: w2 :: ws)) with (w ++ " " ++ PyStr.join " " (w2 :: ws)).
  rewrite !lower_app, IH. reflexivity.
Qed.

Lemma all_digits_no_space (s : string) : PyStr.all_digits s = true -> no_space s = true.
Proof.
  induction s as [|c s IH]; [reflexivity|]. cbn [PyStr.all_digits no_space].
  intros H. apply andb_prop in H as [Hc Hs].
  now rewrite (digit_not_space c Hc), (IH Hs).
Qed.

Lemma word_map_keys (key : string) :
  dict_find key word_map <> None ->
  PyStr.truthy key = true /\ no_space key = true.
Proof.
  assert (H : forallb (fun kv => PyStr.truthy (fst kv) && no_space (fst kv)) word_map = true)
    by reflexivity.
  destruct (dict_find key word_map) as [v|] eqn:E; [intros _ | congruence].
  apply dict_find_In in E.
  apply andb_prop. exact (proj1 (forallb_forall _ _) H (key, v) E).
Qed.

Lemma token_shape (t : string) :
  is_token t = true -> PyStr.truthy t = true /\ no_space t = true.
Proof.
  unfold is_token. destruct (dict_find t word_map) as [v|] eqn:E.
  - intros _. apply word_map_keys. congruence.
  - intros Hd. rewrite isdigit_iff in Hd. apply andb_prop in Hd as [Ht Hd].
    split; [exact Ht | now apply all_digits_no_space].
Qed.

Lemma convert_token (t : string) : is_token t = true -> convert_part t = token_digits t.
Proof.
  unfold is_token, convert_part, token_digits.
  destruct (dict_find t word_map); [reflexivity|]. now intros ->.
Qed.

(** X2. A transcript of digit words and digit strings, in any letter case
    and separated by single spaces, converts token by token: each known
    word to its digit, each digit string to itself.  In particular a digit
    string is returned unchanged. *)
Theorem words_to_digits_tokens (words : list string) :
  Forall (fun w => is_token (PyStr.lower w) = true) words ->
  _words_to_digits (PyStr.join " " words)
  = PyStr.join "" (map (fun w => token_digits (PyStr.lower w)) words).
Proof.
  intros H. unfold _words_to_digits.
  rewrite lower_join, split_strip.
  assert (Hshape : Forall (fun t => PyStr.truthy t = true /\ no_space t = true)
                          (map PyStr.lower words)).
  { apply Forall_map. eapply Forall_impl; [|exact H]. intros w. apply token_shape. }
  rewrite (split_join _ Hshape), map_map.
  f_equal. apply map_ext_in. intros w Hw.
  apply convert_token. exact (proj1 (Forall_forall _ _) H w Hw).
Qed.

Lemma words_to_digits_tokens_witness :
  _words_to_digits (PyStr.join " " ["SIX"; "for"; "38"; "Tree"; "9"]) = "643839"
  /\ _words_to_digits "482913" = "482913".
Proof.
  split.
  - apply (words_to_digits_tokens ["SIX"; "for"; "38"; "Tree"; "9"]).
    repeat constructor.
  - apply (words_to_digits_tokens ["482913"]). repeat constructor.
Defined.

(** ** Candidates of a transcript *)

Lemma dict_find_digit_start (d : list (string * string)) (c : ascii) (r : string) :
  forallb (fun kv => match fst kv with
                     | String k0 _ => negb (PyStr.isdigit_char k0)
                     | EmptyString => true
                     end) d = true ->
  PyStr.isdigit_char c = true ->
  dict_find (String c r) d = None.
Proof.
  intros Hd Hc. induction d as [|[k v] d IH]; [reflexivity|].
  cbn [forallb fst] in Hd. apply andb_prop in Hd as [Hk Hd].
  cbn [dict_find]. destruct k as [|k0 kr]; [exact (IH Hd)|].
  cbn [String.eqb]. destruct (Ascii.eqb_spec k0 c) as [->|_]; [|exact (IH Hd)].
  rewrite Hc in Hk. discriminate.
Qed.

Lemma convert_digit_string (p : string) : PyStr.isdigit p = true -> convert_part p = p.
Proof.
  intros Hp. unfold convert_part.
  destruct p as [|c r]; [discriminate|].
  rewrite (dict_find_digit_start word_map c r), Hp; [reflexivity | reflexivity |].
  cbn [PyStr.isdigit PyStr.all_digits] in Hp. apply andb_prop in Hp. apply Hp.
Qed.

Lemma digit_not_blank (c : ascii) : PyStr.isdigit_char c = true -> Ascii.eqb c " " = false.
Proof.
  intros Hc. destruct (Ascii.eqb_spec c " ") as [->|]; [discriminate Hc | reflexivity].
Qed.

Lemma digits_spaces_convert (u : string) :
  forall cur,
    digits_or_spaces u = true -> PyStr.all_digits cur = true ->
    PyStr.join "" (map convert_part (split_from cur u)) = cur ++ without_spaces u.
Proof.
  induction u as [|c u IH]; intros cur Hu Hcur.
  - cbn [split_from without_spaces]. rewrite append_empty_r.
    destruct (PyStr.truthy cur) eqn:Ht; [|destruct cur; [reflexivity | discriminate]].
    cbn [map PyStr.join]. apply convert_digit_string.
    now rewrite isdigit_iff, Ht, Hcur.
  - cbn [digits_or_spaces] in Hu. apply andb_prop in Hu as [Hc Hu].
    rewrite split_from_cons. cbn [without_spaces].
    apply orb_prop in Hc as [Hc|Hc].
    + rewrite (digit_not_space c Hc), (digit_not_blank c Hc).
      rewrite IH; [now rewrite append_assoc | exact Hu |].
      rewrite all_digits_app, Hcur. cbn [PyStr.all_digits]. now rewrite Hc.
    + rewrite (space_is_space c Hc), Hc.
      destruct (PyStr.truthy cur) eqn:Ht.
      * cbn [map]. rewrite join_empty_cons, (IH "" Hu eq_refl).
        rewrite convert_digit_string; [reflexivity|].
        now rewrite isdigit_iff, Ht, Hcur.
      * rewrite (IH "" Hu eq_refl). destruct cur; [reflexivity | discriminate].
Qed.

Lemma cleaned_digits_or_spaces (u : string) :
  PyStr.all_digits (without_spaces u) = true -> digits_or_spaces u = true.
Proof.
  induction u as [|c u IH]; [reflexivity|]. cbn [without_spaces digits_or_spaces].
  destruct (Ascii.eqb c " "); cbn [PyStr.all_digits].
  - intros H. now rewrite orb_true_r, IH.
  - intros H. apply andb_prop in H as [Hc Hu]. now rewrite Hc, IH.
Qed.

Lemma digits_or_spaces_lower (u : string) : digits_or_spaces u = true -> PyStr.lower u = u.
Proof.
  induction u as [|c u IH]; [reflexivity|]. cbn [digits_or_spaces PyStr.lower].
  intros H. apply andb_prop in H as [Hc Hu]. rewrite (IH Hu). f_equal.
  apply orb_prop in Hc as [Hc|Hc]; [now apply digit_lower|].
  apply Ascii.eqb_eq in Hc. now subst c.
Qed.

(** A transcript that is digits and spaces once stripped converts to the
    same string as dropping its spaces. *)
Lemma words_to_digits_raw (transcript : string) :
  PyStr.isdigit (PyStr.replace " " "" (PyStr.strip transcript)) = true ->
  _words_to_digits transcript = PyStr.replace " " "" (PyStr.strip transcript).
Proof.
  rewrite replace_space. intros Hd.
  assert (Hu : digits_or_spaces (PyStr.strip transcript) = true)
    by (apply cleaned_digits_or_spaces, isdigit_all_digits, Hd).
  unfold _words_to_digits. rewrite strip_lower, (digits_or_spaces_lower _ Hu).
  unfold split. rewrite (digits_spaces_convert _ "" Hu eq_refl). reflexivity.
Qed.

(** X3. Every candidate [_extract_digits_from_result] returns is a
    non-empty digit string, and there are at most two per alternative.  A
    transcript that is digits and spaces (once stripped) yields its digits
    twice, once as the raw reading and once as the converted one, so it
    weighs double in the vote that follows. *)
Theorem extract_digits_candidates (alternatives : list (option string)) :
  (forall c, In c (_extract_digits_from_result (Some alternatives)) -> PyStr.isdigit c = true)
  /\ length (_extract_digits_from_result (Some alternatives)) <= 2 * length alternatives
  /\ (forall before after transcript,
        alternatives = (before ++ Some transcript :: after)%list ->
        PyStr.isdigit (PyStr.replace " " "" (PyStr.strip transcript)) = true ->
        _extract_digits_from_result (Some alternatives)
        = (_extract_digits_from_result (Some before)
           ++ [PyStr.replace " " "" (PyStr.strip transcript);
               PyStr.replace " " "" (PyStr.strip transcript)]
           ++ _extract_digits_from_result (Some after))%list).
Proof.
  cbn [_extract_digits_from_result].
  assert (Halt : forall alt,
             (forall c, In c (alternative_candidates alt) -> PyStr.isdigit c = true)
             /\ length (alternative_candidates alt) <= 2).
  { intros alt. unfold alternative_candidates.
    destruct (negb (PyStr.truthy _)); [split; [intros c [] | cbn; lia]|].
    destruct (PyStr.isdigit (PyStr.replace " " "" _)) eqn:H1;
      destruct (PyStr.truthy (_words_to_digits _) && PyStr.isdigit (_words_to_digits _)) eqn:H2;
      (split; [|cbn; lia]); intros c Hc; cbn in Hc;
      repeat (destruct Hc as [<-|Hc]; [first [exact H1 | now apply andb_prop in H2]|]);
      destruct Hc. }
  split; [|split].
  - intros c Hc. apply in_flat_map in Hc as (alt & _ & Hc). exact (proj1 (Halt alt) c Hc).
  - induction alternatives as [|alt alts IH]; [cbn; lia|].
    cbn [flat_map length]. rewrite length_app.
    pose proof (proj2 (Halt alt)). lia.
  - intros before after transcript -> Hd.
    rewrite flat_map_app. cbn [flat_map]. f_equal. f_equal.
    unfold alternative_candidates.
    assert (Ht : PyStr.truthy transcript = true).
    { destruct transcript; [discriminate Hd | reflexivity]. }
    rewrite Ht, (words_to_digits_raw transcript Hd), Hd. cbn [negb].
    replace (PyStr.truthy (PyStr.replace " " "" (PyStr.strip transcript))) with true;
      [reflexivity|].
    rewrite isdigit_iff in Hd. apply andb_prop in Hd. symmetry. apply Hd.
Qed.

Lemma extract_digits_candidates_witness :
  _extract_digits_from_result (Some [Some "six for"; Some " 4 8 2 9 1 3 "; None])
  = (_extract_digits_from_result (Some [Some "six for"])
     ++ ["482913"; "482913"] ++ _extract_digits_from_result (Some [None]))%list
  /\ PyStr.isdigit "64" = true.
Proof.
  destruct (extract_digits_candidates [Some "six for"; Some " 4 8 2 9 1 3 "; None])
    as (Hall & _ & Hraw).
  split.
  - apply (Hraw [Some "six for"] [None] " 4 8 2 9 1 3 "); reflexivity.
  - apply Hall. left. reflexivity.
Defined.

(** ** Traffic of [solve_and_verify], whatever the portal answers *)

Lemma length6_short (r : option string) : length (length6 r) <= 1.
Proof. destruct r as [v|]; [|cbn; lia]. unfold length6. destruct (_ =? _); cbn; lia. Qed.

Lemma build_candidates_short (a i : option string) : length (build_candidates a i) <= 2.
Proof.
  unfold build_candidates. rewrite !six_digit_candidate_length6.
  pose proof (length6_short a). pose proof (length6_short i).
  destruct (both_agree a i); rewrite ?length_app, !length_map; lia.
Qed.

Lemma len_app (a b : string) : PyStr.len (a ++ b) = PyStr.len a + PyStr.len b.
Proof. unfold PyStr.len. induction a as [|c a IH]; [reflexivity | cbn; now rewrite IH]. Qed.

Lemma verify_post_code (code : string) (r : res response) :
  PyStr.len code = 6 -> is_code_submission (verify_post code r) = true.
Proof.
  intros H. unfold verify_post, is_code_submission.
  rewrite String.eqb_refl, startswith_append, len_app, H. reflexivity.
Qed.

Lemma posts_facts (tried : list (string * res response)) :
  Forall (fun c => PyStr.len c = 6) (map fst tried) ->
  forallb captcha_event (posts tried) = true
  /\ length (submitted (posts tried)) = length tried
  /\ sleeps (posts tried) = 0.
Proof.
  induction tried as [|[c r] t IH]; intros H; [repeat split|].
  inversion H as [|? ? Hc Ht]; subst. destruct (IH Ht) as (H1 & H2 & H3).
  cbn [posts map fst snd forallb]. fold (posts t).
  unfold captcha_event at 1. rewrite (verify_post_code c r Hc), orb_true_r.
  split; [exact H1|]. split; [|exact H3].
  cbn [submitted flat_map verify_post]. rewrite String.eqb_refl.
  cbn [app length]. f_equal. exact H2.
Qed.

Lemma submitted_app (a b : list event) :
  length (submitted (a ++ b)) = length (submitted a) + length (submitted b).
Proof. unfold submitted. now rewrite flat_map_app, length_app. Qed.

Lemma sleeps_app (a b : list event) : sleeps (a ++ b) = sleeps a + sleeps b.
Proof. unfold sleeps. now rewrite filter_app, length_app. Qed.

Lemma fetch_event_facts (url : string) (r : res response) :
  is_fetch (EvGet url r) = true ->
  captcha_event (EvGet url r) = true
  /\ fetches [EvGet url r] = 1
  /\ length (submitted [EvGet url r]) = 0
  /\ sleeps [EvGet url r] = 0.
Proof.
  intros H. unfold captcha_event, fetches. cbn [filter]. rewrite H. repeat split.
Qed.

Lemma fetch_captcha_outcome (P : Portal) (s : state P) :
  exists url r,
    log (snd (fetch_captcha P s)) = (log s ++ [EvGet url r])%list
    /\ is_fetch (EvGet url r) = true
    /\ (forall e, fst (fetch_captcha P s) = Raise e -> caused_by (EvGet url r) e).
Proof.
  destruct (fetch_captcha_run P s) as (token & w1 & r & w2 & _ & _ & ->).
  exists (CAPTCHA_URL ++ "?" ++ token), r.
  split; [reflexivity|]. split; [apply startswith_append|].
  cbn [fst caused_by]. destruct r as [resp|e0].
  - destruct (status_ok resp) eqn:Est.
    + destruct (json resp) as [[data|]|] eqn:Ej; intros e E; [discriminate| |];
        injection E as <-; right; exists resp; (split; [reflexivity|]); right;
        [right | left]; (split; [exact Est|]); (split; [apply startswith_append|]);
        (split; [exact Ej | reflexivity]).
    + intros e E. injection E as <-. right. exists resp. split; [reflexivity|].
      left. split; [exact Est | reflexivity].
  - intros e E. injection E as <-. now left.
Qed.

Lemma recognise_outcome (P : Portal) (s : state P) :
  exists url r,
    log (snd (recognise P s)) = (log s ++ [EvGet url r])%list
    /\ is_fetch (EvGet url r) = true
    /\ (forall e, fst (recognise P s) = Raise e -> caused_by (EvGet url r) e).
Proof.
  destruct (fetch_captcha_outcome P s) as (url & r & Hlog & Hf & Hraise).
  exists url, r. unfold recognise, bind, ret.
  destruct (fetch_captcha P s) as [[c|e] s1]; cbn [fst snd] in *.
  - destruct (solve_member_audio_log P (audio c) s1) as (La & ra & Ea).
    destruct (solve_member P (solve_audio_captcha P) (audio c) s1) as [oa s2]; cbn [fst snd] in *. subst oa.
    destruct (solve_member_image_log P (image c) s2) as (Li & ri & Ei).
    destruct (solve_member P (solve_image_captcha P) (image c) s2) as [oi s3]; cbn [fst snd] in *. subst oi.
    cbn [fst snd]. split; [congruence|]. split; [exact Hf|]. discriminate.
  - split; [exact Hlog|]. split; [exact Hf|].
    intros e' E. injection E as <-. exact (Hraise e eq_refl).
Qed.

(** The log of any run of the outer loop. *)
Lemma attempt_loop_traffic (P : Portal) (attempts : list nat) :
  forall s : state P,
  exists evs,
    log (snd (attempt_loop P attempts s)) = (log s ++ evs)%list
    /\ forallb captcha_event evs = true
    /\ fetches evs <= length attempts
    /\ length (submitted evs) <= 2 * length attempts
    /\ sleeps evs <= length attempts
    /\ (fst (attempt_loop P attempts s) = Ok true ->
        exists before code resp,
          evs = (before ++ [verify_post code (Ok resp)])%list
          /\ accepted_body (text resp) = true)
    /\ (forall e, fst (attempt_loop P attempts s) = Raise e ->
        exists before ev, evs = (before ++ [ev])%list /\ caused_by ev e).
Proof.
  induction attempts as [|attempt later IH]; intros s.
  - exists []. cbn. rewrite app_nil_r. repeat split; try lia; discriminate.
  - rewrite attempt_loop_step.
    destruct (recognise_outcome P s) as (url & r & Hlog1 & Hf & Hraise).
    destruct (fetch_event_facts url r Hf) as (Hc1 & Hf1 & Hs1 & Hz1).
    destruct (recognise P s) as [[[a i]|e] s1]; cbn [fst snd] in Hlog1, Hraise |- *.
    2:{ exists [EvGet url r]. rewrite Hf1, Hs1, Hz1. cbn [forallb length].
        rewrite Hc1. repeat split; try lia; try exact Hlog1; try discriminate.
        intros e' E. injection E as <-. exists [], (EvGet url r).
        split; [reflexivity | exact (Hraise e eq_refl)]. }
    pose proof (build_candidates_short a i) as Hshort.
    assert (Hsix : Forall (fun c => PyStr.len c = 6) (map snd (build_candidates a i))).
    { apply Forall_forall. intros c. apply build_candidates_len. }
    destruct (build_candidates a i) as [|c0 cs] eqn:Ecs.
    + destruct (IH s1) as (evs & Hlog & Hall & Hfe & Hsu & Hsl & Htrue & Hexn).
      exists ([EvGet url r] ++ evs)%list.
      split; [rewrite Hlog, Hlog1, <- app_assoc; reflexivity|].
      rewrite fetches_app, submitted_app, sleeps_app, Hf1, Hs1, Hz1.
      cbn [forallb app length]. rewrite Hc1, Hall.
      repeat split; try lia.
      * intros Ht. destruct (Htrue Ht) as (before & code & resp & -> & Hacc).
        exists (EvGet url r :: before), code, resp. auto.
      * intros e He. destruct (Hexn e He) as (before & ev & -> & Hev).
        exists (EvGet url r :: before), ev. auto.
    + destruct (try_candidates_trace P (c0 :: cs) s1) as (tried & rest & Hlog2 & Hmap & Hres2).
      assert (Htried : Forall (fun c => PyStr.len c = 6) (map fst tried)).
      { rewrite Hmap in Hsix. apply Forall_app in Hsix. apply Hsix. }
      assert (Hlen : length tried <= 2).
      { apply (f_equal (@length string)) in Hmap.
        rewrite length_app, !length_map in Hmap. lia. }
      destruct (posts_facts tried Htried) as (Hp1 & Hp2 & Hp3).
      destruct (try_candidates P (c0 :: cs) s1) as [[[|]|e] s2]; cbn [fst snd] in Hlog2, Hres2.
      * exists ([EvGet url r] ++ posts tried)%list. cbn [fst snd].
        split; [rewrite Hlog2, Hlog1, <- app_assoc; reflexivity|].
        rewrite fetches_app, submitted_app, sleeps_app, Hf1, Hs1, Hz1, fetches_posts, Hp2, Hp3.
        cbn [forallb app length]. rewrite Hc1, Hp1.
        repeat split; try lia; try discriminate.
        intros _. destruct Hres2 as (init & code & resp & -> & Hacc & _).
        exists ([EvGet url r] ++ posts init)%list, code, resp.
        split; [|exact Hacc]. unfold posts. rewrite map_app, <- app_assoc. reflexivity.
      * destruct (IH (mkState P (world s2) (log s2 ++ [EvSleep CAPTCHA_RETRY_DELAY])%list))
          as (evs & Hlog & Hall & Hfe & Hsu & Hsl & Htrue & Hexn).
        exists ([EvGet url r] ++ posts tried ++ [EvSleep CAPTCHA_RETRY_DELAY] ++ evs)%list.
        split; [rewrite Hlog; cbn [log]; rewrite Hlog2, Hlog1, <- !app_assoc; reflexivity|].
        rewrite !fetches_app, !submitted_app, !sleeps_app, Hf1, Hs1, Hz1, fetches_posts, Hp2, Hp3.
        rewrite !forallb_app, Hp1, Hall. cbn [forallb]. rewrite Hc1.
        change (fetches [EvSleep CAPTCHA_RETRY_DELAY]) with 0.
        change (length (submitted [EvSleep CAPTCHA_RETRY_DELAY])) with 0.
        change (sleeps [EvSleep CAPTCHA_RETRY_DELAY]) with 1.
        change (captcha_event (EvSleep CAPTCHA_RETRY_DELAY)) with true.
        cbn [app length andb].
        repeat split; try lia.
        -- intros Ht. destruct (Htrue Ht) as (before & code & resp & -> & Hacc).
           exists ([EvGet url r] ++ posts tried ++ [EvSleep CAPTCHA_RETRY_DELAY] ++ before)%list,
             code, resp.
           split; [now rewrite <- !app_assoc | exact Hacc].
        -- intros e He. destruct (Hexn e He) as (before & ev & -> & Hev).
           exists ([EvGet url r] ++ posts tried ++ [EvSleep CAPTCHA_RETRY_DELAY] ++ before)%list,
             ev.
           split; [now rewrite <- !app_assoc | exact Hev].
      * exists ([EvGet url r] ++ posts tried)%list. cbn [fst snd].
        split; [rewrite Hlog2, Hlog1, <- app_assoc; reflexivity|].
        rewrite fetches_app, submitted_app, sleeps_app, Hf1, Hs1, Hz1, fetches_posts, Hp2, Hp3.
        cbn [forallb app length]. rewrite Hc1, Hp1.
        repeat split; try lia; try discriminate.
        intros e' E. injection E as <-.
        destruct Hres2 as (init & code & -> & _).
        exists ([EvGet url r] ++ posts init)%list, (verify_post code (Raise e)).
        split; [|reflexivity]. unfold posts. rewrite map_app, <- app_assoc. reflexivity.
Qed.


(** X5. A submission counts as accepted whenever the answer's body holds
    neither "SecCodeError" nor "Invalid", whatever its HTTP status: if the
    first candidate of the first attempt gets such an answer (an error page
    included), [solve_and_verify] returns [True] right there, after one
    fetch and one submission and without sleeping. *)
Theorem acceptance_ignores_status
        (P : Portal) (s s1 : state P) (audio_result image_result : option string)
        (solver code : string) (others : list (string * string))
        (resp : response) (w2 : World P) :
  recognise P s = (Ok (audio_result, image_result), s1) ->
  build_candidates audio_result image_result = (solver, code) :: others ->
  http_post P CAPTCHA_VERIFY_URL (RawBody ("captcha=" ++ code)) (world s1) = (Ok resp, w2) ->
  PyStr.contains "SecCodeError" (text resp) = false ->
  PyStr.contains "Invalid" (text resp) = false ->
  solve_and_verify P s
  = (Ok true, mkState P w2 (log s1 ++ [verify_post code (Ok resp)])%list).
Proof.
  intros Hrec Hc Hpost H1 H2.
  unfold solve_and_verify, solve_and_verify_within.
  change (seq 1 MAX_CAPTCHA_RETRIES) with (1 :: seq 2 9).
  rewrite attempt_loop_step, Hrec, Hc, try_candidates_step.
  unfold session_post. rewrite Hpost.
  unfold accepted_body. rewrite H1, H2. reflexivity.
Qed.

Lemma acceptance_ignores_status_witness :
  let P := portal_with_failing_posts (Some ["123456"]) None in
  fst (solve_and_verify P (fresh P 0)) = Ok true
  /\ log (snd (solve_and_verify P (fresh P 0)))
     = [EvGet (CAPTCHA_URL ++ "?0.42")
              (Ok (mkResponse 200 "" (Some challenge)));
        verify_post "123456" (Ok (mkResponse 500 "" None))].
Proof.
  intros P.
  rewrite (acceptance_ignores_status P (fresh P 0)
             (mkState P 1 [EvGet (CAPTCHA_URL ++ "?0.42")
                (Ok (mkResponse 200 "" (Some challenge)))])
             (Some "123456") None "audio" "123456" []
             (mkResponse 500 "" None) 2);
    try reflexivity.
  split; reflexivity.
Defined.

(** ** Traffic of [search_causelist] *)

Lemma initialize_session_run (P : Portal) (s : state P) :
  exists r w,
    initialize_session P s
    = (match r with
       | Ok resp => if status_ok resp then Ok tt else Raise (HTTPError (status_code resp))
       | Raise e => Raise e
       end,
       mkState P w (log s ++ [EvGet CAUSELIST_PAGE r])%list).
Proof.
  unfold initialize_session, bind, session_get, raise_for_status, raise, ret, status_ok.
  destruct (http_get P CAUSELIST_PAGE (world s)) as [r w].
  exists r, w. destruct r as [resp|e]; [|reflexivity].
  destruct ((400 <=? status_code resp) && (status_code resp <? 600)); reflexivity.
Qed.

Lemma captcha_event_not_search (e : event) :
  captcha_event e = true -> is_search_post e = false.
Proof.
  destruct e as [url r|url data r|ms]; try reflexivity.
  unfold captcha_event. cbn [is_fetch is_sleep orb is_search_post].
  rewrite orb_false_r. unfold is_code_submission.
  destruct data as [body|fields]; [|discriminate].
  intros H. apply andb_prop in H as [H _]. apply andb_prop in H as [H _].
  apply String.eqb_eq in H. subst url. reflexivity.
Qed.

Lemma no_search_post_among (evs pre post : list event) (y : event) :
  forallb captcha_event evs = true ->
  evs = (pre ++ y :: post)%list -> is_search_post y = true -> False.
Proof.
  intros Hall -> Hy. rewrite forallb_app in Hall. apply andb_prop in Hall as [_ Hall].
  cbn [forallb] in Hall. apply andb_prop in Hall as [Hc _].
  rewrite (captcha_event_not_search y Hc) in Hy. discriminate.
Qed.

Lemma search_post_position (A B pre post : list event) (x y : event) :
  forallb captcha_event A = true ->
  forallb (fun e => negb (is_search_post e)) B = true ->
  is_search_post y = true ->
  (A ++ x :: B = pre ++ y :: post)%list ->
  pre = A /\ y = x /\ post = B.
Proof.
  revert pre. induction A as [|a A IH]; intros pre HA HB Hy E.
  - destruct pre as [|p pre]; cbn [app] in E.
    + injection E as <- <-. auto.
    + injection E as <- E. exfalso.
      assert (Hin : In y B) by (rewrite E; apply in_or_app; right; now left).
      pose proof (proj1 (forallb_forall _ _) HB y Hin) as Hn.
      cbn beta in Hn. rewrite Hy in Hn. discriminate.
  - cbn [forallb] in HA. apply andb_prop in HA as [Ha HA].
    destruct pre as [|p pre]; cbn [app] in E.
    + injection E as <- _. rewrite (captcha_event_not_search a Ha) in Hy. discriminate.
    + injection E as <- E. destruct (IH pre HA HB Hy E) as (-> & -> & ->). auto.
Qed.

Lemma session_and_captcha_traffic (P : Portal) (s : state P) :
  exists r0 evs,
    log (snd (session_and_captcha P s)) = (log s ++ EvGet CAUSELIST_PAGE r0 :: evs)%list
    /\ forallb captcha_event evs = true
    /\ (fst (session_and_captcha P s) = Ok true ->
        exists before code resp,
          evs = (before ++ [verify_post code (Ok resp)])%list
          /\ accepted_body (text resp) = true)
    /\ (forall e, fst (session_and_captcha P s) = Raise e ->
        exists before ev,
          (EvGet CAUSELIST_PAGE r0 :: evs = before ++ [ev])%list /\ caused_by ev e).
Proof.
  unfold session_and_captcha, bind.
  destruct (initialize_session_run P s) as (r0 & w0 & ->).
  exists r0.
  assert (Hinit : forall e,
             match r0 with
             | Ok resp => if status_ok resp then Ok tt else Raise (HTTPError (status_code resp))
             | Raise e0 => Raise e0
             end = Raise e -> caused_by (EvGet CAUSELIST_PAGE r0) e).
  { intros e. cbn [caused_by]. destruct r0 as [resp|e0].
    - destruct (status_ok resp) eqn:Est; [discriminate|].
      intros E. injection E as <-. right. exists resp. split; [reflexivity|].
      left. split; [exact Est | reflexivity].
    - intros E. injection E as <-. now left. }
  destruct (match r0 with
            | Ok resp => if status_ok resp then Ok tt else Raise (HTTPError (status_code resp))
            | Raise e0 => Raise e0
            end) as [[]|e0] eqn:E0.
  - destruct (attempt_loop_traffic P (seq 1 MAX_CAPTCHA_RETRIES)
                (mkState P w0 (log s ++ [EvGet CAUSELIST_PAGE r0])%list))
      as (evs & Hlog & Hall & _ & _ & _ & Htrue & Hexn).
    exists evs. unfold solve_and_verify, solve_and_verify_within.
    split; [rewrite Hlog; cbn [log]; rewrite <- app_assoc; reflexivity|].
    split; [exact Hall|]. split; [exact Htrue|].
    intros e He. destruct (Hexn e He) as (before & ev & -> & Hev).
    exists (EvGet CAUSELIST_PAGE r0 :: before), ev. auto.
  - exists []. cbn [fst snd log forallb].
    split; [reflexivity|]. split; [reflexivity|]. split; [discriminate|].
    intros e E. injection E as <-. exists [], (EvGet CAUSELIST_PAGE r0).
    split; [reflexivity | exact (Hinit e0 eq_refl)].
Qed.



(** ** Stripped strings *)

Lemma lstrip_first_ok (s : string) : first_ok (PyStr.lstrip_by PyStr.isspace s) = true.
Proof.
  induction s as [|c s IH]; [reflexivity|]. cbn [PyStr.lstrip_by].
  destruct (PyStr.isspace c) eqn:Hc; [exact IH|]. cbn. now rewrite Hc.
Qed.

Lemma rstrip_first_ok (s : string) :
  first_ok s = true -> first_ok (PyStr.rstrip_by PyStr.isspace s) = true.
Proof.
  destruct s as [|c s]; [reflexivity|]. cbn [first_ok PyStr.rstrip_by]. intros Hc.
  destruct (PyStr.rstrip_by PyStr.isspace s).
  - destruct (PyStr.isspace c) eqn:E; [reflexivity | cbn; now rewrite E].
  - exact Hc.
Qed.

Lemma rstrip_last_ok (s : string) : last_ok (PyStr.rstrip_by PyStr.isspace s) = true.
Proof.
  induction s as [|c s IH]; [reflexivity|]. cbn [PyStr.rstrip_by].
  destruct (PyStr.rstrip_by PyStr.isspace s) as [|a r].
  - destruct (PyStr.isspace c) eqn:Hc; [reflexivity|]. cbn. now rewrite Hc.
  - exact IH.
Qed.

Lemma strip_trimmed (s : string) : trimmed (PyStr.strip s) = true.
Proof.
  unfold trimmed, PyStr.strip.
  now rewrite rstrip_first_ok, rstrip_last_ok by apply lstrip_first_ok.
Qed.

Lemma rstrip_fixed (s : string) :
  last_ok s = true -> PyStr.rstrip_by PyStr.isspace s = s.
Proof.
  induction s as [|c s IH]; [reflexivity|]. cbn [PyStr.rstrip_by].
  destruct s as [|a r].
  - cbn. intros H. apply negb_true_iff in H. now rewrite H.
  - intros H. rewrite (IH H). reflexivity.
Qed.

(** A trimmed string is a fixed point of [strip]. *)
Lemma trimmed_strip (s : string) : trimmed s = true -> PyStr.strip s = s.
Proof.
  unfold trimmed, PyStr.strip. intros H. apply andb_prop in H as [Hf Hl].
  assert (E : PyStr.lstrip_by PyStr.isspace s = s).
  { destruct s as [|c s]; [reflexivity|]. cbn in Hf |- *.
    apply negb_true_iff in Hf. now rewrite Hf. }
  rewrite E. now apply rstrip_fixed.
Qed.

Lemma last_ok_app (a b : string) :
  PyStr.truthy b = true -> last_ok b = true -> last_ok (a ++ b) = true.
Proof.
  intros Hb Hl. induction a as [|c a IH]; [exact Hl|].
  cbn [append last_ok]. destruct (a ++ b) eqn:E; [|exact IH].
  destruct a; [cbn in E; subst b; discriminate | discriminate].
Qed.

Lemma first_ok_app (a b : string) :
  PyStr.truthy a = true -> first_ok a = true -> first_ok (a ++ b) = true.
Proof. destruct a; [discriminate | trivial]. Qed.

Lemma truthy_app_l (a b : string) : PyStr.truthy a = true -> PyStr.truthy (a ++ b) = true.
Proof. destruct a; [discriminate | reflexivity]. Qed.

Lemma truthy_app_r (a b : string) : PyStr.truthy b = true -> PyStr.truthy (a ++ b) = true.
Proof. destruct a; [trivial | reflexivity]. Qed.

(** Non-empty trimmed strings around anything give a trimmed string. *)
Lemma trimmed_around (a m b : string) :
  PyStr.truthy a = true -> trimmed a = true ->
  PyStr.truthy b = true -> trimmed b = true ->
  trimmed (a ++ m ++ b) = true /\ PyStr.truthy (a ++ m ++ b) = true.
Proof.
  unfold trimmed. intros Ha Ta Hb Tb.
  apply andb_prop in Ta as [Fa _]. apply andb_prop in Tb as [_ Lb].
  rewrite (first_ok_app a _ Ha Fa), (truthy_app_l a _ Ha).
  rewrite (last_ok_app a (m ++ b)); [auto | now apply truthy_app_r |].
  now apply last_ok_app.
Qed.

Lemma join_trimmed (sep : string) (parts : list string) :
  Forall (fun p => PyStr.truthy p = true /\ trimmed p = true) parts ->
  trimmed (PyStr.join sep parts) = true
  /\ (parts <> [] -> PyStr.truthy (PyStr.join sep parts) = true).
Proof.
  induction 1 as [|p l [Hp Tp] Hl IH]; [split; [reflexivity | congruence]|].
  destruct l as [|q l]; [cbn [PyStr.join]; auto|].
  change (PyStr.join sep (p :: q :: l)) with (p ++ sep ++ PyStr.join sep (q :: l)).
  destruct IH as [IH1 IH2].
  destruct (trimmed_around p sep (PyStr.join sep (q :: l)) Hp Tp) as [T1 T2];
    [apply IH2; discriminate | exact IH1 | auto].
Qed.

Lemma stripped_pieces (l : list string) :
  Forall (fun p => PyStr.truthy p = true /\ trimmed p = true)
         (filter PyStr.truthy (map PyStr.strip l)).
Proof.
  apply Forall_forall. intros p Hp. apply filter_In in Hp as [Hp Ht].
  apply in_map_iff in Hp as (q & <- & _). split; [exact Ht | apply strip_trimmed].
Qed.

Lemma get_text_strip_trimmed (n : node) : trimmed (get_text_strip n) = true.
Proof. unfold get_text_strip. apply join_trimmed, stripped_pieces. Qed.

Lemma flush_part_parts (current parts : list string) :
  Forall (fun p => PyStr.truthy p = true /\ trimmed p = true) parts ->
  Forall (fun p => PyStr.truthy p = true /\ trimmed p = true) (flush_part current parts).
Proof.
  intros H. unfold flush_part.
  destruct (PyStr.truthy (PyStr.strip (PyStr.join "" current))) eqn:Ht; [|exact H].
  apply Forall_app. split; [exact H|]. constructor; [|constructor].
  split; [exact Ht | apply strip_trimmed].
Qed.

Lemma br_loop_parts (cs : list node) :
  forall current parts,
    Forall (fun p => PyStr.truthy p = true /\ trimmed p = true) parts ->
    Forall (fun p => PyStr.truthy p = true /\ trimmed p = true) (br_loop cs current parts).
Proof.
  induction cs as [|child cs IH]; intros current parts H; cbn [br_loop].
  - now apply flush_part_parts.
  - destruct (is_named ["br"] child); apply IH; [now apply flush_part_parts | exact H].
Qed.

(** The pieces of a cell between its line breaks are non-empty and
    trimmed. *)
Lemma br_parts_parts (cell : node) :
  Forall (fun p => PyStr.truthy p = true /\ trimmed p = true) (br_parts cell).
Proof. apply br_loop_parts. constructor. Qed.

Lemma title_of_trimmed (parts : list string) :
  Forall (fun p => PyStr.truthy p = true /\ trimmed p = true) parts ->
  trimmed (title_of parts) = true.
Proof.
  intros H. destruct parts as [|p0 [|p1 rest]]; [reflexivity | |].
  - inversion H as [|? ? [_ T] _]; subst. exact T.
  - inversion H as [|? ? [Hp Tp] Hrest]; subst. cbn [title_of].
    destruct (join_trimmed " " (p1 :: rest) Hrest) as [T1 T2].
    apply (trimmed_around p0 " Vs " _ Hp Tp); [apply T2; discriminate | exact T1].
Qed.

(** ** The walk as one fold *)

Lemma process_tables_fold (tables : list node) :
  forall st,
    process_tables st tables
    = Ok (fold_left row_step (flat_map (find_all ["tr"]) tables) st).
Proof.
  induction tables as [|t tables IH]; intros st; [reflexivity|].
  cbn [process_tables flat_map]. rewrite process_rows_fold. cbn [rbind].
  rewrite IH, fold_left_app. reflexivity.
Qed.

(** [parse_to_records] folds [row_step] over all rows of all tables. *)
Lemma parse_soup_walk (soup : node) :
  parse_soup soup = Ok (records (fold_left row_step (all_rows soup) walk_start)).
Proof. unfold parse_soup, all_rows. rewrite process_tables_fold. reflexivity. Qed.

Lemma fold_invariant (I : walk -> Prop) :
  (forall st row, I st -> I (row_step st row)) ->
  forall rows st, I st -> I (fold_left row_step rows st).
Proof.
  intros Hstep rows. induction rows as [|row rows IH]; intros st Hst; [exact Hst|].
  cbn [fold_left]. apply IH, Hstep, Hst.
Qed.

Lemma row_step_cases (Q : walk -> Prop) (st : walk) (row : node) :
  Q st ->
  (is_court_header row = true -> Q (mkWalk (records st) (full_text_of row) "" "")) ->
  Q (mkWalk (records st) (current_court st)
            (PyStr.join " | " (filter PyStr.truthy (cell_texts_of row)))
            (current_category st)) ->
  (is_blank_or_pagination row = false -> is_court_header row = false ->
   is_judge_row row = false -> is_column_header row = false ->
   Q (with_category st (full_text_of row))) ->
  (yields_case row = true ->
   Q (mkWalk (records st ++ [case_entry_of st row])%list
             (current_court st) (current_judge st) (current_category st))) ->
  Q (row_step st row).
Proof.
  intros Hsame Hcourt Hjudge Hcat Hcase. unfold row_step, yields_case in *.
  destruct (is_blank_or_pagination row); [exact Hsame|].
  destruct (is_court_header row); [now apply Hcourt|].
  destruct (is_judge_row row); [exact Hjudge|].
  destruct (is_column_header row); [exact Hsame|].
  destruct (has_header_shape row); [destruct (is_boilerplate row); auto|].
  destruct (is_case_row row); [now apply Hcase|].
  destruct ((3 <=? length (cell_texts_of row)) && negb (has_skip_keyword row)); auto.
Qed.

(** ** Every field is trimmed *)

Lemma cell_texts_trimmed (row : node) :
  Forall (fun t => trimmed t = true) (cell_texts_of row).
Proof.
  unfold cell_texts_of. apply Forall_map, Forall_forall. intros c _.
  apply get_text_strip_trimmed.
Qed.

Lemma filter_truthy_trimmed (l : list string) :
  Forall (fun t => trimmed t = true) l ->
  Forall (fun p => PyStr.truthy p = true /\ trimmed p = true) (filter PyStr.truthy l).
Proof.
  intros H. apply Forall_forall. intros p Hp. apply filter_In in Hp as [Hp Ht].
  split; [exact Ht | exact (proj1 (Forall_forall _ _) H p Hp)].
Qed.

Lemma case_entry_trimmed (st : walk) (row : node) :
  trimmed (current_court st) = true -> trimmed (current_judge st) = true ->
  trimmed (current_category st) = true ->
  entry_trimmed (case_entry_of st row) = true.
Proof.
  intros Hc Hj Hk. unfold entry_trimmed, case_entry_of.
  cbn [serial_no case_type_no title advocates court_no judge_name category].
  rewrite Hc, Hj, Hk, strip_trimmed, !andb_true_r.
  rewrite (title_of_trimmed _ (br_parts_parts _)), andb_true_r.
  apply andb_true_intro. split.
  - destruct (nth_in_or_default 1 (cell_texts_of row) "") as [Hin| ->]; [|reflexivity].
    exact (proj1 (Forall_forall _ _) (cell_texts_trimmed row) _ Hin).
  - apply join_trimmed, filter_truthy_trimmed, Forall_map, Forall_forall.
    intros c _. apply join_trimmed, br_parts_parts.
Qed.

Lemma walk_trimmed (rows : list node) :
  let st := fold_left row_step rows walk_start in
  trimmed (current_court st) = true /\ trimmed (current_judge st) = true
  /\ trimmed (current_category st) = true
  /\ Forall (fun e => entry_trimmed e = true) (records st).
Proof.
  apply (fold_invariant
           (fun st => trimmed (current_court st) = true /\ trimmed (current_judge st) = true
                      /\ trimmed (current_category st) = true
                      /\ Forall (fun e => entry_trimmed e = true) (records st)));
    [|repeat split; constructor].
  intros st row (Hc & Hj & Hk & Hr).
  assert (Hfull : trimmed (full_text_of row) = true) by apply strip_trimmed.
  apply row_step_cases; cbn [records current_court current_judge current_category with_category].
  - auto.
  - auto.
  - repeat split; auto.
    apply join_trimmed, filter_truthy_trimmed, cell_texts_trimmed.
  - auto.
  - intros _. repeat split; auto.
    apply Forall_app. split; [exact Hr|]. constructor; [|constructor].
    now apply case_entry_trimmed.
Qed.

(** X7. Every text field of every entry [parse_to_records] returns is
    trimmed: stripping it again changes nothing. *)
Theorem parsed_fields_trimmed (soup : node) (entries : list CaseEntry) (e : CaseEntry) :
  parse_soup soup = Ok entries -> In e entries ->
  PyStr.strip (serial_no e) = serial_no e
  /\ PyStr.strip (case_type_no e) = case_type_no e
  /\ PyStr.strip (title e) = title e
  /\ PyStr.strip (advocates e) = advocates e
  /\ PyStr.strip (court_no e) = court_no e
  /\ PyStr.strip (judge_name e) = judge_name e
  /\ PyStr.strip (category e) = category e.
Proof.
  rewrite parse_soup_walk. intros E He. injection E as <-.
  destruct (walk_trimmed (all_rows soup)) as (_ & _ & _ & Hr).
  pose proof (proj1 (Forall_forall _ _) Hr e He) as H.
  unfold entry_trimmed in H.
  do 6 (apply andb_prop in H as [H ?]).
  repeat split; now apply trimmed_strip.
Qed.

Lemma parsed_fields_trimmed_witness :
  let e := mkCaseEntry "12" "CW/9" "A  B Vs C" "X, Y" "Court No : 4" "" "FOR ORDERS" in
  PyStr.strip (serial_no e) = serial_no e /\ PyStr.strip (title e) = title e.
Proof.
  intros e.
  destruct (parsed_fields_trimmed
              (document [tr [" Court No : 4 "]; tr ["FOR ORDERS "];
                         Tag "tr" [td " 12 "; td "CW/9 ";
                                   Tag "td" [Text " A  B "; Tag "br" []; Text " C "];
                                   Tag "td" [Text " X"; Tag "br" []; Text "Y "]]])
              [e] e)
    as (H1 & _ & H3 & _); [vm_compute; reflexivity | now left |].
  split; [exact H1 | exact H3].
Defined.

(** ** Stamps follow the rule order *)

Lemma walk_stamps (rows : list node) :
  let st := fold_left row_step rows walk_start in
  negb (PyStr.truthy (current_court st)) || court_text (current_court st) = true
  /\ negb (PyStr.truthy (current_category st)) || plain_text (current_category st) = true
  /\ forallb entry_stamps_ok (records st) = true.
Proof.
  apply (fold_invariant
           (fun st =>
              negb (PyStr.truthy (current_court st)) || court_text (current_court st) = true
              /\ negb (PyStr.truthy (current_category st))
                 || plain_text (current_category st) = true
              /\ forallb entry_stamps_ok (records st) = true));
    [|repeat split].
  intros st row (Hc & Hk & Hr).
  apply row_step_cases; cbn [records current_court current_judge current_category with_category].
  - auto.
  - intros Hcourt. repeat split; [|exact Hr].
    change (court_text (full_text_of row)) with (is_court_header row).
    rewrite Hcourt. apply orb_true_r.
  - auto.
  - intros H1 H2 H3 H4. repeat split; [exact Hc | | exact Hr].
    assert (Hp : plain_text (full_text_of row) = true); [|rewrite Hp; apply orb_true_r].
    unfold plain_text.
    change (court_text (full_text_of row)) with (is_court_header row).
    change (PyStr.contains "hon'ble" (PyStr.lower (full_text_of row))
            || PyStr.contains "justice" (PyStr.lower (full_text_of row)))
      with (is_judge_row row).
    change (any_in ["s.no"; "sr.no"; "case type"; "name of advocate"]
                   (PyStr.lower (full_text_of row)))
      with (is_column_header row).
    rewrite H2, H3, H4. cbn [negb andb]. rewrite !andb_true_r.
    unfold is_blank_or_pagination in H1.
    destruct (cell_texts_of row); [discriminate|].
    apply orb_false_iff in H1 as [_ H1]. unfold lower_text_of in H1. now rewrite H1.
  - intros _. repeat split; [exact Hc | exact Hk |].
    rewrite forallb_app, Hr. cbn [forallb andb].
    unfold entry_stamps_ok, case_entry_of. cbn [court_no category].
    now rewrite Hc, Hk.
Qed.

(** X8. The stamps of an entry respect the rule order: its court is empty
    or a text that rule 2 takes for a court header (it mentions "court no"
    or "court room"), and its category is empty or a text that none of
    rules 1 to 4 takes (no page footer, court header, judge line or column
    header is ever used as a category). *)
Theorem parsed_stamps_follow_rules (soup : node) :
  exists entries,
    parse_soup soup = Ok entries
    /\ forallb entry_stamps_ok entries = true.
Proof.
  eexists. split; [apply parse_soup_walk|].
  apply (walk_stamps (all_rows soup)).
Qed.

(** ** What an entry holds comes from its row alone *)

Lemma row_step_yield (st : walk) (row : node) :
  records (row_step st row)
  = if yields_case row then (records st ++ [case_entry_of st row])%list else records st.
Proof.
  unfold row_step, yields_case, with_category.
  destruct (is_blank_or_pagination row); [reflexivity|].
  destruct (is_court_header row); [reflexivity|].
  destruct (is_judge_row row); [reflexivity|].
  destruct (is_column_header row); [reflexivity|]. cbn [negb andb].
  destruct (has_header_shape row) eqn:Hs.
  - assert (Hc : is_case_row row = false).
    { unfold has_header_shape in Hs. apply andb_prop in Hs as [Hs _].
      apply Nat.leb_le in Hs. unfold is_case_row.
      destruct (3 <=? length (cell_texts_of row)) eqn:E; [|reflexivity].
      apply Nat.leb_le in E. lia. }
    rewrite Hc. destruct (is_boilerplate row); reflexivity.
  - destruct (is_case_row row); [reflexivity|].
    destruct ((3 <=? length (cell_texts_of row)) && negb (has_skip_keyword row)); reflexivity.
Qed.

Lemma walk_content (rows : list node) :
  forall st,
    map case_content (records (fold_left row_step rows st))
    = (map case_content (records st)
       ++ map (fun row => case_content (case_entry_of walk_start row))
              (filter yields_case rows))%list.
Proof.
  induction rows as [|row rows IH]; intros st; cbn [fold_left filter].
  - now rewrite app_nil_r.
  - rewrite IH, row_step_yield. destruct (yields_case row); [|reflexivity].
    rewrite map_app, <- app_assoc. reflexivity.
Qed.


(** ** Grouping rearranges, and keeps the first header *)

Lemma concat_map_nil {A B : Type} (ks : list A) :
  concat (map (fun _ : A => @nil B) ks) = [].
Proof. induction ks as [|k ks IH]; [reflexivity | exact IH]. Qed.

Lemma classes_skip {A : Type} (key : A -> string) (x : A) (l : list A) (ks : list string) :
  ~ In (key x) ks ->
  concat (map (fun k => filter (fun e => String.eqb (key e) k) (x :: l)) ks)
  = concat (map (fun k => filter (fun e => String.eqb (key e) k) l) ks).
Proof.
  induction ks as [|k ks IH]; intros Hn; [reflexivity|].
  cbn [map concat filter].
  destruct (String.eqb (key x) k) eqn:E.
  - apply String.eqb_eq in E. exfalso. apply Hn. now left.
  - f_equal. apply IH. intros H. apply Hn. now right.
Qed.

(** The classes of a list by a key, taken over distinct keys that cover
    the list, are a rearrangement of the list. *)
Lemma classes_permutation {A : Type} (key : A -> string) (l : list A) :
  forall ks,
    NoDup ks -> (forall e, In e l -> In (key e) ks) ->
    Permutation (concat (map (fun k => filter (fun e => String.eqb (key e) k) l) ks)) l.
Proof.
  induction l as [|x l IH]; intros ks Hnd Hcov.
  - cbn [filter]. rewrite concat_map_nil. constructor.
  - destruct (in_split (key x) ks (Hcov x (or_introl eq_refl))) as (ks1 & ks2 & ->).
    apply NoDup_remove_2 in Hnd as Hout.
    rewrite map_app, concat_app. cbn [map concat].
    rewrite (classes_skip key x l ks1), (classes_skip key x l ks2)
      by (intros H; apply Hout, in_or_app; auto).
    cbn [filter]. rewrite String.eqb_refl.
    apply Permutation_sym, (Permutation_trans (l' := x :: concat
             (map (fun k => filter (fun e => String.eqb (key e) k) l) (ks1 ++ key x :: ks2)))).
    + constructor. apply Permutation_sym, IH; [exact Hnd|].
      intros e He. apply Hcov. now right.
    + rewrite map_app, concat_app. cbn [map concat].
      apply (Permutation_middle _ _ x).
Qed.

Lemma first_seen_classes {A : Type} (key : A -> string) (l : list A) :
  Permutation
    (concat (map (fun k => filter (fun e => String.eqb (key e) k) l) (first_seen (map key l))))
    l.
Proof.
  apply classes_permutation; [apply first_seen_NoDup|].
  intros e He. apply (proj2 (first_seen_In _ _)). now apply in_map.
Qed.

Lemma concat_map_permutation {A B : Type} (f g : A -> list B) (ks : list A) :
  (forall k, Permutation (f k) (g k)) ->
  Permutation (concat (map f ks)) (concat (map g ks)).
Proof.
  intros H. induction ks as [|k ks IH]; [constructor|].
  cbn [map concat]. now apply Permutation_app.
Qed.

Lemma grouped_entries_permutation (entries : list CaseEntry) :
  Permutation (grouped_entries (group_spec entries)) entries.
Proof.
  unfold grouped_entries, group_spec. rewrite map_map. cbn [snd].
  apply (Permutation_trans (l' := concat (map (fun k => in_court k entries)
                                              (first_seen (map court_key entries))))).
  - apply concat_map_permutation. intros k.
    unfold section_spec. cbn [categories]. unfold categories_spec.
    rewrite map_map. cbn [snd]. apply first_seen_classes.
  - apply (first_seen_classes court_key).
Qed.

(** X10. Grouping only rearranges: the entries of all categories of all
    sections, read in order, are a permutation of the input.  No section
    is without a category and no category without an entry, and a section
    shows the court and the judge of the first input entry with its key:
    the judge of a later entry of the same court is not shown. *)
Theorem grouping_rearranges (entries : list CaseEntry) :
  exists sections,
    group_sections entries = Ok sections
    /\ group_by_court entries = Ok (map snd sections)
    /\ Permutation (grouped_entries sections) entries
    /\ (forall k sec, In (k, sec) sections ->
          categories sec <> []
          /\ (forall c cases, In (c, cases) (categories sec) -> cases <> [])
          /\ exists first before after,
               entries = (before ++ first :: after)%list
               /\ court_key first = k
               /\ (forall e, In e before -> court_key e <> k)
               /\ section_court_no sec = court_no first
               /\ section_judge_name sec = judge_name first).
Proof.
  exists (group_spec entries).
  split; [apply group_sections_spec|].
  split; [unfold group_by_court; rewrite group_sections_spec; reflexivity|].
  split; [apply grouped_entries_permutation|].
  intros k sec Hin. apply (proj1 (group_spec_In _ _ _)) in Hin as (Hk & ->).
  destruct (section_spec_first entries k Hk)
    as (first & rest & before & after & Ec & El & Hb & Hkey & Hno & Hj).
  assert (Hcat : forall c cases,
             In (c, cases) (categories (section_spec k entries)) -> cases <> []).
  { intros c cases Hc. unfold section_spec in Hc. cbn [categories] in Hc.
    apply (proj1 (categories_spec_In _ _ _)) in Hc as (Hc & ->).
    apply in_map_iff in Hc as (e & <- & He).
    intros Hnil.
    assert (Hin : In e (in_category (category_key e) (in_court k entries))).
    { apply filter_In. split; [exact He | apply String.eqb_refl]. }
    rewrite Hnil in Hin. exact Hin. }
  split; [|split; [exact Hcat|]].
  - unfold section_spec. cbn [categories]. rewrite Ec. unfold categories_spec.
    assert (Hin : In (category_key first) (first_seen (map category_key (first :: rest))))
      by (apply (proj2 (first_seen_In _ _)); now left).
    destruct (first_seen (map category_key (first :: rest))); [destruct Hin | discriminate].
  - exists first, before, after.
    split; [exact El|]. split; [exact Hkey|]. split; [|split; [exact Hno | exact Hj]].
    intros e He Heq.
    assert (Hin : In e (in_court k before)).
    { apply filter_In. split; [exact He | now apply String.eqb_eq]. }
    rewrite Hb in Hin. exact Hin.
Qed.

(** ** [parse_and_display]: column widths and what is printed *)

Lemma fold_left_max (l : list nat) (a : nat) :
  fold_left Nat.max l a = Nat.max a (list_max l).
Proof.
  revert a. induction l as [|x l IH]; intros a; cbn [fold_left list_max fold_right].
  - now rewrite Nat.max_0_r.
  - rewrite IH. fold (list_max l). lia.
Qed.

Lemma py_max_list_max (x : nat) (l : list nat) : py_max (x :: l) = Returns (list_max (x :: l)).
Proof. cbn [py_max]. rewrite fold_left_max. reflexivity. Qed.

Lemma list_max_bound (l : list nat) (x : nat) : In x l -> x <= list_max l.
Proof.
  intros H. assert (Hle : list_max l <= list_max l) by lia.
  apply (proj1 (list_max_le l (list_max l))) in Hle.
  exact (proj1 (Forall_forall _ _) Hle x H).
Qed.

Lemma list_set_spec (l : list nat) :
  forall i v,
    i < length l ->
    exists l',
      list_set l i v = Returns l'
      /\ length l' = length l
      /\ forall j, nth j l' 0 = if j =? i then v else nth j l 0.
Proof.
  induction l as [|x l IH]; intros i v Hi; [cbn in Hi; lia|].
  destruct i as [|i]; cbn [list_set].
  - exists (v :: l). split; [reflexivity|]. split; [reflexivity|].
    intros [|j]; reflexivity.
  - destruct (IH i v) as (l' & -> & Hlen & Hnth); [cbn in Hi; lia|].
    exists (x :: l'). split; [reflexivity|]. split; [cbn; now rewrite Hlen|].
    intros [|j]; [reflexivity|]. cbn [nth]. rewrite Hnth. reflexivity.
Qed.

Lemma widen_spec (ws : list nat) (i : nat) (cell : string) :
  i < length ws ->
  exists ws',
    widen ws i cell = Returns ws'
    /\ length ws' = length ws
    /\ forall j, nth j ws' 0
                 = if j =? i then Nat.max (nth i ws 0) (Nat.min (PyStr.len cell) 50)
                   else nth j ws 0.
Proof.
  intros Hi. unfold widen, list_get.
  destruct (nth_error ws i) as [old|] eqn:E.
  - cbn [and_then]. rewrite (nth_error_nth _ _ 0 E).
    exact (list_set_spec ws i _ Hi).
  - apply nth_error_None in E. lia.
Qed.

Lemma widen_cells_spec (row : list string) :
  forall start ws,
    start + length row <= length ws ->
    exists ws',
      widen_cells ws (enumerate_from start row) = Returns ws'
      /\ length ws' = length ws
      /\ forall j, nth j ws' 0
                   = if (start <=? j) && (j <? start + length row)
                     then Nat.max (nth j ws 0) (Nat.min (PyStr.len (nth (j - start) row "")) 50)
                     else nth j ws 0.
Proof.
  induction row as [|cell row IH]; intros start ws Hlen.
  - exists ws. split; [reflexivity|]. split; [reflexivity|].
    intros j. destruct (start <=? j) eqn:E1; [|reflexivity].
    destruct (j <? start + length (@nil string)) eqn:E2; [|reflexivity].
    apply Nat.leb_le in E1. apply Nat.ltb_lt in E2. cbn in E2. lia.
  - unfold enumerate_from. cbn [length seq combine widen_cells].
    cbn [length] in Hlen.
    destruct (widen_spec ws start cell) as (w1 & -> & Hl1 & Hn1); [lia|].
    cbn [and_then].
    destruct (IH (S start) w1) as (w2 & Hw2 & Hl2 & Hn2); [lia|].
    unfold enumerate_from in Hw2. rewrite Hw2.
    exists w2. split; [reflexivity|]. split; [congruence|].
    intros j. rewrite Hn2, !Hn1.
    destruct (Nat.eq_dec j start) as [->|Hne].
    + rewrite Nat.eqb_refl, Nat.sub_diag. cbn [nth].
      replace (S start <=? start) with false by (symmetry; apply Nat.leb_gt; lia).
      replace (start <=? start) with true by (symmetry; apply Nat.leb_le; lia).
      replace (start <? start + S (length row)) with true
        by (symmetry; apply Nat.ltb_lt; lia).
      reflexivity.
    + replace (j =? start) with false by (symmetry; apply Nat.eqb_neq; exact Hne).
      destruct (S start <=? j) eqn:E1.
      * apply Nat.leb_le in E1.
        replace (start <=? j) with true by (symmetry; apply Nat.leb_le; lia).
        replace (j <? S start + length row) with (j <? start + S (length row))
          by (f_equal; lia).
        replace (j - start) with (S (j - S start)) by lia. reflexivity.
      * apply Nat.leb_gt in E1.
        replace (start <=? j) with false by (symmetry; apply Nat.leb_gt; lia).
        reflexivity.
Qed.

Lemma nth_beyond_len (row : list string) (j : nat) :
  length row <= j -> PyStr.len (nth j row "") = 0.
Proof. intros H. now rewrite nth_overflow. Qed.

Lemma widen_row_spec (row : list string) (ws : list nat) :
  length row <= length ws ->
  exists ws',
    widen_cells ws (enumerate row) = Returns ws'
    /\ length ws' = length ws
    /\ forall j, nth j ws' 0
                 = Nat.max (nth j ws 0) (Nat.min (PyStr.len (nth j row "")) 50).
Proof.
  intros Hlen.
  destruct (widen_cells_spec row 0 ws) as (ws' & E & Hl & Hn); [cbn; lia|].
  exists ws'. split; [exact E|]. split; [exact Hl|].
  intros j. rewrite Hn. cbn [Nat.leb andb Nat.add]. rewrite Nat.sub_0_r.
  destruct (j <? length row) eqn:E1; [reflexivity|].
  apply Nat.ltb_ge in E1. rewrite (nth_beyond_len row j E1). cbn [Nat.min]. lia.
Qed.

Lemma widen_rows_spec (all_cells : list (list string)) :
  forall ws,
    (forall row, In row all_cells -> length row <= length ws) ->
    exists ws',
      widen_rows ws all_cells = Returns ws'
      /\ length ws' = length ws
      /\ forall j, nth j ws' 0 = Nat.max (nth j ws 0) (widest all_cells j).
Proof.
  induction all_cells as [|row rest IH]; intros ws Hlen.
  - exists ws. split; [reflexivity|]. split; [reflexivity|].
    intros j. unfold widest. cbn. lia.
  - cbn [widen_rows].
    destruct (widen_row_spec row ws) as (w1 & -> & Hl1 & Hn1); [apply Hlen; now left|].
    cbn [and_then].
    destruct (IH w1) as (w2 & -> & Hl2 & Hn2).
    { intros r Hr. rewrite Hl1. apply Hlen. now right. }
    exists w2. split; [reflexivity|]. split; [congruence|].
    intros j. rewrite Hn2, Hn1. unfold widest. cbn [map list_max fold_right].
    fold (list_max (map (fun r => Nat.min (PyStr.len (nth j r "")) 50) rest)). lia.
Qed.

Lemma nth_repeat_0 (n j : nat) : nth j (repeat 0 n) 0 = 0.
Proof.
  revert j. induction n as [|n IH]; intros [|j]; cbn; try reflexivity. apply IH.
Qed.

Lemma col_widths_of_spec (all_cells : list (list string)) :
  all_cells <> [] ->
  exists col_widths,
    col_widths_of all_cells = Returns col_widths
    /\ length col_widths = list_max (map (@length string) all_cells)
    /\ forall j, nth j col_widths 0 = widest all_cells j.
Proof.
  intros Hne. unfold col_widths_of.
  destruct all_cells as [|row rest]; [congruence|].
  cbn [map]. rewrite py_max_list_max. cbn [and_then].
  set (m := list_max (length row :: map (@length string) rest)).
  destruct (widen_rows_spec (row :: rest) (repeat 0 m)) as (ws & E & Hl & Hn).
  { intros r Hr. rewrite repeat_length. apply list_max_bound.
    change (length row :: map (@length string) rest)
      with (map (@length string) (row :: rest)). now apply in_map. }
  exists ws. split; [exact E|]. split; [now rewrite Hl, repeat_length|].
  intros j. rewrite Hn, nth_repeat_0. reflexivity.
Qed.

Lemma display_table_lines (table : node) :
  exists lines,
    display_table table = Returns lines /\ length lines = lines_of_table table.
Proof.
  unfold display_table, lines_of_table.
  destruct (find_all ["tr"] table) as [|row rows]; [exists []; split; reflexivity|].
  destruct (col_widths_of_spec (map cell_texts_of (row :: rows))) as (ws & E & _);
    [discriminate|].
  cbn [map] in E |- *. rewrite E. cbn [and_then].
  eexists. split; [reflexivity|].
  rewrite length_app. cbn [length map]. rewrite !length_map. lia.
Qed.

Lemma display_tables_lines (tables : list node) :
  forall printed,
    exists lines,
      display_tables tables printed = (lines, None)
      /\ length lines = length printed + list_sum (map lines_of_table tables).
Proof.
  induction tables as [|table rest IH]; intros printed.
  - exists printed. split; [reflexivity|]. cbn. lia.
  - cbn [display_tables].
    destruct (display_table_lines table) as (lines & -> & Hl).
    destruct (IH (printed ++ lines)%list) as (out & -> & Ho).
    exists out. split; [reflexivity|].
    rewrite Ho, length_app, Hl. cbn [map list_sum fold_right].
    fold (list_sum (map lines_of_table rest)). lia.
Qed.

Lemma display_soup_prints (soup : node) :
  exists printed,
    parse_and_display_soup soup = (printed, None)
    /\ length printed
       = match find_all ["table"] soup with
         | [] => 1
         | tables => list_sum (map lines_of_table tables)
         end
    /\ (find_all ["table"] soup = [] ->
        printed = [or_else (get_text_sep_strip LF soup)
                           "No displayable content found in response."]).
Proof.
  unfold parse_and_display_soup.
  destruct (find_all ["table"] soup) as [|table rest] eqn:E.
  - unfold or_else.
    destruct (get_text_sep_strip LF soup) as [|c s] eqn:Et; cbn [PyStr.truthy].
    + eexists. split; [reflexivity|]. split; reflexivity.
    + eexists. split; [reflexivity|]. split; reflexivity.
  - destruct (display_tables_lines (table :: rest) []) as (out & -> & Ho).
    exists out. split; [reflexivity|]. split; [exact Ho | discriminate].
Qed.



Lemma nth_enumerate_from {A : Type} (d : A) (row : list A) :
  forall start i,
    i < length row ->
    nth i (enumerate_from start row) (0, d) = (start + i, nth i row d).
Proof.
  unfold enumerate_from.
  induction row as [|x row IH]; intros start i Hi; [cbn in Hi; lia|].
  cbn [length seq combine]. destruct i as [|i]; cbn [nth].
  - now rewrite Nat.add_0_r.
  - rewrite IH by (cbn in Hi; lia). f_equal. lia.
Qed.

Lemma length_enumerate {A : Type} (row : list A) : length (enumerate row) = length row.
Proof.
  unfold enumerate, enumerate_from. rewrite length_combine, length_seq. lia.
Qed.

Lemma nth_formatted (ws : list nat) (row : list string) (i : nat) :
  i < length row ->
  nth i (formatted ws row) "" = ljust (width_at ws i) (display_of (nth i row "")).
Proof.
  intros Hi. unfold formatted.
  rewrite (nth_indep _ "" (format_cell ws (0, "")))
    by (now rewrite length_map, length_enumerate).
  rewrite map_nth. unfold enumerate. rewrite (nth_enumerate_from "" row 0 i Hi).
  reflexivity.
Qed.

Lemma len_str_repeat (c : ascii) (n : nat) : PyStr.len (str_repeat c n) = n.
Proof.
  induction n as [|n IH]; [reflexivity|].
  cbn [str_repeat]. unfold PyStr.len in *. cbn [String.length]. now rewrite IH.
Qed.

Lemma len_str_take (n : nat) :
  forall s, n <= PyStr.len s -> PyStr.len (str_take n s) = n.
Proof.
  induction n as [|n IH]; intros s Hs; [reflexivity|].
  destruct s as [|c s]; [cbn in Hs; lia|].
  cbn [str_take]. unfold PyStr.len in *. cbn [String.length] in *.
  f_equal. apply IH. lia.
Qed.

Lemma str_take_prefix (n : nat) : forall s, exists rest, s = str_take n s ++ rest.
Proof.
  induction n as [|n IH]; intros s.
  - exists s. now destruct s.
  - destruct s as [|c s]; [now exists ""|].
    destruct (IH s) as (rest & E). exists rest. cbn [str_take]. cbn. now rewrite <- E.
Qed.

Lemma string_app_nil_r (s : string) : s ++ "" = s.
Proof. induction s as [|c s IH]; [reflexivity|]. cbn. now rewrite IH. Qed.

Lemma ljust_pads (width : nat) (s : string) :
  ljust width s = s ++ str_repeat " "%char (width - PyStr.len s).
Proof.
  unfold ljust. destruct (width <=? PyStr.len s) eqn:E; [|reflexivity].
  apply Nat.leb_le in E. replace (width - PyStr.len s) with 0 by lia.
  cbn [str_repeat]. now rewrite string_app_nil_r.
Qed.

Lemma widest_cap (all_cells : list (list string)) (i : nat) : widest all_cells i <= 50.
Proof.
  unfold widest. apply (proj2 (list_max_le _ _)), Forall_forall.
  intros x Hx. apply in_map_iff in Hx as (row & <- & _). apply Nat.le_min_r.
Qed.

Lemma widest_cell (all_cells : list (list string)) (row : list string) (i : nat) :
  In row all_cells -> Nat.min (PyStr.len (nth i row "")) 50 <= widest all_cells i.
Proof.
  intros Hr. unfold widest. apply list_max_bound.
  apply in_map_iff. exists row. split; [reflexivity | exact Hr].
Qed.

(** X12. The column widths are those of the widest text of each column,
    capped at 50, one per column of the longest row.  A cell of at most 50
    characters is printed followed by spaces up to the width of its
    column, so that such cells line up; a longer cell is printed as its
    first 50 characters and three dots, 53 characters in a column of
    width 50, and is not padded. *)
Theorem display_columns (all_cells : list (list string)) :
  all_cells <> [] ->
  exists col_widths,
    col_widths_of all_cells = Returns col_widths
    /\ length col_widths = list_max (map (@length string) all_cells)
    /\ (forall i, nth i col_widths 0 = widest all_cells i)
    /\ forall row i,
         In row all_cells -> i < length row ->
         let cell := nth i row "" in
         let shown := nth i (formatted col_widths row) "" in
         (PyStr.len cell <= 50 ->
          shown = cell ++ str_repeat " "%char (widest all_cells i - PyStr.len cell)
          /\ PyStr.len shown = widest all_cells i)
         /\ (50 < PyStr.len cell ->
             shown = str_take 50 cell ++ "..."
             /\ PyStr.len shown = 53
             /\ widest all_cells i = 50).
Proof.
  intros Hne.
  destruct (col_widths_of_spec all_cells Hne) as (ws & E & Hlen & Hnth).
  exists ws. split; [exact E|]. split; [exact Hlen|]. split; [exact Hnth|].
  intros row i Hrow Hi cell shown.
  assert (Hw : width_at ws i = widest all_cells i).
  { unfold width_at.
    assert (Hlt : i < length ws).
    { rewrite Hlen. apply (Nat.lt_le_trans _ (length row)); [exact Hi|].
      apply list_max_bound. now apply in_map. }
    apply Nat.ltb_lt in Hlt. rewrite Hlt. apply Hnth. }
  assert (Hshown : shown = ljust (widest all_cells i) (display_of cell)).
  { unfold shown. rewrite (nth_formatted ws row i Hi), Hw. reflexivity. }
  assert (Hcell := widest_cell all_cells row i Hrow). fold cell in Hcell.
  assert (Hcap := widest_cap all_cells i).
  split.
  - intros Hshort.
    assert (Hd : display_of cell = cell).
    { unfold display_of. apply Nat.ltb_ge in Hshort. now rewrite Hshort. }
    rewrite Hshown, Hd, ljust_pads. split; [reflexivity|].
    rewrite len_app, len_str_repeat. lia.
  - intros Hlong.
    assert (Hd : display_of cell = str_take 50 cell ++ "...").
    { unfold display_of. apply Nat.ltb_lt in Hlong. now rewrite Hlong. }
    assert (Hl : PyStr.len (str_take 50 cell ++ "...") = 53).
    { rewrite len_app, len_str_take by lia. reflexivity. }
    assert (Hs : shown = str_take 50 cell ++ "...").
    { rewrite Hshown, Hd, ljust_pads.
      replace (widest all_cells i - PyStr.len (str_take 50 cell ++ "...")) with 0 by lia.
      cbn [str_repeat]. apply string_app_nil_r. }
    split; [exact Hs|]. split; [now rewrite Hs | lia].
Qed.

Lemma display_columns_witness :
  exists col_widths,
    col_widths_of [["1"; "CW 12/2024"]; ["22"]] = Returns col_widths
    /\ nth 0 (formatted col_widths ["1"; "CW 12/2024"]) "" = "1 ".
Proof.
  destruct (display_columns [["1"; "CW 12/2024"]; ["22"]]) as (ws & E & _ & _ & H);
    [discriminate|].
  exists ws. split; [exact E|].
  destruct (H ["1"; "CW 12/2024"] 0) as ((Hs & _) & _);
    [now left | cbn; lia | cbn; lia |].
  exact Hs.
Defined.

(** ** [next_working_day] *)

Lemma skip_weekend_workday (d : date) : (weekday d < 5)%Z -> skip_weekend d = Returns d.
Proof.
  intros Hd. funelim (skip_weekend d).
  - reflexivity.
  - assert (H' := proj1 (Z.leb_le _ _) Hweekend). lia.
  - assert (H' := proj1 (Z.leb_le _ _) Hweekend). lia.
Qed.

Lemma skip_weekend_weekend (d : date) :
  (5 <= weekday d)%Z -> skip_weekend d = and_then (add_days d 1) skip_weekend.
Proof.
  intros Hd. funelim (skip_weekend d).
  - assert (H' := proj1 (Z.leb_gt _ _) Hworkday). lia.
  - rewrite Hnext. reflexivity.
  - rewrite Hend. reflexivity.
Qed.

Lemma add_days_in_range (d : date) (n : Z) :
  (0 < d + n <= MAXORDINAL)%Z -> add_days d n = Returns (d + n)%Z.
Proof.
  intros [H1 H2]. unfold add_days.
  apply Z.ltb_lt in H1. apply Z.leb_le in H2. now rewrite H1, H2.
Qed.

Lemma add_days_beyond (d : date) (n : Z) :
  (MAXORDINAL < d + n)%Z -> add_days d n = Raises Builtin.OverflowError.
Proof.
  intros H. unfold add_days.
  apply Z.leb_gt in H. rewrite H. now rewrite andb_false_r.
Qed.

Ltac weekdays :=
  unfold valid_date, weekday, MAXORDINAL in *;
  Z.to_euclidean_division_equations; lia.

(** X13. [next_working_day(d)] returns the first day after [d] that is not
    a Saturday or a Sunday: the next day, except after a Friday (three
    days later) and after a Saturday (two days later).  Only for the last
    date of the calendar, 9999-12-31, does it raise [OverflowError]; the
    loop over the weekend never does.  Without an argument it answers for
    today. *)
Theorem next_working_day_first (today d : date) :
  valid_date d ->
  (d = MAXORDINAL -> next_working_day today (Some d) = Raises Builtin.OverflowError)
  /\ ((d < MAXORDINAL)%Z ->
      exists r,
        next_working_day today (Some d) = Returns r
        /\ valid_date r
        /\ (d < r)%Z
        /\ (weekday r < 5)%Z
        /\ (forall x, (d < x < r)%Z -> (5 <= weekday x)%Z)
        /\ r = (d + (if (weekday d =? 4)%Z then 3
                     else if (weekday d =? 5)%Z then 2 else 1))%Z)
  /\ next_working_day d None = next_working_day today (Some d).
Proof.
  intros Hv. split; [|split; [|reflexivity]].
  - intros ->. unfold next_working_day.
    rewrite add_days_beyond by (unfold MAXORDINAL; lia). reflexivity.
  - intros Hlt. unfold next_working_day.
    rewrite (add_days_in_range d 1%Z) by (unfold valid_date in Hv; lia).
    cbn [and_then].
    destruct (weekday d =? 4)%Z eqn:E4; [|destruct (weekday d =? 5)%Z eqn:E5].
    + apply Z.eqb_eq in E4.
      rewrite (skip_weekend_weekend (d + 1)%Z) by weekdays.
      rewrite (add_days_in_range (d + 1)%Z 1%Z) by weekdays. cbn [and_then].
      rewrite (skip_weekend_weekend (d + 1 + 1)%Z) by weekdays.
      rewrite (add_days_in_range (d + 1 + 1)%Z 1%Z) by weekdays. cbn [and_then].
      rewrite (skip_weekend_workday (d + 1 + 1 + 1)%Z) by weekdays.
      exists (d + 3)%Z. split; [f_equal; lia|].
      split; [weekdays|]. split; [lia|]. split; [weekdays|].
      split; [intros x Hx; weekdays | reflexivity].
    + apply Z.eqb_eq in E5.
      rewrite (skip_weekend_weekend (d + 1)%Z) by weekdays.
      rewrite (add_days_in_range (d + 1)%Z 1%Z) by weekdays. cbn [and_then].
      rewrite (skip_weekend_workday (d + 1 + 1)%Z) by weekdays.
      exists (d + 2)%Z. split; [f_equal; lia|].
      split; [weekdays|]. split; [lia|]. split; [weekdays|].
      split; [intros x Hx; weekdays | reflexivity].
    + apply Z.eqb_neq in E4. apply Z.eqb_neq in E5.
      rewrite (skip_weekend_workday (d + 1)%Z) by weekdays.
      exists (d + 1)%Z. split; [reflexivity|].
      split; [weekdays|]. split; [lia|]. split; [weekdays|].
      split; [intros x Hx; lia | reflexivity].
Qed.

Lemma next_working_day_first_witness :
  next_working_day 738890%Z (Some 738890%Z) = Returns 738893%Z.
Proof.
  destruct (next_working_day_first 738890%Z 738890%Z) as (_ & H & _);
    [unfold valid_date, MAXORDINAL; lia|].
  assert (Hlt : (738890 < MAXORDINAL)%Z) by (unfold MAXORDINAL; lia).
  destruct (H Hlt) as (r & E & _ & _ & _ & _ & Hr).
  rewrite Hr in E. exact E.
Defined.

(** ** [bot/formatter.py]: what the messages hold and how long they get *)

Lemma has_ink_app (a b : string) : has_ink (a ++ b) = has_ink a || has_ink b.
Proof.
  induction a as [|c a IH]; [reflexivity|].
  cbn [append has_ink]. rewrite IH. apply orb_assoc.
Qed.

Lemma rstrip_truthy_ink (s : string) :
  PyStr.truthy (PyStr.rstrip_by PyStr.isspace s) = has_ink s.
Proof.
  induction s as [|c s IH]; [reflexivity|].
  cbn [PyStr.rstrip_by has_ink]. rewrite <- IH.
  destruct (PyStr.rstrip_by PyStr.isspace s).
  - destruct (PyStr.isspace c); reflexivity.
  - cbn [PyStr.truthy]. now rewrite orb_true_r.
Qed.

Lemma lstrip_ink (s : string) : has_ink (PyStr.lstrip_by PyStr.isspace s) = has_ink s.
Proof.
  induction s as [|c s IH]; [reflexivity|].
  cbn [PyStr.lstrip_by has_ink].
  destruct (PyStr.isspace c) eqn:E; [exact IH|].
  cbn [has_ink]. now rewrite E.
Qed.

Lemma strip_truthy_ink (s : string) : PyStr.truthy (PyStr.strip s) = has_ink s.
Proof. unfold PyStr.strip. now rewrite rstrip_truthy_ink, lstrip_ink. Qed.

Lemma join_empty_app (l1 l2 : list string) :
  PyStr.join "" (l1 ++ l2) = PyStr.join "" l1 ++ PyStr.join "" l2.
Proof.
  induction l1 as [|p l1 IH]; [reflexivity|].
  cbn [app]. rewrite !join_empty_cons, IH, append_assoc. reflexivity.
Qed.

Lemma join_head_ink (sep p : string) (rest : list string) :
  has_ink p = true -> has_ink (PyStr.join sep (p :: rest)) = true.
Proof.
  intros Hp. destruct rest as [|q rest]; [exact Hp|].
  cbn [PyStr.join]. now rewrite has_ink_app, Hp.
Qed.

Lemma startswith_prefix (p s : string) :
  PyStr.startswith p s = true -> exists t, s = p ++ t.
Proof.
  unfold PyStr.startswith. revert s.
  induction p as [|c p IH]; intros s H; [now exists s|].
  destruct s as [|d s]; [discriminate|]. cbn [String.prefix] in H.
  destruct (ascii_dec c d) as [->|]; [|discriminate].
  destruct (IH s H) as (t & ->). now exists t.
Qed.

Section FormatterFacts.

Variable escape : string -> string.

Lemma flush_ink (messages : list string) (current : string) :
  has_ink current = true -> flush messages current = (messages ++ [current])%list.
Proof. intros H. unfold flush. now rewrite strip_truthy_ink, H. Qed.

Lemma flush_blank (messages : list string) (current : string) :
  has_ink current = false -> flush messages current = messages.
Proof. intros H. unfold flush. now rewrite strip_truthy_ink, H. Qed.

Lemma contd_header_ink (section : CourtSection) (type_name : string) :
  has_ink (contd_header escape section type_name) = true.
Proof. reflexivity. Qed.

Lemma list_contd_ink (type_name t : string) :
  has_ink (list_contd escape type_name ++ t) = true.
Proof. reflexivity. Qed.

Lemma message_header_ink (type_name target_date lawyer_name t : string) (found : nat) :
  has_ink (message_header escape type_name target_date lawyer_name found ++ t) = true.
Proof. reflexivity. Qed.

Lemma no_cases_message_ink (type_name target_date lawyer_name : string) :
  has_ink (no_cases_message escape type_name target_date lawyer_name) = true.
Proof. reflexivity. Qed.

(** *** [_split_large_section] *)

Lemma cases_text_snoc (cases : list CaseEntry) (c : CaseEntry) :
  cases_text escape (cases ++ [c]) = cases_text escape cases ++ case_text escape c.
Proof.
  unfold cases_text. rewrite map_app, join_empty_app. reflexivity.
Qed.

Lemma tl_snoc {A : Type} (l : list A) (x y : A) :
  tl ((l ++ [x]) ++ [y]) = (tl (l ++ [x]) ++ [y])%list.
Proof. destruct l; reflexivity. Qed.

Lemma split_cases_fold (start : string) (cases : list CaseEntry) :
  forall groups g,
    Forall (group_accounted escape start) (groups ++ [g]) ->
    Forall (fun g' => g' <> []) (tl (groups ++ [g])) ->
    exists groups' g',
      fold_left (split_step escape start) cases
                (map (split_message escape start) groups, split_message escape start g)
      = (map (split_message escape start) groups', split_message escape start g')
      /\ concat (groups' ++ [g']) = (concat (groups ++ [g]) ++ cases)%list
      /\ Forall (group_accounted escape start) (groups' ++ [g'])
      /\ Forall (fun g' => g' <> []) (tl (groups' ++ [g'])).
Proof.
  induction cases as [|c cases IH]; intros groups g Hok Hne.
  - exists groups, g. split; [reflexivity|]. split; [now rewrite app_nil_r | auto].
  - cbn [fold_left]. unfold split_step at 2. cbn [fst snd].
    destruct (TELEGRAM_MAX_MESSAGE_LENGTH
              <? PyStr.len (split_message escape start g)
                 + PyStr.len (case_text escape c)) eqn:E.
    + change (map (split_message escape start) groups ++ [split_message escape start g])%list
        with (map (split_message escape start) groups
              ++ map (split_message escape start) [g])%list.
      rewrite <- map_app.
      change (start ++ case_text escape c) with (split_message escape start [c]).
      destruct (IH (groups ++ [g])%list [c]) as (groups' & g' & Ef & Ec & Hok' & Hne').
      { apply Forall_app. split; [exact Hok|].
        constructor; [|constructor]. left. cbn. lia. }
      { rewrite tl_snoc. apply Forall_app. split; [exact Hne|].
        constructor; [discriminate | constructor]. }
      exists groups', g'. split; [exact Ef|]. split; [|auto].
      rewrite Ec, !concat_app. cbn [concat]. rewrite !app_nil_r, <- app_assoc.
      reflexivity.
    + apply Nat.ltb_ge in E.
      assert (Em : split_message escape start g ++ case_text escape c
                   = split_message escape start (g ++ [c])).
      { unfold split_message. now rewrite cases_text_snoc, append_assoc. }
      rewrite Em.
      apply Forall_app in Hok as [Hok1 _].
      destruct (IH groups (g ++ [c])%list) as (groups' & g' & Ef & Ec & Hok' & Hne').
      { apply Forall_app. split; [exact Hok1|].
        constructor; [|constructor]. right.
        rewrite <- Em, len_app. exact E. }
      { destruct groups as [|g0 groups]; [constructor|].
        cbn [app tl] in Hne |- *.
        apply Forall_app in Hne as [Hne _]. apply Forall_app. split; [exact Hne|].
        constructor; [|constructor]. now destruct g. }
      exists groups', g'. split; [exact Ef|]. split; [|auto].
      rewrite Ec, !concat_app. cbn [concat]. rewrite !app_nil_r, <- !app_assoc.
      reflexivity.
Qed.

Lemma split_loop_fold (start : string) (runs : list (list CaseEntry)) :
  forall groups g,
    Forall (group_accounted escape start) (groups ++ [g]) ->
    Forall (fun g' => g' <> []) (tl (groups ++ [g])) ->
    exists groups' g',
      split_loop escape start runs
                 (map (split_message escape start) groups, split_message escape start g)
      = (map (split_message escape start) groups', split_message escape start g')
      /\ concat (groups' ++ [g']) = (concat (groups ++ [g]) ++ concat runs)%list
      /\ Forall (group_accounted escape start) (groups' ++ [g'])
      /\ Forall (fun g' => g' <> []) (tl (groups' ++ [g'])).
Proof.
  unfold split_loop.
  induction runs as [|cases runs IH]; intros groups g Hok Hne.
  - exists groups, g. split; [reflexivity|]. split; [now rewrite app_nil_r | auto].
  - cbn [fold_left concat].
    destruct (split_cases_fold start cases groups g Hok Hne)
      as (groups1 & g1 & -> & Ec1 & Hok1 & Hne1).
    destruct (IH groups1 g1 Hok1 Hne1) as (groups2 & g2 & -> & Ec2 & Hok2 & Hne2).
    exists groups2, g2. split; [reflexivity|]. split; [|auto].
    rewrite Ec2, Ec1, app_assoc. reflexivity.
Qed.

(** The messages of [_split_large_section], as runs of cases. *)
Lemma split_section_runs (section : CourtSection) (type_name : string) :
  exists groups g,
    _split_large_section escape section type_name
    = map (split_message escape (contd_header escape section type_name)) (groups ++ [g])
    /\ concat (groups ++ [g]) = concat (map snd (categories section))
    /\ Forall (group_accounted escape (contd_header escape section type_name))
              (groups ++ [g])
    /\ Forall (fun g' => g' <> []) (tl (groups ++ [g])).
Proof.
  unfold _split_large_section.
  set (start := contd_header escape section type_name).
  destruct (split_loop_fold start (map snd (categories section)) [] [])
    as (groups & g & E & Ec & Hok & Hne).
  - constructor; [|constructor]. left. cbn. lia.
  - constructor.
  - cbn [map] in E.
    change (split_message escape start []) with (start ++ "") in E.
    rewrite append_empty_r in E. rewrite E. cbn [fst snd].
    rewrite flush_ink
      by (unfold split_message, start; rewrite has_ink_app, contd_header_ink; reflexivity).
    exists groups, g. split; [now rewrite map_app|]. auto.
Qed.

(** X14. [_split_large_section] cuts a section between cases only.  Every
    message it returns is the continuation line and the section header
    followed by the complete texts of consecutive cases, and the cases of
    all messages, in order, are the section's cases in order: none is
    lost, repeated or cut.  There is always at least one message, and only
    the first can be without a case.  A message that holds two or more
    cases is within the limit; one that holds a single case, or none, is
    returned whatever its length, so it exceeds the limit when the header
    with that case, or the header alone, does. *)
Theorem split_large_section_partition (section : CourtSection) (type_name : string) :
  let start := contd_header escape section type_name in
  exists groups,
    _split_large_section escape section type_name
    = map (split_message escape start) groups
    /\ groups <> []
    /\ concat groups = concat (map snd (categories section))
    /\ Forall (group_accounted escape start) groups
    /\ Forall (fun g => g <> []) (tl groups)
    /\ (forall g, In g groups -> 2 <= length g ->
          PyStr.len (split_message escape start g) <= TELEGRAM_MAX_MESSAGE_LENGTH)
    /\ (forall m, In m (_split_large_section escape section type_name) ->
          PyStr.startswith start m = true).
Proof.
  intros start.
  destruct (split_section_runs section type_name) as (groups & g & E & Ec & Hok & Hne).
  fold start in E, Hok.
  exists (groups ++ [g])%list.
  split; [exact E|].
  split; [intros H; now apply app_eq_nil in H as [_ H]|].
  split; [exact Ec|]. split; [exact Hok|]. split; [exact Hne|]. split.
  - intros g' Hin H2.
    destruct (proj1 (Forall_forall _ _) Hok g' Hin) as [H1 | H]; [lia | exact H].
  - intros m Hm. rewrite E in Hm. apply in_map_iff in Hm as (g' & <- & _).
    apply startswith_append.
Qed.

Lemma split_messages_ink (section : CourtSection) (type_name m : string) :
  In m (_split_large_section escape section type_name) -> has_ink m = true.
Proof.
  destruct (split_section_runs section type_name) as (groups & g & -> & _).
  intros H. apply in_map_iff in H as (g' & <- & _).
  unfold split_message. now rewrite has_ink_app, contd_header_ink.
Qed.

(** *** [_format_court_section] *)

Lemma case_parts_extend (cases : list CaseEntry) :
  forall parts, exists extra,
    fold_left (fun parts case => (parts ++ [_format_case escape case; ""])%list) cases parts
    = (parts ++ extra)%list.
Proof.
  induction cases as [|c cases IH]; intros parts; [exists []; now rewrite app_nil_r|].
  cbn [fold_left]. destruct (IH (parts ++ [_format_case escape c; ""])%list) as (extra & ->).
  eexists. now rewrite <- app_assoc.
Qed.

Lemma category_parts_extend (parts : list string) (item : string * list CaseEntry) :
  exists extra, category_parts escape parts item = (parts ++ extra)%list.
Proof.
  unfold category_parts.
  destruct (PyStr.truthy (fst item) && negb (String.eqb (fst item) "General"));
    match goal with
    | |- exists _, fold_left _ _ ?p = _ =>
        destruct (case_parts_extend (snd item) p) as (extra & ->)
    end; eexists; rewrite <- ?app_assoc; reflexivity.
Qed.

Lemma section_parts_extend (items : list (string * list CaseEntry)) :
  forall parts, exists extra,
    fold_left (category_parts escape) items parts = (parts ++ extra)%list.
Proof.
  induction items as [|item items IH]; intros parts; [exists []; now rewrite app_nil_r|].
  cbn [fold_left]. destruct (category_parts_extend parts item) as (e1 & ->).
  destruct (IH (parts ++ e1)%list) as (e2 & ->).
  eexists. now rewrite <- app_assoc.
Qed.

Lemma section_text_ink (section : CourtSection) :
  has_ink (_format_court_section escape section) = true.
Proof.
  unfold _format_court_section.
  match goal with
  | |- context [fold_left _ _ ?p] =>
      destruct (section_parts_extend (categories section) p) as (extra & ->)
  end.
  destruct (PyStr.truthy (section_judge_name section));
    cbn [app]; apply join_head_ink; reflexivity.
Qed.

(** *** The loop over the sections *)

Lemma flush_invariant (type_name header : string) (all : list CourtSection)
      (acc : list string * string) :
  (forall t, has_ink (header ++ t) = true) ->
  loop_invariant escape type_name header all acc ->
  (forall m, In m (flush (fst acc) (snd acc)) ->
     has_ink m = true /\ size_accounted escape type_name header all m)
  /\ exists first rest t, flush (fst acc) (snd acc) = first :: rest /\ first = header ++ t.
Proof.
  intros Hh (Ha & Hb & Hc). destruct acc as [messages current]. cbn [fst snd] in *.
  destruct (has_ink current) eqn:Hink.
  - rewrite flush_ink by exact Hink. split.
    + intros m Hm. apply in_app_or in Hm as [Hm | [<- | []]]; [now apply Ha|].
      destruct Hb as [-> | [_ Hb]]; [discriminate | split; [exact Hink | exact Hb]].
    + destruct Hc as [(-> & t & ->) | (first & rest & t & -> & ->)].
      * now exists (header ++ t), [], t.
      * now exists (header ++ t), (rest ++ [current])%list, t.
  - rewrite flush_blank by exact Hink. split; [exact Ha|].
    destruct Hc as [(_ & t & ->) | (first & rest & t & -> & ->)].
    + now rewrite Hh in Hink.
    + now exists (header ++ t), rest, t.
Qed.

Lemma format_step_invariant (type_name header : string) (all : list CourtSection)
      (acc : list string * string) (section : CourtSection) :
  (forall t, has_ink (header ++ t) = true) ->
  In section all ->
  loop_invariant escape type_name header all acc ->
  loop_invariant escape type_name header all (format_step escape type_name acc section).
Proof.
  intros Hh Hin Hinv. unfold format_step.
  set (text := _format_court_section escape section).
  assert (Htext : has_ink text = true) by apply section_text_ink.
  destruct (TELEGRAM_MAX_MESSAGE_LENGTH <? PyStr.len (snd acc) + PyStr.len text + 2) eqn:E.
  - destruct (flush_invariant type_name header all acc Hh Hinv)
      as (Hf & first & rest & t & Ef & Efirst).
    destruct (TELEGRAM_MAX_MESSAGE_LENGTH <? PyStr.len text) eqn:E2.
    + split; [|split]; cbn [fst snd].
      * intros m Hm. apply in_app_or in Hm as [Hm | Hm]; [now apply Hf|].
        split; [exact (split_messages_ink section type_name m Hm)|].
        right. right. right. exists section.
        split; [exact Hin|]. split; [now apply Nat.ltb_lt | exact Hm].
      * now left.
      * right. rewrite Ef. exists first, (rest ++ _split_large_section escape section type_name)%list, t.
        split; [reflexivity | exact Efirst].
    + split; [|split]; cbn [fst snd].
      * exact Hf.
      * right. split; [apply list_contd_ink|].
        right. right. left. exists section.
        split; [exact Hin|]. split; [now apply Nat.ltb_ge | reflexivity].
      * right. now exists first, rest, t.
  - destruct Hinv as (Ha & Hb & Hc). split; [|split]; cbn [fst snd].
    + exact Ha.
    + right. split; [now rewrite !has_ink_app, Htext, !orb_true_r|].
      left. apply Nat.ltb_ge in E. rewrite !len_app.
      change (PyStr.len LF) with 1. unfold TELEGRAM_MAX_MESSAGE_LENGTH in *. lia.
    + destruct Hc as [(Em & t & Ec) | Hc]; [left | now right].
      split; [exact Em|]. exists (t ++ LF ++ text). rewrite Ec. apply append_assoc.
Qed.

Lemma format_loop_invariant (type_name header : string) (all : list CourtSection)
      (sections : list CourtSection) :
  (forall t, has_ink (header ++ t) = true) ->
  forall acc,
    (forall s, In s sections -> In s all) ->
    loop_invariant escape type_name header all acc ->
    loop_invariant escape type_name header all (fold_left (format_step escape type_name) sections acc).
Proof.
  intros Hh. induction sections as [|s sections IH]; intros acc Hall Hinv; [exact Hinv|].
  cbn [fold_left]. apply IH; [intros s' Hs'; apply Hall; now right|].
  apply format_step_invariant; [exact Hh | apply Hall; now left | exact Hinv].
Qed.

Lemma format_sections_facts (type_name header : string) (sections : list CourtSection) :
  (forall t, has_ink (header ++ t) = true) ->
  (forall m, In m (format_sections escape type_name header sections) ->
     has_ink m = true /\ size_accounted escape type_name header sections m)
  /\ exists first rest t,
       format_sections escape type_name header sections = first :: rest
       /\ first = header ++ t.
Proof.
  intros Hh. unfold format_sections.
  apply flush_invariant; [exact Hh|].
  apply format_loop_invariant; [exact Hh | auto |].
  split; [intros m []|]. cbn [fst snd].
  split.
  - right. split; [rewrite <- (append_empty_r header); apply Hh|]. right. now left.
  - left. split; [reflexivity|]. exists "". now rewrite append_empty_r.
Qed.

Lemma group_by_court_returns (entries : list CaseEntry) :
  group_by_court entries = Ok (map snd (group_spec entries)).
Proof. unfold group_by_court. now rewrite group_sections_spec. Qed.

(** X15. [format_causelist_message] always returns at least one message
    and never a blank one.  Without entries it is the single notice that
    no case was found; otherwise the first message starts with the header
    (title, date, advocate and the number of cases found). *)
Theorem format_messages_shape
        (entries : list CaseEntry) (cl_type target_date lawyer_name : string) :
  let type_name := dict_get cl_type cl_type CAUSELIST_TYPE_NAMES in
  let header :=
    message_header escape type_name target_date lawyer_name (length entries) in
  exists messages,
    format_causelist_message escape entries cl_type target_date lawyer_name = Ok messages
    /\ messages <> []
    /\ (forall m, In m messages -> PyStr.truthy (PyStr.strip m) = true)
    /\ (entries = [] ->
        messages = [no_cases_message escape type_name target_date lawyer_name])
    /\ (entries <> [] ->
        exists first rest,
          messages = first :: rest /\ PyStr.startswith header first = true).
Proof.
  intros type_name header. unfold format_causelist_message. fold type_name.
  destruct entries as [|e entries].
  - eexists. split; [reflexivity|]. split; [discriminate|].
    split; [|split; [reflexivity | congruence]].
    intros m [<- | []]. rewrite strip_truthy_ink. apply no_cases_message_ink.
  - rewrite group_by_court_returns. cbn [rbind]. fold header.
    destruct (format_sections_facts type_name header (map snd (group_spec (e :: entries))))
      as (Hall & first & rest & t & E & Efirst);
      [intros t; apply message_header_ink|].
    eexists. split; [reflexivity|]. rewrite E.
    split; [discriminate|]. split; [|split; [discriminate|]].
    + intros m Hm. rewrite strip_truthy_ink. rewrite <- E in Hm. now apply Hall.
    + intros _. exists first, rest. split; [reflexivity|].
      rewrite Efirst. apply startswith_append.
Qed.

(** X16. How long the messages of [format_causelist_message] get.  A
    section is only added to a message when the result stays below the
    limit of 4096 characters, so a message reaches the limit only when it
    is the bare header, or a continuation line followed by one section
    that fits the limit by itself (the line is not counted), or one of the
    messages a longer section was split into.  Hence all messages are
    within the limit when the header is and every section with the
    continuation line is. *)
Theorem format_messages_sizes
        (entries : list CaseEntry) (cl_type target_date lawyer_name : string) :
  let type_name := dict_get cl_type cl_type CAUSELIST_TYPE_NAMES in
  let header :=
    message_header escape type_name target_date lawyer_name (length entries) in
  exists sections messages,
    group_by_court entries = Ok sections
    /\ format_causelist_message escape entries cl_type target_date lawyer_name = Ok messages
    /\ (forall m, In m messages ->
          m = no_cases_message escape type_name target_date lawyer_name
          \/ size_accounted escape type_name header sections m)
    /\ (entries <> [] ->
        PyStr.len header <= TELEGRAM_MAX_MESSAGE_LENGTH ->
        (forall section, In section sections ->
           PyStr.len (list_contd escape type_name)
           + PyStr.len (_format_court_section escape section)
           <= TELEGRAM_MAX_MESSAGE_LENGTH) ->
        forall m, In m messages -> PyStr.len m <= TELEGRAM_MAX_MESSAGE_LENGTH).
Proof.
  intros type_name header. unfold format_causelist_message. fold type_name.
  rewrite group_by_court_returns.
  set (sections := map snd (group_spec entries)).
  destruct entries as [|e entries].
  - eexists _, _. split; [reflexivity|]. split; [reflexivity|].
    split; [intros m [<- | []]; now left | congruence].
  - cbn [rbind]. fold header. fold sections.
    destruct (format_sections_facts type_name header sections) as (Hall & _);
      [intros t; apply message_header_ink|].
    eexists _, _. split; [reflexivity|]. split; [reflexivity|].
    assert (Hsize : forall m,
               In m (format_sections escape type_name header sections) ->
               size_accounted escape type_name header sections m)
      by (intros m Hm; now apply Hall).
    split; [intros m Hm; right; now apply Hsize|].
    intros _ Hheader Hfit m Hm.
    destruct (Hsize m Hm) as [H | [-> | [(s & Hs & _ & ->) | (s & Hs & Hbig & _)]]].
    + lia.
    + exact Hheader.
    + rewrite len_app. now apply Hfit.
    + specialize (Hfit s Hs). lia.
Qed.

End FormatterFacts.

Lemma format_messages_sizes_witness :
  exists messages,
    format_causelist_message (fun s => s) sample_entries "D" "01/02/2024" "sharma"
    = Ok messages
    /\ forall m, In m messages -> PyStr.len m <= TELEGRAM_MAX_MESSAGE_LENGTH.
Proof.
  destruct (format_messages_sizes (fun s => s) sample_entries "D" "01/02/2024" "sharma")
    as (sections & messages & Eg & Ef & _ & H).
  exists messages. split; [exact Ef|].
  apply H.
  - discriminate.
  - apply Nat.leb_le. vm_compute. reflexivity.
  - vm_compute in Eg. injection Eg as <-.
    intros section [<- | [<- | []]]; apply Nat.leb_le; vm_compute; reflexivity.
Defined.

(** ** [_get_date_options] *)

Lemma next_working_day_offset (today d : date) :
  valid_date d -> (d < MAXORDINAL)%Z ->
  exists r,
    next_working_day today (Some d) = Returns r
    /\ valid_date r
    /\ ((weekday d = 4 /\ r = d + 3)
        \/ (weekday d = 5 /\ r = d + 2)
        \/ (weekday d <> 4 /\ weekday d <> 5 /\ r = d + 1))%Z.
Proof.
  intros Hv Hlt. unfold next_working_day.
  rewrite (add_days_in_range d 1%Z) by (unfold valid_date in Hv; lia).
  cbn [and_then].
  destruct (Z.eq_dec (weekday d) 4) as [E4|E4]; [|destruct (Z.eq_dec (weekday d) 5) as [E5|E5]].
  - rewrite (skip_weekend_weekend (d + 1)%Z) by weekdays.
    rewrite (add_days_in_range (d + 1)%Z 1%Z) by weekdays. cbn [and_then].
    rewrite (skip_weekend_weekend (d + 1 + 1)%Z) by weekdays.
    rewrite (add_days_in_range (d + 1 + 1)%Z 1%Z) by weekdays. cbn [and_then].
    rewrite (skip_weekend_workday (d + 1 + 1 + 1)%Z) by weekdays.
    exists (d + 3)%Z. split; [f_equal; lia|]. split; [weekdays|]. left. now split.
  - rewrite (skip_weekend_weekend (d + 1)%Z) by weekdays.
    rewrite (add_days_in_range (d + 1)%Z 1%Z) by weekdays. cbn [and_then].
    rewrite (skip_weekend_workday (d + 1 + 1)%Z) by weekdays.
    exists (d + 2)%Z. split; [f_equal; lia|]. split; [weekdays|]. right. left. now split.
  - rewrite (skip_weekend_workday (d + 1)%Z) by weekdays.
    exists (d + 1)%Z. split; [reflexivity|]. split; [weekdays|]. right. right. auto.
Qed.

Lemma next_working_day_last (today : date) :
  next_working_day today (Some MAXORDINAL) = Raises Builtin.OverflowError.
Proof.
  unfold next_working_day. rewrite add_days_beyond by (unfold MAXORDINAL; lia). reflexivity.
Qed.

(** X17. The dates offered by [_get_date_options]: today, whatever day of
    the week it is, then the next two working days, in order and at most
    four days ahead; no working day between today and the last one offered
    is left out.  It raises [OverflowError] only on the last two days of
    the calendar. *)
Theorem date_options_next_two (strftime : date -> string -> string) (today : date) :
  valid_date today ->
  ((MAXORDINAL - 1 <= today)%Z ->
   _get_date_options strftime today = Raises Builtin.OverflowError)
  /\ ((today < MAXORDINAL - 1)%Z ->
      exists d1 d2,
        _get_date_options strftime today
        = Returns [today_option strftime today; date_option strftime d1;
                   date_option strftime d2]
        /\ (today < d1 < d2)%Z /\ (d2 <= today + 4)%Z /\ valid_date d2
        /\ (weekday d1 < 5)%Z /\ (weekday d2 < 5)%Z
        /\ forall x, (today < x < d2)%Z -> x <> d1 -> (5 <= weekday x)%Z).
Proof.
  intros Hv. unfold _get_date_options. cbn [following_options]. split.
  - intros Hlast.
    destruct (Z.eq_dec today MAXORDINAL) as [->|Hne].
    + now rewrite next_working_day_last.
    + assert (E : today = (MAXORDINAL - 1)%Z) by (unfold valid_date in Hv; lia).
      destruct (next_working_day_offset today today Hv) as (r & -> & _ & Hr);
        [unfold valid_date in Hv; lia|].
      cbn [and_then].
      assert (Er : r = MAXORDINAL) by (subst today; weekdays).
      rewrite Er. now rewrite next_working_day_last.
  - intros Hlt.
    destruct (next_working_day_offset today today Hv) as (d1 & -> & Hv1 & H1);
      [lia|].
    cbn [and_then].
    assert (Hlt1 : (d1 < MAXORDINAL)%Z) by weekdays.
    destruct (next_working_day_offset today d1 Hv1 Hlt1) as (d2 & -> & Hv2 & H2).
    cbn [and_then app].
    exists d1, d2. split; [reflexivity|].
    split; [weekdays|]. split; [weekdays|]. split; [exact Hv2|].
    split; [weekdays|]. split; [weekdays|].
    intros x Hx Hne. weekdays.
Qed.

Lemma date_options_next_two_witness :
  exists d1 d2,
    _get_date_options (fun _ _ => "") 738890%Z
    = Returns [today_option (fun _ _ => "") 738890%Z;
               date_option (fun _ _ => "") d1; date_option (fun _ _ => "") d2]
    /\ d1 = 738893%Z /\ d2 = 738894%Z.
Proof.
  destruct (date_options_next_two (fun _ _ => "") 738890%Z) as (_ & H);
    [unfold valid_date, MAXORDINAL; lia|].
  assert (Hlt : (738890 < MAXORDINAL - 1)%Z) by (unfold MAXORDINAL; lia).
  destruct (H Hlt) as (d1 & d2 & E & H1 & H2 & _ & W1 & W2 & _).
  exists d1, d2. split; [exact E|]. split; weekdays.
Defined.

(** ** [resolve_date] *)

(** X18. What [resolve_date] resolves to, for a day [today] that is not
    the last of the calendar.  Without an argument it is the first working
    day after today, never today and never a Saturday or Sunday.
    "tomorrow", in any letter case, is the day after today even when that
    is a Saturday or Sunday, and "today" is today; neither is parsed as a
    date.  Anything else is read as dd/mm/yyyy first, then dd-mm-yyyy, then
    yyyy-mm-dd, and raises [ValueError] when none of them fits. *)
Theorem resolve_date_cases
        (strftime : date -> string -> string) (strptime : string -> string -> option date)
        (today : date) :
  valid_date today -> (today < MAXORDINAL)%Z ->
  (exists r,
     resolve_date strftime strptime today None
     = Returns (format_date_for_api strftime r)
     /\ (today < r <= today + 3)%Z /\ (weekday r < 5)%Z
     /\ forall x, (today < x < r)%Z -> (5 <= weekday x)%Z)
  /\ (forall date_arg,
        PyStr.lower date_arg = "today" ->
        resolve_date strftime strptime today (Some date_arg)
        = Returns (format_date_for_api strftime today))
  /\ (forall date_arg,
        PyStr.lower date_arg = "tomorrow" ->
        resolve_date strftime strptime today (Some date_arg)
        = Returns (format_date_for_api strftime (today + 1)%Z))
  /\ (forall date_arg,
        PyStr.lower date_arg <> "today" -> PyStr.lower date_arg <> "tomorrow" ->
        resolve_date strftime strptime today (Some date_arg)
        = match strptime date_arg "%d/%m/%Y", strptime date_arg "%d-%m-%Y",
                strptime date_arg "%Y-%m-%d" with
          | Some d, _, _ => Returns (format_date_for_api strftime d)
          | None, Some d, _ => Returns (format_date_for_api strftime d)
          | None, None, Some d => Returns (format_date_for_api strftime d)
          | None, None, None => Raises Builtin.ValueError
          end).
Proof.
  intros Hv Hlt. split; [|split; [|split]].
  - cbn [resolve_date].
    change (next_working_day today None) with (next_working_day today (Some today)).
    destruct (next_working_day_offset today today Hv Hlt) as (r & -> & Hvr & Hr).
    cbn [and_then]. exists r. split; [reflexivity|].
    split; [weekdays|]. split; [weekdays|]. intros x Hx. weekdays.
  - intros date_arg E. cbn [resolve_date]. rewrite E. reflexivity.
  - intros date_arg E. cbn [resolve_date]. rewrite E.
    cbn [String.eqb Ascii.eqb Bool.eqb].
    rewrite (add_days_in_range today 1%Z) by (unfold valid_date in Hv; lia).
    reflexivity.
  - intros date_arg H1 H2. cbn [resolve_date].
    apply String.eqb_neq in H1. apply String.eqb_neq in H2. rewrite H1, H2.
    unfold parse_date_input. cbn [parse_with].
    destruct (strptime date_arg "%d/%m/%Y"); [reflexivity|].
    destruct (strptime date_arg "%d-%m-%Y"); [reflexivity|].
    destruct (strptime date_arg "%Y-%m-%d"); reflexivity.
Qed.

Lemma resolve_date_cases_witness :
  resolve_date (fun d _ => str_of_nat (Z.to_nat d)) (fun _ _ => None) 738890%Z
               (Some "Tomorrow")
  = Returns "738891".
Proof.
  destruct (resolve_date_cases (fun d _ => str_of_nat (Z.to_nat d)) (fun _ _ => None)
                               738890%Z)
    as (_ & _ & H & _);
    [unfold valid_date, MAXORDINAL; lia | unfold MAXORDINAL; lia |].
  rewrite (H "Tomorrow") by reflexivity. reflexivity.
Defined.

(** ** The recognition passes *)

Lemma extracted_isdigit (result : speech_result) (c : string) :
  In c (_extract_digits_from_result result) -> PyStr.isdigit c = true.
Proof.
  destruct result as [alternatives|]; [|intros []]. cbn [_extract_digits_from_result].
  intros Hc. apply in_flat_map in Hc as (alt & _ & Hc).
  unfold alternative_candidates in Hc.
  destruct (negb (PyStr.truthy _)); [destruct Hc|].
  destruct (PyStr.isdigit (PyStr.replace " " "" _)) eqn:H1;
    destruct (PyStr.truthy (_words_to_digits _) && PyStr.isdigit (_words_to_digits _)) eqn:H2;
    cbn in Hc;
    repeat (destruct Hc as [<-|Hc]; [first [exact H1 | now apply andb_prop in H2]|]);
    destruct Hc.
Qed.

Lemma select_result_In (all_candidates : list string) (c : string) :
  select_result all_candidates = Some c -> In c all_candidates.
Proof.
  unfold select_result.
  destruct (filter (fun c => PyStr.len c =? 6) all_candidates) as [|c0 six] eqn:Esix.
  - rewrite most_common_empty.
    destruct all_candidates as [|x rest]; [discriminate|].
    intros E. injection E as <-.
    destruct (min_from_first_smallest dist6 rest [] [] x) as (before & after & El & _);
      [intros ? [] | intros ? [] |].
    cbn [app] in El. rewrite El. apply in_or_app. right. now left.
  - destruct (most_common_first (c0 :: six) c0 (or_introl eq_refl))
      as (best & n & before & after & -> & El & _).
    intros E. injection E as <-.
    assert (Hin : In best (filter (fun c => PyStr.len c =? 6) all_candidates)).
    { rewrite Esix, El. apply in_or_app. right. now left. }
    exact (proj1 (proj1 (filter_In _ _ _) Hin)).
Qed.

Lemma select_result_digits (all_candidates : list string) (c : string) :
  forallb PyStr.isdigit all_candidates = true ->
  select_result all_candidates = Some c -> PyStr.isdigit c = true.
Proof.
  intros Hall Hc. apply select_result_In in Hc.
  exact (proj1 (forallb_forall _ _) Hall c Hc).
Qed.

Section RecognitionFacts.

Variable Audio : Type.
Variable recorded : string -> option Audio.
Variable recognize_google : Audio -> string -> heard.
Variable Image : Type.
Variable preprocessed : option (list (string * Image)).
Variable image_to_string : Image -> string -> option string.

Lemma languages_loop_digits (audio_data : Audio) (langs : list string) :
  forall acc out,
    forallb PyStr.isdigit acc = true ->
    languages_loop Audio recognize_google audio_data langs acc = Some out ->
    forallb PyStr.isdigit out = true.
Proof.
  induction langs as [|lang rest IH]; intros acc out Hacc E; cbn [languages_loop] in E.
  - now injection E as <-.
  - destruct (recognize_google audio_data lang) as [result| | |];
      [|exact (IH acc out Hacc E)..|discriminate].
    apply (IH _ out) in E; [exact E|].
    rewrite forallb_app, Hacc. apply forallb_forall. apply extracted_isdigit.
Qed.

Lemma variants_loop_digits (variants : list string) :
  forall acc out,
    forallb PyStr.isdigit acc = true ->
    variants_loop Audio recorded recognize_google variants acc = Some out ->
    forallb PyStr.isdigit out = true.
Proof.
  induction variants as [|v rest IH]; intros acc out Hacc E; cbn [variants_loop] in E.
  - now injection E as <-.
  - destruct (recorded v) as [audio_data|]; [|discriminate].
    destruct (languages_loop Audio recognize_google audio_data ["en-IN"; "en-US"] acc)
      as [acc'|] eqn:El; [|discriminate].
    apply (IH acc' out); [|exact E].
    exact (languages_loop_digits audio_data _ acc acc' Hacc El).
Qed.

Lemma configs_loop_digits (img : Image) (cfgs : list string) :
  forall acc out,
    forallb PyStr.isdigit acc = true ->
    configs_loop Image image_to_string img cfgs acc = Some out ->
    forallb PyStr.isdigit out = true.
Proof.
  induction cfgs as [|cfg rest IH]; intros acc out Hacc E; cbn [configs_loop] in E.
  - now injection E as <-.
  - destruct (image_to_string img cfg) as [text|]; [|discriminate].
    apply (IH _ out) in E; [exact E|].
    destruct (PyStr.truthy (cleaned_text text) && PyStr.isdigit (cleaned_text text)) eqn:Hd;
      [|exact Hacc].
    apply andb_prop in Hd as [_ Hd].
    rewrite forallb_app, Hacc. cbn [forallb]. now rewrite Hd.
Qed.

Lemma pipelines_loop_digits (pipelines : list (string * Image)) :
  forall acc out,
    forallb PyStr.isdigit acc = true ->
    pipelines_loop Image image_to_string pipelines acc = Some out ->
    forallb PyStr.isdigit out = true.
Proof.
  induction pipelines as [|[name img] rest IH]; intros acc out Hacc E;
    cbn [pipelines_loop] in E.
  - now injection E as <-.
  - destruct (configs_loop Image image_to_string img configs acc) as [acc'|] eqn:El;
      [|discriminate].
    apply (IH acc' out); [|exact E].
    exact (configs_loop_digits img _ acc acc' Hacc El).
Qed.

(** X19. What the two solvers can return.  Every candidate they collect,
    and so every result, is a non-empty string of digits.  The audio
    solver asks for both languages on the padded recording, then on the
    slowed one; a call that raises [UnknownValueError] or [RequestError]
    only contributes nothing, but when preparing a recording or a call
    raises anything else the solver returns [None], whatever was
    recognised before.  The same holds for an image that cannot be
    prepared or read. *)
Theorem recognition_results :
  digit_tracks (audio_candidates Audio recorded recognize_google)
  /\ digit_tracks (image_candidates Image preprocessed image_to_string)
  /\ (forall c, audio_result Audio recorded recognize_google = Some c ->
                PyStr.isdigit c = true)
  /\ (forall c, image_result Image preprocessed image_to_string = Some c ->
                PyStr.isdigit c = true)
  /\ (forall padded slowed,
        recorded "padded" = Some padded -> recorded "slowed" = Some slowed ->
        (forall a lang, recognize_google a lang <> OtherError) ->
        audio_candidates Audio recorded recognize_google
        = Some (call_candidates (recognize_google padded "en-IN")
                ++ call_candidates (recognize_google padded "en-US")
                ++ call_candidates (recognize_google slowed "en-IN")
                ++ call_candidates (recognize_google slowed "en-US"))%list)
  /\ (forall variant_name,
        In variant_name ["padded"; "slowed"] ->
        (recorded variant_name = None
         \/ exists audio_data lang,
              recorded variant_name = Some audio_data
              /\ In lang ["en-IN"; "en-US"]
              /\ recognize_google audio_data lang = OtherError) ->
        audio_result Audio recorded recognize_google = None)
  /\ (forall pipelines pipe_name img config,
        preprocessed = None
        \/ (preprocessed = Some pipelines /\ In (pipe_name, img) pipelines
            /\ In config configs /\ image_to_string img config = None) ->
        image_result Image preprocessed image_to_string = None).
Proof.
  assert (Ha : digit_tracks (audio_candidates Audio recorded recognize_google)).
  { unfold digit_tracks.
    destruct (audio_candidates Audio recorded recognize_google) as [out|] eqn:E; [|exact I].
    exact (variants_loop_digits _ [] out eq_refl E). }
  assert (Hi : digit_tracks (image_candidates Image preprocessed image_to_string)).
  { unfold digit_tracks.
    destruct (image_candidates Image preprocessed image_to_string) as [out|] eqn:E; [|exact I].
    unfold image_candidates in E. destruct preprocessed as [ps|]; [|discriminate].
    exact (pipelines_loop_digits ps [] out eq_refl E). }
  split; [exact Ha|]. split; [exact Hi|]. split; [|split; [|split; [|split]]].
  - intros c. unfold audio_result.
    destruct (audio_candidates Audio recorded recognize_google) as [out|]; [|discriminate].
    now apply select_result_digits.
  - intros c. unfold image_result.
    destruct (image_candidates Image preprocessed image_to_string) as [out|]; [|discriminate].
    now apply select_result_digits.
  - intros padded slowed Hp Hs Hno.
    unfold audio_candidates. cbn [variants_loop languages_loop]. rewrite Hp, Hs.
    pose proof (Hno padded "en-IN") as N1. pose proof (Hno padded "en-US") as N2.
    pose proof (Hno slowed "en-IN") as N3. pose proof (Hno slowed "en-US") as N4.
    destruct (recognize_google padded "en-IN"), (recognize_google padded "en-US"),
      (recognize_google slowed "en-IN"), (recognize_google slowed "en-US");
      try congruence; cbn [call_candidates app];
      rewrite ?app_nil_r, <- ?app_assoc; reflexivity.
  - intros v Hv Hfail. unfold audio_result, audio_candidates.
    cbn [variants_loop languages_loop].
    assert (Hcases : v = "padded" \/ v = "slowed") by (destruct Hv as [<-|[<-|[]]]; auto).
    destruct Hfail as [Hnone | (a & lang & Hrec & Hlang & Herr)].
    + destruct Hcases as [-> | ->].
      * now rewrite Hnone.
      * rewrite Hnone. destruct (recorded "padded") as [p|]; [|reflexivity].
        destruct (recognize_google p "en-IN"), (recognize_google p "en-US"); reflexivity.
    + assert (Hl : lang = "en-IN" \/ lang = "en-US") by (destruct Hlang as [<-|[<-|[]]]; auto).
      destruct Hcases as [-> | ->]; rewrite ?Hrec.
      * destruct Hl as [-> | ->]; rewrite ?Herr; [reflexivity|].
        destruct (recognize_google a "en-IN"); reflexivity.
      * destruct (recorded "padded") as [p|]; [|reflexivity].
        destruct (recognize_google p "en-IN"), (recognize_google p "en-US");
          try reflexivity;
          (destruct Hl as [-> | ->]; rewrite ?Herr; [reflexivity|];
           destruct (recognize_google a "en-IN"); reflexivity).
  - intros pipelines pipe_name img config [Hnone | (Hp & Hin & Hc & Herr)];
      unfold image_result, image_candidates.
    + now rewrite Hnone.
    + rewrite Hp.
      assert (Hloop : forall cfgs acc,
                 In config cfgs ->
                 configs_loop Image image_to_string img cfgs acc = None).
      { induction cfgs as [|cfg rest IH]; intros acc Hcfg; [destruct Hcfg|].
        cbn [configs_loop]. destruct Hcfg as [-> | Hcfg]; [now rewrite Herr|].
        destruct (image_to_string img cfg); [now apply IH | reflexivity]. }
      assert (Hpipes : forall ps acc,
                 In (pipe_name, img) ps ->
                 pipelines_loop Image image_to_string ps acc = None).
      { induction ps as [|[n i] rest IH]; intros acc Hps; [destruct Hps|].
        cbn [pipelines_loop]. destruct Hps as [E | Hps].
        - injection E as -> ->. now rewrite Hloop.
        - destruct (configs_loop Image image_to_string i configs acc);
            [now apply IH | reflexivity]. }
      now rewrite Hpipes.
Qed.

End RecognitionFacts.

(** ** Only digits are submitted *)

Lemma submitted_list_app (a b : list event) :
  submitted (a ++ b) = (submitted a ++ submitted b)%list.
Proof. unfold submitted. apply flat_map_app. Qed.

Lemma submitted_posts (tried : list (string * res response)) :
  submitted (posts tried) = map (fun c => RawBody ("captcha=" ++ c)) (map fst tried).
Proof.
  induction tried as [|[c r] t IH]; [reflexivity|].
  cbn [posts map fst snd]. fold (posts t).
  change (verify_post c r :: posts t) with ([verify_post c r] ++ posts t)%list.
  rewrite submitted_list_app, IH.
  cbn [submitted flat_map verify_post]. rewrite String.eqb_refl. reflexivity.
Qed.

Lemma length6_In (r : option string) (c : string) :
  In c (length6 r) -> r = Some c /\ PyStr.len c = 6.
Proof.
  destruct r as [v|]; [|intros []]. unfold length6.
  destruct (PyStr.len v =? 6) eqn:E; [|intros []].
  intros [<-|[]]. split; [reflexivity | now apply Nat.eqb_eq].
Qed.

Lemma build_candidates_from (a i : option string) (c : string) :
  In c (map snd (build_candidates a i)) -> (a = Some c \/ i = Some c) /\ PyStr.len c = 6.
Proof.
  unfold build_candidates. rewrite !six_digit_candidate_length6.
  destruct (both_agree a i); [|rewrite map_app]; rewrite ?map_map; cbn [snd];
    rewrite ?map_id; intros H.
  - destruct (length6_In a c H). auto.
  - apply in_app_or in H as [H|H]; destruct (length6_In _ c H); auto.
Qed.

Section DigitCodes.

Variable P : Portal.
Hypothesis audio_digits : forall blob w, digit_tracks (fst (audio_tracks P blob w)).
Hypothesis image_digits : forall blob w, digit_tracks (fst (image_tracks P blob w)).

Lemma recognise_digit_results (s s1 : state P) (a i : option string) :
  recognise P s = (Ok (a, i), s1) ->
  (forall c, a = Some c -> PyStr.isdigit c = true)
  /\ (forall c, i = Some c -> PyStr.isdigit c = true).
Proof.
  unfold recognise, bind, ret.
  destruct (fetch_captcha P s) as [[c|e] s0]; [|discriminate].
  assert (Ha : forall s', forall code,
             fst (solve_member P (solve_audio_captcha P) (audio c) s') = Ok (Some code) ->
             PyStr.isdigit code = true).
  { intros s' code. destruct (audio c) as [blob|]; [|discriminate].
    cbn [solve_member]. unfold solve_audio_captcha.
    pose proof (audio_digits blob (world s')) as Hd.
    destruct (audio_tracks P blob (world s')) as [[l|] w]; cbn [fst] in *;
      [|discriminate].
    intros E. injection E as E. exact (select_result_digits l code Hd E). }
  assert (Hi : forall s', forall code,
             fst (solve_member P (solve_image_captcha P) (image c) s') = Ok (Some code) ->
             PyStr.isdigit code = true).
  { intros s' code. destruct (image c) as [blob|]; [|discriminate].
    cbn [solve_member]. unfold solve_image_captcha.
    pose proof (image_digits blob (world s')) as Hd.
    destruct (image_tracks P blob (world s')) as [[l|] w]; cbn [fst] in *;
      [|discriminate].
    intros E. injection E as E. exact (select_result_digits l code Hd E). }
  specialize (Ha s0).
  destruct (solve_member P (solve_audio_captcha P) (audio c) s0) as [[oa|ea] sa];
    [|discriminate].
  specialize (Hi sa).
  destruct (solve_member P (solve_image_captcha P) (image c) sa) as [[oi|ei] si];
    [|discriminate].
  intros E. injection E as <- <- _. cbn [fst] in *.
  split; intros code ->; [now apply Ha | now apply Hi].
Qed.

Lemma attempt_loop_digit_codes (attempts : list nat) :
  forall s : state P,
  exists evs,
    log (snd (attempt_loop P attempts s)) = (log s ++ evs)%list
    /\ Forall six_digit_body (submitted evs).
Proof.
  induction attempts as [|attempt later IH]; intros s.
  - exists []. cbn. rewrite app_nil_r. split; [reflexivity | constructor].
  - rewrite attempt_loop_step.
    destruct (recognise_outcome P s) as (url & r & Hlog1 & _ & _).
    destruct (recognise P s) as [[[a i]|e] s1] eqn:Erec; cbn [fst snd] in Hlog1 |- *.
    2:{ exists [EvGet url r]. split; [exact Hlog1 | constructor]. }
    destruct (recognise_digit_results s s1 a i Erec) as (Hda & Hdi).
    assert (Hcodes : forall c, In c (map snd (build_candidates a i)) ->
                               six_digit_body (RawBody ("captcha=" ++ c))).
    { intros c Hc. destruct (build_candidates_from a i c Hc) as ([E|E] & H6);
        exists c; (split; [reflexivity|]; split; [|exact H6]); auto. }
    destruct (build_candidates a i) as [|c0 cs] eqn:Ecs.
    + destruct (IH s1) as (evs & Hlog & Hall).
      exists ([EvGet url r] ++ evs)%list.
      split; [rewrite Hlog, Hlog1, <- app_assoc; reflexivity|].
      rewrite submitted_list_app. exact Hall.
    + destruct (try_candidates_trace P (c0 :: cs) s1) as (tried & rest & Hlog2 & Hmap & _).
      assert (Htried : Forall six_digit_body (submitted (posts tried))).
      { rewrite submitted_posts. apply Forall_forall. intros d Hd.
        apply in_map_iff in Hd as (c & <- & Hc). apply Hcodes.
        rewrite Hmap. apply in_or_app. now left. }
      destruct (try_candidates P (c0 :: cs) s1) as [[[|]|e] s2]; cbn [fst snd] in Hlog2.
      * exists ([EvGet url r] ++ posts tried)%list.
        split; [cbn [fst snd]; rewrite Hlog2, Hlog1, <- app_assoc; reflexivity|].
        rewrite submitted_list_app. exact Htried.
      * destruct (IH (mkState P (world s2) (log s2 ++ [EvSleep CAPTCHA_RETRY_DELAY])%list))
          as (evs & Hlog & Hall).
        exists ([EvGet url r] ++ posts tried ++ [EvSleep CAPTCHA_RETRY_DELAY] ++ evs)%list.
        split; [rewrite Hlog; cbn [log]; rewrite Hlog2, Hlog1, <- !app_assoc; reflexivity|].
        rewrite !submitted_list_app.
        repeat (apply Forall_app; split); try exact Htried; try exact Hall; constructor.
      * exists ([EvGet url r] ++ posts tried)%list.
        split; [cbn [fst snd]; rewrite Hlog2, Hlog1, <- app_assoc; reflexivity|].
        rewrite submitted_list_app. exact Htried.
Qed.

(** X20. With recognisers that only propose digit strings, as the two
    passes above do, every verification request [solve_and_verify] makes
    carries exactly six digits: nothing else is ever submitted. *)
Theorem only_digit_codes_submitted (s : state P) :
  exists evs,
    log (snd (solve_and_verify P s)) = (log s ++ evs)%list
    /\ Forall six_digit_body (submitted evs).
Proof. exact (attempt_loop_digit_codes (seq 1 MAX_CAPTCHA_RETRIES) s). Qed.

End DigitCodes.

Lemma only_digit_codes_submitted_witness :
  let P := scripted_portal 3 "NA" "" (Some ["48291"; "482913"]) (Some ["482918"]) in
  exists evs,
    log (snd (solve_and_verify P (fresh P 0))) = evs
    /\ Forall six_digit_body (submitted evs).
Proof.
  intros P.
  destruct (only_digit_codes_submitted P) with (s := fresh P 0) as (evs & Hlog & Hall).
  - intros blob w. reflexivity.
  - intros blob w. reflexivity.
  - exists evs. split; [exact Hlog | exact Hall].
Defined.

(** ** Worked examples: special strings and odd challenges *)

(** The text of a cell leaves out what is inside a [<style>] below it. *)
Example style_left_out_of_cell_text :
  get_text_strip (Tag "td" [Text "1"; Tag "style" [Special Stylesheet "9"]]) = "1".
Proof. reflexivity. Qed.

(** The title is read child by child, and a [<style>] child gives its own
    text: the row below is a case row, its third cell reads "Y", and its
    title is "court no Vs Y". *)
Example style_kept_in_title :
  let title_cell :=
    Tag "td" [Tag "style" [Special Stylesheet "court no"]; Tag "br" []; Text "Y"] in
  get_text_strip title_cell = "Y"
  /\ parse_soup (document [Tag "tr" [td "1"; td "CW/7"; title_cell]])
     = Ok [mkCaseEntry "1" "CW/7" "court no Vs Y" "" "" "" ""].
Proof. split; vm_compute; reflexivity. Qed.

(** A comment is in no text. *)
Example comment_left_out :
  get_text (Tag "td" [Special Comment "draft"; Text "final"]) = "final"
  /\ _extract_title (Tag "td" [Special Comment "draft"; Text "final"]) = "final".
Proof. split; reflexivity. Qed.

(** A challenge that is JSON but not an object, one that is not JSON, and
    one whose members are not strings. *)
Example challenge_not_an_object :
  let P := portal_with_challenge (Some JsonNotObject) in
  solve_and_verify P (fresh P 0)
  = (Raise AttributeError,
     mkState P 1 [EvGet (CAPTCHA_URL ++ "?0.42")
                        (Ok (mkResponse 200 "" (Some JsonNotObject)))]).
Proof. reflexivity. Qed.

Example challenge_not_json :
  let P := portal_with_challenge None in
  fst (solve_and_verify P (fresh P 0)) = Raise JSONDecodeError.
Proof. reflexivity. Qed.

Example challenge_without_strings :
  let P := portal_with_challenge
             (Some (JsonObject [("image", JsonNotString); ("audio", JsonNotString)])) in
  fst (solve_and_verify P (fresh P 0)) = Ok false
  /\ fetches (log (snd (solve_and_verify P (fresh P 0)))) = 10
  /\ submitted (log (snd (solve_and_verify P (fresh P 0)))) = [].
Proof. repeat split; vm_compute; reflexivity. Qed.
